(** * Background process supervision of soul-cli-ai

    A shallow embedding of
    - [packages/core/src/services/backgroundProcessService.ts]
      (class [BackgroundProcessService]) and
    - the [execute] method of [ShellToolInvocation] in
      [packages/core/src/tools/shell.ts],
    with the properties the specification states about them; then the
    validation and confirmation of the shell tool and the two tools that
    read and end background processes
    ([packages/core/src/tools/bash-output.ts],
    [packages/core/src/tools/kill-bash.ts]), with further properties of
    all of these.

    Conventions.  A JavaScript number that holds an index, a length, a
    process id, an exit code or a time in milliseconds is a [Z].  A [Date]
    is its epoch time in milliseconds.  [Date.now()], [new Date()] and
    [Math.random()] are inputs of the function that calls them.  A [Map]
    is a [gmap]; an optional field is an [option]. *)

From Stdlib Require Import Ascii.
From stdpp Require Import gmap strings list fin_maps pretty.

Local Open Scope Z_scope.

(** ** JavaScript primitives used by the two files *)

Module Js.

(** The line feed, the separator of [output.split('\n')]. *)
Definition LF : ascii := "010"%char.

(** [s.split(sep)] for a one-character separator: always at least one
    piece, the empty string splits into one empty piece. *)
Fixpoint split (sep : ascii) (s : string) : list string :=
  match s with
  | EmptyString => [EmptyString]
  | String c rest =>
      if Ascii.eqb c sep then EmptyString :: split sep rest
      else match split sep rest with
           | [] => [String c EmptyString]
           | piece :: pieces => String c piece :: pieces
           end
  end.

(** [s.length > 0]. *)
Definition nonempty (s : string) : bool :=
  match s with EmptyString => false | String _ _ => true end.

(** [x || d] on an optional number: [undefined] and [0] are falsy. *)
Definition or_number (x : option Z) (d : Z) : Z :=
  match x with
  | Some n => if n =? 0 then d else n
  | None => d
  end.

(** [arr.length]. *)
Definition length {A} (l : list A) : Z := Z.of_nat (List.length l).

(** [arr.slice(start)]: a negative start counts from the end, a start
    past the end gives the empty array. *)
Definition slice {A} (start : Z) (l : list A) : list A :=
  if start <? 0 then drop (Z.to_nat (Z.max (length l + start) 0)) l
  else drop (Z.to_nat start) l.

(** [arr.splice(0, deleteCount)], the array that is left: the count is
    clamped to [0, arr.length]. *)
Definition splice0 {A} (deleteCount : Z) (l : list A) : list A :=
  drop (Z.to_nat deleteCount) l.

(** [arr.join(sep)]. *)
Fixpoint join (sep : string) (l : list string) : string :=
  match l with
  | [] => EmptyString
  | [x] => x
  | x :: rest => x +:+ sep +:+ join sep rest
  end.

(** Template-literal rendering of an integer. *)
Definition num (n : Z) : string := pretty n.

End Js.

(** ** backgroundProcessService.ts *)

Module BPS.

(** [status: 'running' | 'completed' | 'failed' | 'terminated'] *)
Inductive Status := running | completed | failed | terminated.

#[global] Instance Status_eq_dec : EqDecision Status.
Proof. solve_decision. Defined.

Definition status_string (s : Status) : string :=
  match s with
  | running => "running" | completed => "completed"
  | failed => "failed" | terminated => "terminated"
  end.

(** [exitCode?: number | null] *)
Inductive ExitCode := exit_undefined | exit_null | exit_number (n : Z).

#[global] Instance ExitCode_eq_dec : EqDecision ExitCode.
Proof. solve_decision. Defined.

(** [ShellExecutionHandle]: the pid and the result promise.  The promise
    settles outside the service; its settlement is an event
    ([result_resolved], [result_rejected] below). *)
Record ShellExecutionHandle := { handle_pid : option Z }.

(** [AbortController]: only [signal.aborted] is observable. *)
Record AbortController := { aborted : bool }.

Record BackgroundProcess := {
  id : string;
  pid : option Z;
  command : string;
  status : Status;
  exitCode : ExitCode;
  terminationSignal : option string;
  outputBuffer : list string;
  lastReadIndex : gmap string Z;
  startTime : Z;
  endTime : option Z;
  handle : option ShellExecutionHandle;
  abortController : option AbortController;
  memoryUsage : option Z;
  fileDescriptors : option Z;
}.

(** Field assignments [process.f = v]. *)
Definition set_status (v : Status) (p : BackgroundProcess) :=
  {| id := id p; pid := pid p; command := command p; status := v;
     exitCode := exitCode p; terminationSignal := terminationSignal p;
     outputBuffer := outputBuffer p; lastReadIndex := lastReadIndex p;
     startTime := startTime p; endTime := endTime p; handle := handle p;
     abortController := abortController p;
     memoryUsage := memoryUsage p; fileDescriptors := fileDescriptors p |}.

Definition set_exitCode (v : ExitCode) (p : BackgroundProcess) :=
  {| id := id p; pid := pid p; command := command p; status := status p;
     exitCode := v; terminationSignal := terminationSignal p;
     outputBuffer := outputBuffer p; lastReadIndex := lastReadIndex p;
     startTime := startTime p; endTime := endTime p; handle := handle p;
     abortController := abortController p;
     memoryUsage := memoryUsage p; fileDescriptors := fileDescriptors p |}.

Definition set_terminationSignal (v : string) (p : BackgroundProcess) :=
  {| id := id p; pid := pid p; command := command p; status := status p;
     exitCode := exitCode p; terminationSignal := Some v;
     outputBuffer := outputBuffer p; lastReadIndex := lastReadIndex p;
     startTime := startTime p; endTime := endTime p; handle := handle p;
     abortController := abortController p;
     memoryUsage := memoryUsage p; fileDescriptors := fileDescriptors p |}.

Definition set_outputBuffer (v : list string) (p : BackgroundProcess) :=
  {| id := id p; pid := pid p; command := command p; status := status p;
     exitCode := exitCode p; terminationSignal := terminationSignal p;
     outputBuffer := v; lastReadIndex := lastReadIndex p;
     startTime := startTime p; endTime := endTime p; handle := handle p;
     abortController := abortController p;
     memoryUsage := memoryUsage p; fileDescriptors := fileDescriptors p |}.

Definition set_lastReadIndex (v : gmap string Z) (p : BackgroundProcess) :=
  {| id := id p; pid := pid p; command := command p; status := status p;
     exitCode := exitCode p; terminationSignal := terminationSignal p;
     outputBuffer := outputBuffer p; lastReadIndex := v;
     startTime := startTime p; endTime := endTime p; handle := handle p;
     abortController := abortController p;
     memoryUsage := memoryUsage p; fileDescriptors := fileDescriptors p |}.

Definition set_endTime (v : Z) (p : BackgroundProcess) :=
  {| id := id p; pid := pid p; command := command p; status := status p;
     exitCode := exitCode p; terminationSignal := terminationSignal p;
     outputBuffer := outputBuffer p; lastReadIndex := lastReadIndex p;
     startTime := startTime p; endTime := Some v; handle := handle p;
     abortController := abortController p;
     memoryUsage := memoryUsage p; fileDescriptors := fileDescriptors p |}.

Definition set_abortController (v : AbortController) (p : BackgroundProcess) :=
  {| id := id p; pid := pid p; command := command p; status := status p;
     exitCode := exitCode p; terminationSignal := terminationSignal p;
     outputBuffer := outputBuffer p; lastReadIndex := lastReadIndex p;
     startTime := startTime p; endTime := endTime p; handle := handle p;
     abortController := Some v;
     memoryUsage := memoryUsage p; fileDescriptors := fileDescriptors p |}.

(** The instance fields of [BackgroundProcessService].  A pending cleanup
    timer is kept as the time at which it is due; clearing a timer
    removes it, so a cleared timer cannot fire. *)
Record Service := {
  processes : gmap string BackgroundProcess;
  MAX_BUFFER_LINES : Z;
  CLEANUP_TIMEOUT_MS : Z;
  cleanupTimers : gmap string Z;
}.

Definition set_processes (v : gmap string BackgroundProcess) (s : Service) :=
  {| processes := v; MAX_BUFFER_LINES := MAX_BUFFER_LINES s;
     CLEANUP_TIMEOUT_MS := CLEANUP_TIMEOUT_MS s;
     cleanupTimers := cleanupTimers s |}.

Definition set_cleanupTimers (v : gmap string Z) (s : Service) :=
  {| processes := processes s; MAX_BUFFER_LINES := MAX_BUFFER_LINES s;
     CLEANUP_TIMEOUT_MS := CLEANUP_TIMEOUT_MS s;
     cleanupTimers := v |}.

(** [getInstance()] on first use: the field initialisers. *)
Definition getInstance : Service :=
  {| processes := ∅; MAX_BUFFER_LINES := 10000;
     CLEANUP_TIMEOUT_MS := 30 * 60 * 1000; cleanupTimers := ∅ |}.

(** The same service built with another buffer limit, as a test does. *)
Definition with_limit (limit : Z) : Service :=
  {| processes := ∅; MAX_BUFFER_LINES := limit;
     CLEANUP_TIMEOUT_MS := 30 * 60 * 1000; cleanupTimers := ∅ |}.

(** [generateId]; [timestamp] is [Date.now()] and [random] is
    [Math.random().toString(36).substring(2, 8)]. *)
Definition generateId (timestamp : Z) (random : string) : string :=
  "bash_" +:+ Js.num timestamp +:+ "_" +:+ random.

(** [this.processes.set(id, process)] *)
Definition store (id : string) (p : BackgroundProcess) (s : Service) :=
  set_processes (<[id := p]> (processes s)) s.

(** [registerProcess]; [now] is [new Date()]. *)
Definition registerProcess (s : Service) (id : string) (pid : option Z)
    (command : string) (handle : option ShellExecutionHandle)
    (abortController : option AbortController) (now : Z) : Service :=
  store id
    {| id := id; pid := pid; command := command; status := running;
       exitCode := exit_undefined; terminationSignal := None;
       outputBuffer := []; lastReadIndex := ∅;
       startTime := now; endTime := None;
       handle := handle; abortController := abortController;
       memoryUsage := None; fileDescriptors := None |} s.

(** [output.split('\n').filter(line => line.length > 0)] *)
Definition lines_of (output : string) : list string :=
  List.filter Js.nonempty (Js.split Js.LF output).

(** [addOutput], as it returns.  (The call of [push] throws when it is
    handed more lines than fit into one call; what the service is left
    with then is [Throwing.addOutput_host].) *)
Definition addOutput (s : Service) (id : string) (output : string) : Service :=
  match processes s !! id with
  | None => s
  | Some process =>
      let buffer := outputBuffer process ++ lines_of output in
      if MAX_BUFFER_LINES s <? Js.length buffer then
        let overflow := Js.length buffer - MAX_BUFFER_LINES s in
        store id
          (set_lastReadIndex
             ((λ index, Z.max 0 (index - overflow)) <$> lastReadIndex process)
             (set_outputBuffer (Js.splice0 overflow buffer) process)) s
      else store id (set_outputBuffer buffer process) s
  end.

(** The object [getNewOutput] returns. *)
Record PollResult := {
  output : list string;
  poll_status : string;
  poll_exitCode : ExitCode;
  error : option string;
}.

(** [new RegExp(filter)] either throws (a [SyntaxError], [None]) or
    gives a regular expression, of which only [regex.test(line)] is used.
    The regular-expression engine is the host's; it is a parameter. *)
Section polling.
Variable RegExp : string → option (string → bool).

(** [getNewOutput]; an omitted [consumerId] is ['default'] at the
    caller, and [if (filter)] skips an empty pattern. *)
Definition getNewOutput (s : Service) (id : string) (consumerId : string)
    (filter : option string) : PollResult * Service :=
  match processes s !! id with
  | None =>
      ({| output := []; poll_status := "not_found";
          poll_exitCode := exit_undefined;
          error := Some ("No background process found with ID: " +:+ id) |},
       s)
  | Some process =>
      let lastIndex := Js.or_number (lastReadIndex process !! consumerId) 0 in
      let newLines := Js.slice lastIndex (outputBuffer process) in
      let advance (lines : list string) :=
        ({| output := lines; poll_status := status_string (status process);
            poll_exitCode := exitCode process; error := None |},
         store id
           (set_lastReadIndex
              (<[consumerId := Js.length (outputBuffer process)]>
                 (lastReadIndex process)) process) s) in
      match filter with
      | Some pattern =>
          if Js.nonempty pattern then
            match RegExp pattern with
            | Some regex => advance (List.filter regex newLines)
            | None =>
                ({| output := [];
                    poll_status := status_string (status process);
                    poll_exitCode := exitCode process;
                    error := Some ("Invalid regex filter: " +:+ pattern) |},
                 s)
            end
          else advance newLines
      | None => advance newLines
      end
  end.
End polling.

(** [scheduleCleanup]: the timer of the id, if any, is cleared and a new
    one is due [CLEANUP_TIMEOUT_MS] from [now]. *)
Definition scheduleCleanup (s : Service) (id : string) (now : Z) : Service :=
  set_cleanupTimers (<[id := now + CLEANUP_TIMEOUT_MS s]> (cleanupTimers s)) s.

(** The callback of the cleanup timer of [id]; it runs only if the timer
    is still pending. *)
Definition cleanup (s : Service) (id : string) : Service :=
  match cleanupTimers s !! id with
  | Some _ =>
      set_cleanupTimers (delete id (cleanupTimers s))
        (set_processes (delete id (processes s)) s)
  | None => s
  end.

(** [markProcessCompleted] *)
Definition markProcessCompleted (s : Service) (id : string)
    (code : option Z) (now : Z) : Service :=
  match processes s !! id with
  | None => s
  | Some process =>
      scheduleCleanup
        (store id
           (set_endTime now
              (set_exitCode
                 (match code with Some n => exit_number n | None => exit_null end)
                 (set_status completed process))) s)
        id now
  end.

(** [markProcessTerminated] *)
Definition markProcessTerminated (s : Service) (id : string)
    (signal : string) (now : Z) : Service :=
  match processes s !! id with
  | None => s
  | Some process =>
      scheduleCleanup
        (store id
           (set_endTime now
              (set_terminationSignal signal
                 (set_status terminated process))) s)
        id now
  end.

(** [markProcessFailed], as it returns; [message] is [error.message] as
    the template of the failure line prints it.  (What is left when the
    method throws is [Throwing.failed_unreported].) *)
Definition markProcessFailed (s : Service) (id : string)
    (message : string) (now : Z) : Service :=
  match processes s !! id with
  | None => s
  | Some process =>
      scheduleCleanup
        (addOutput
           (store id (set_endTime now (set_status failed process)) s)
           id ("Process failed: " +:+ message))
        id now
  end.

(** [getProcess] *)
Definition getProcess (s : Service) (id : string) : option BackgroundProcess :=
  processes s !! id.

(** [clearAll] *)
Definition clearAll (s : Service) : Service :=
  set_processes ∅ (set_cleanupTimers ∅ s).

(** [n !== 1 ? 's' : ''] *)
Definition plural (n : Z) : string := if n =? 1 then "" else "s".

(** [formatRuntime(seconds)], on the milliseconds [ms = 1000 * seconds]:
    [Math.floor(seconds / 60)] is [ms / 60000] and
    [Math.floor(seconds % 60)] is [(ms rem 60000) / 1000]. *)
Definition formatRuntime (ms : Z) : string :=
  let minutes := ms / 60000 in
  let secs := Z.rem ms 60000 / 1000 in
  if 0 <? minutes then
    Js.num minutes +:+ " minute" +:+ plural minutes +:+ " "
      +:+ Js.num secs +:+ " second" +:+ plural secs
  else Js.num secs +:+ " second" +:+ plural secs.

(** [formatTimeDiff(date)] *)
Definition formatTimeDiff (now date : Z) : string :=
  let seconds := (now - date) / 1000 in
  if seconds <? 60 then
    Js.num seconds +:+ " second" +:+ plural seconds +:+ " ago"
  else
    let minutes := seconds / 60 in
    if minutes <? 60 then
      Js.num minutes +:+ " minute" +:+ plural minutes +:+ " ago"
    else
      let hours := minutes / 60 in
      Js.num hours +:+ " hour" +:+ plural hours +:+ " ago".

(** [Math.random()] gives a double in [[0, 1)]: the input [u / 2^53]
    with [0 <= u < 2^53]. *)
Definition random_range : Z := 2 ^ 53.
Definition valid_random (u : Z) : Prop := 0 ≤ u < random_range.

(** The product [Math.random() * k] is a double again: the double
    nearest to [u * k / 2^53], ties to even.  A double carries 53
    significant bits, so a numerator [n = u * k] of more bits is rounded
    to a multiple of [2^sh], [sh] being the bits in excess;
    [round_double n] is the numerator of the double, over [2^53]. *)
Definition round_double (n : Z) : Z :=
  let sh := Z.log2 n + 1 - 53 in
  if sh <=? 0 then n
  else
    let q := n / 2 ^ sh in
    let rest := n mod 2 ^ sh in
    let half := 2 ^ (sh - 1) in
    (if (half <? rest) || ((rest =? half) && Z.odd q) then q + 1 else q)
    * 2 ^ sh.

(** [Math.floor(Math.random() * k)] *)
Definition floor_random_times (u k : Z) : Z :=
  round_double (u * k) / random_range.

(** The object [killProcess] resolves to.  [runtime] is in milliseconds
    (the source divides by 1000 and reports seconds); an absent
    [exitCode] is [exit_undefined]. *)
Record KillResult := {
  success : bool;
  message : string;
  runtime : option Z;
  resourcesFreed : option (Z * Z);
  terminationMethod : option string;
  kill_exitCode : ExitCode;
}.

Definition kill_failure (msg : string) : KillResult :=
  {| success := false; message := msg; runtime := None;
     resourcesFreed := None; terminationMethod := None;
     kill_exitCode := exit_undefined |}.

(** [${process.pid || 'unknown'}] *)
Definition pid_or_unknown (pid : option Z) : string :=
  match pid with
  | Some n => if n =? 0 then "unknown" else Js.num n
  | None => "unknown"
  end.

(** [${process.exitCode ?? 'unknown'}] *)
Definition exitCode_or_unknown (c : ExitCode) : string :=
  match c with exit_number n => Js.num n | _ => "unknown" end.

(** The locals of a [killProcess] call that is suspended at its
    [await new Promise(resolve => setTimeout(resolve, 500))]. *)
Record KillPending := {
  kp_id : string;
  kp_process : BackgroundProcess;
  kp_runtime : Z;
  kp_memoryFreed : Z;
  kp_fileDescriptorsFreed : Z;
}.

(** [killProcess] from "Mark as terminated" to its [return]. *)
Definition kill_finish (s : Service) (k : KillPending)
    (method : string) (now : Z) : KillResult * Service :=
  ({| success := true;
      message :=
        "Process terminated successfully" +:+ String Js.LF "" +:+
        "  - Process ID: " +:+ pid_or_unknown (pid (kp_process k)) +:+ String Js.LF "" +:+
        "  - Status: Running â†’ Terminated" +:+ String Js.LF "" +:+
        "  - Runtime: " +:+ formatRuntime (kp_runtime k) +:+ String Js.LF "" +:+
        "  - Resources cleaned up: " +:+ Js.num (kp_memoryFreed k) +:+
        "MB memory, " +:+ Js.num (kp_fileDescriptorsFreed k) +:+ " file descriptors";
      runtime := Some (kp_runtime k);
      resourcesFreed := Some (kp_memoryFreed k, kp_fileDescriptorsFreed k);
      terminationMethod := Some method;
      kill_exitCode := exit_undefined |},
   markProcessTerminated s (kp_id k) method now).

(** Where a [killProcess] call stands when it first gives up control:
    it has returned, or it waits for the 500 ms grace window. *)
Inductive KillStep :=
| kill_returned (r : KillResult) (s : Service)
| kill_waiting (k : KillPending) (s : Service).

(** [killProcess] up to its [await]; [now] is the clock of this run and
    [u1], [u2] the two [Math.random()] results (read only when the
    tracked figure is falsy). *)
Definition killProcess_begin (s : Service) (id : string) (now u1 u2 : Z)
    : KillStep :=
  match processes s !! id with
  | None => kill_returned
              (kill_failure ("No background process found with ID: " +:+ id)) s
  | Some process =>
      match status process with
      | completed =>
          kill_returned
            {| success := false;
               message :=
                 "Process has already completed" +:+ String Js.LF "" +:+
                 "  - Exit Code: " +:+ exitCode_or_unknown (exitCode process)
                   +:+ String Js.LF "" +:+
                 "  - Completed: " +:+
                   match endTime process with
                   | Some t => formatTimeDiff now t
                   | None => "unknown"
                   end +:+ String Js.LF "" +:+
                 "  - Final Status: " +:+
                   (if decide (exitCode process = exit_number 0)
                    then "Success" else "Failed");
               runtime :=
                 Some (match endTime process with
                       | Some t => t - startTime process
                       | None => 0
                       end);
               resourcesFreed := None; terminationMethod := None;
               kill_exitCode := exitCode process |} s
      | failed =>
          kill_returned
            (kill_failure ("Process " +:+ id +:+ " has already failed")) s
      | terminated =>
          kill_returned
            (kill_failure ("Process " +:+ id +:+ " was already terminated")) s
      | running =>
          let k :=
            {| kp_id := id; kp_process := process;
               kp_runtime := now - startTime process;
               kp_memoryFreed :=
                 Js.or_number (memoryUsage process)
                   (floor_random_times u1 100 + 10);
               kp_fileDescriptorsFreed :=
                 Js.or_number (fileDescriptors process)
                   (floor_random_times u2 5 + 1) |} in
          match abortController process with
          | Some _ =>
              kill_waiting k
                (store id (set_abortController {| aborted := true |} process) s)
          | None =>
              let '(r, s') := kill_finish s k "SIGTERM" now in
              kill_returned r s'
          end
      end
  end.

(** [killProcess] from the end of the grace window. *)
Definition killProcess_resume (s : Service) (k : KillPending) (now : Z)
    : KillResult * Service :=
  let method :=
    match processes s !! kp_id k with
    | Some updatedProcess =>
        if decide (status updatedProcess = running)
        then "SIGKILL (forced)" else "SIGTERM"
    | None => "SIGTERM"
    end in
  kill_finish s k method now.

(** What can happen to the service: the calls of its public methods and
    the callbacks it has handed out (the two continuations on
    [handle.result], the cleanup timer, the two halves of [killProcess]). *)
Inductive Event :=
| ev_registerProcess (id : string) (pid : option Z) (command : string)
    (handle : option ShellExecutionHandle)
    (abortController : option AbortController) (now : Z)
| ev_addOutput (id : string) (output : string)
| ev_getNewOutput (id consumerId : string) (filter : option string)
| ev_result_resolved (id : string) (code : option Z) (now : Z)
| ev_result_rejected (id : string) (message : string) (now : Z)
| ev_kill_begin (id : string) (now u1 u2 : Z)
| ev_kill_resume (k : KillPending) (now : Z)
| ev_cleanup (id : string)
| ev_clearAll.

Section events.
Variable RegExp : string → option (string → bool).

Definition step (s : Service) (e : Event) : Service :=
  match e with
  | ev_registerProcess id pid command handle ac now =>
      registerProcess s id pid command handle ac now
  | ev_addOutput id output => addOutput s id output
  | ev_getNewOutput id consumerId filter =>
      (getNewOutput RegExp s id consumerId filter).2
  | ev_result_resolved id code now => markProcessCompleted s id code now
  | ev_result_rejected id msg now => markProcessFailed s id msg now
  | ev_kill_begin id now u1 u2 =>
      match killProcess_begin s id now u1 u2 with
      | kill_returned _ s' => s'
      | kill_waiting _ s' => s'
      end
  | ev_kill_resume k now => (killProcess_resume s k now).2
  | ev_cleanup id => cleanup s id
  | ev_clearAll => clearAll s
  end.

Definition run (s : Service) (es : list Event) : Service :=
  foldl step s es.

(** A whole [killProcess] call: [during] is what happens while the
    call waits for its grace window (nothing when the call does not
    wait), [later] the clock at the end of the window. *)
Definition killProcess (s : Service) (id : string) (now u1 u2 : Z)
    (during : list Event) (later : Z) : KillResult * Service :=
  match killProcess_begin s id now u1 u2 with
  | kill_returned r s' => (r, s')
  | kill_waiting k s' => killProcess_resume (run s' during) k later
  end.
End events.

End BPS.

(** ** shell.ts: [ShellToolInvocation.execute] *)

Module Shell.

Record ShellToolParams := {
  command : string;
  timeout : option Z;
  description : option string;
  run_in_background : option bool;
  sandbox : option bool;
  shellExecutable : option string;
  directory : option string;
}.

Record ToolResult := { llmContent : string; returnDisplay : string }.

(** [ShellOutputEvent], as the two callbacks of [execute] read it. *)
Inductive ShellOutputEvent :=
| data (chunk : string)
| binary_detected
| binary_progress (bytesReceived : Z).

(** The fields of the engine's result that [execute] reads;
    [error] is [result.error.message]. *)
Record ShellExecutionResult := {
  output : string;
  exitCode : option Z;
  signal : option Z;
  error : option string;
  aborted : bool;
  pid : option Z;
}.

(** A promise once awaited. *)
Inductive Settled (A : Type) :=
| resolved (a : A)
| rejected (reason : string).
Arguments resolved {A} a.
Arguments rejected {A} reason.

(** Functions of the host and of modules that are not part of this
    development, used by [execute] on strings and paths. *)
Record Host := {
  stripShellWrapper : string → string;
  trim : string → string;
  endsWith : string → string → bool;
  replace : string → string → string → string;
  path_resolve : string → string → string;
  path_join : string → string → string;
  formatMemoryUsage : Z → string;
  getErrorMessage : string → string;
  Number : string → option Z;
}.

(** What [execute] reads of [this.config]; [summarize] is the token
    budget of [getSummarizeToolOutputConfig()[ShellTool.Name]]. *)
Record Config := {
  targetDir : string;
  debugMode : bool;
  shouldUseNodePtyShell : bool;
  summarize : option Z;
}.

(** Which abort signal a call of the engine is given. *)
Inductive SignalRef :=
| caller_signal | timeout_signal | process_signal (bashId : string).

(** The calls [execute] makes to the outside, in the order made.
    [engine_execute] is [ShellExecutionService.execute], the only place
    where an OS process is spawned. *)
Inductive Effect :=
| console_warn (msg : string)
| console_error (msg : string)
| setTimeout (ms : Z)
| clearTimeout
| addAbortListener
| removeAbortListener
| engine_execute (commandToExecute cwd : string) (sig : SignalRef)
| unlink (path : string)
| summarizeToolOutput (content : string) (tokenBudget : Z).

Definition spawns (e : Effect) : bool :=
  match e with engine_execute _ _ _ => true | _ => false end.

(** What the outside answers during one call of [execute]:
    [signal_aborted] is [signal.aborted] as the call is entered;
    [randomBytes_hex] names the pgrep file; [now] and [random_base36] are
    the clock and the random text of [generateId], [registered_at] the
    clock at registration; [engine_handle] is the pid of the handle the
    engine gives, or its failure, and [result] the settled result promise;
    [timer_fired] says whether the timeout callback ran before the result
    arrived and [signal_aborted_later] whether the caller aborted while
    the command ran; [tempFile] is the content of the pgrep file if the
    file exists; [summary] is the answer of the summarizer. *)
Record Oracle := {
  platform : string;
  signal_aborted : bool;
  randomBytes_hex : string;
  tmpdir : string;
  now : Z;
  random_base36 : string;
  registered_at : Z;
  engine_handle : Settled (option Z);
  result : Settled ShellExecutionResult;
  timer_fired : bool;
  signal_aborted_later : bool;
  tempFile : option string;
  summary : Settled string;
}.

Inductive Outcome := returned (r : ToolResult) | threw (reason : string).

(** [this.params.timeout || 120000], capped by [maxTimeout]. *)
Definition effectiveTimeout (params : ShellToolParams) : Z :=
  Z.min (Js.or_number (timeout params) 120000) 600000.

Definition is_true (b : option bool) : bool :=
  match b with Some true => true | _ => false end.

(** [s || d] on strings. *)
Definition or_string (s d : string) : string :=
  if Js.nonempty s then s else d.

Definition NL : string := String Js.LF "".

(** The double quote. *)
Definition DQ : string := String "034"%char "".

(** [/^\d+$/.test(line)] *)
Definition is_digit (c : ascii) : bool :=
  let n := nat_of_ascii c in (48 <=? n)%nat && (n <=? 57)%nat.

Fixpoint all_digits (s : string) : bool :=
  match s with
  | EmptyString => true
  | String c rest => is_digit c && all_digits rest
  end.

Definition is_digits (s : string) : bool := Js.nonempty s && all_digits s.

(** The text the background callback hands to [addOutput]. *)
Definition background_text (h : Host) (event : ShellOutputEvent) : string :=
  match event with
  | data chunk => chunk
  | binary_detected => "[Binary output detected]"
  | binary_progress bytesReceived =>
      "[Binary output: " +:+ formatMemoryUsage h bytesReceived +:+ " received]"
  end.

(** The output callback of a background launch: [service.addOutput]
    on the shared service, for the launch's [bashId]. *)
Definition background_callback (h : Host) (bashId : string)
    (event : ShellOutputEvent) (service : BPS.Service) : BPS.Service :=
  BPS.addOutput service bashId (background_text h event).

(** The background branch after its [await]: registration. *)
Definition background_register (params : ShellToolParams) (bashId : string)
    (pid : option Z) (now : Z) (service : BPS.Service) : BPS.Service :=
  BPS.registerProcess service bashId pid (command params)
    (Some {| BPS.handle_pid := pid |}) (Some {| BPS.aborted := false |}) now.

Definition pid_string (pid : option Z) : string :=
  match pid with Some n => Js.num n | None => "undefined" end.

Definition background_result (params : ShellToolParams) (bashId : string)
    (pid : option Z) : ToolResult :=
  {| llmContent :=
       "Started background process with ID: " +:+ bashId +:+ NL +:+
       "PID: " +:+ pid_string pid +:+ NL +:+
       "Command: " +:+ command params +:+ NL +:+ NL +:+
       "Use BashOutput tool with bash_id="
         +:+ DQ +:+ bashId +:+ DQ +:+ " to monitor the output." +:+ NL +:+
       "Use KillBash tool with bash_id="
         +:+ DQ +:+ bashId +:+ DQ +:+ " to terminate the process.";
     returnDisplay :=
       "Background process started (ID: " +:+ bashId +:+ ", PID: "
         +:+ pid_string pid +:+ ")" |}.

(** The result of the timeout path. *)
Definition timeout_result (params : ShellToolParams)
    (r : ShellExecutionResult) : ToolResult :=
  {| llmContent :=
       "Command exceeded timeout of " +:+ Js.num (effectiveTimeout params)
         +:+ "ms and was terminated." +:+ NL +:+ "Partial output:" +:+ NL
         +:+ or_string (output r) "(no output before timeout)";
     returnDisplay :=
       "Command timed out after " +:+ Js.num (effectiveTimeout params) +:+ "ms" |}.

(** The result when the caller's signal is aborted on entry. *)
Definition cancelled_before_start : ToolResult :=
  {| llmContent := "Command was cancelled by user before it could start.";
     returnDisplay := "Command cancelled by user." |}.

(** The pids read back from the pgrep file: [None] is [NaN]. *)
Definition backgroundPIDs (h : Host) (content : string)
    (r : ShellExecutionResult) : list (option Z) :=
  List.filter (λ p, negb (bool_decide (p = pid r ∧ is_Some p)))
    (Number h <$> List.filter Js.nonempty (Js.split Js.LF content)).

Definition number_string (n : option Z) : string :=
  match n with Some n => Js.num n | None => "NaN" end.

(** Truthiness of [result.signal]. *)
Definition truthy_number (n : option Z) : bool :=
  match n with Some n => negb (n =? 0) | None => false end.

(** [llmContent] of a run that was not reported as a timeout. *)
Definition report_llmContent (h : Host) (params : ShellToolParams)
    (commandToExecute : string) (pids : list (option Z))
    (r : ShellExecutionResult) : string :=
  if aborted r then
    "Command was cancelled by user before it could complete." +:+
    (if Js.nonempty (trim h (output r))
     then " Below is the output before it was cancelled:" +:+ NL +:+ output r
     else " There was no output before it was cancelled.")
  else
    Js.join NL
      [ "Command: " +:+ command params;
        "Directory: " +:+ or_string (default "" (directory params)) "(root)";
        "Output: " +:+ or_string (output r) "(empty)";
        "Error: " +:+
          match error r with
          | Some msg => replace h msg commandToExecute (command params)
          | None => "(none)"
          end;
        "Exit Code: " +:+
          match exitCode r with Some n => Js.num n | None => "(none)" end;
        "Signal: " +:+
          match signal r with Some n => Js.num n | None => "(none)" end;
        "Background PIDs: " +:+
          match pids with
          | [] => "(none)"
          | _ => Js.join ", " (number_string <$> pids)
          end;
        "Process Group PGID: " +:+
          match pid r with Some n => Js.num n | None => "(none)" end ].

(** [returnDisplay] of such a run. *)
Definition report_returnDisplay (h : Host) (config : Config)
    (llm : string) (r : ShellExecutionResult) : string :=
  if debugMode config then llm
  else if Js.nonempty (trim h (output r)) then output r
  else if aborted r then "Command cancelled by user."
  else if truthy_number (signal r) then
    "Command terminated by signal: " +:+ number_string (signal r)
  else
    match error r, exitCode r with
    | Some msg, _ => "Command failed: " +:+ getErrorMessage h msg
    | None, Some c =>
        if c =? 0 then "" else "Command exited with code: " +:+ Js.num c
    | None, None => ""
    end.

(** [execute].  The result is the calls made to the outside, what the
    call returns or throws, and the service it leaves.  The display
    callback [updateOutput] is not part of the model; the output
    callback of a background launch is [background_callback]. *)
Definition execute (h : Host) (config : Config) (params : ShellToolParams)
    (o : Oracle) (service : BPS.Service) : list Effect * Outcome * BPS.Service :=
  let background := is_true (run_in_background params) in
  let unix := negb (String.eqb (platform o) "win32") in
  let entry :=
    (if is_true (sandbox params) && unix
     then [console_warn "Sandbox mode requested but not fully implemented - command will run with normal permissions"]
     else []) ++
    (if background then [] else [setTimeout (effectiveTimeout params)]) ++
    (if signal_aborted o then [] else [addAbortListener]) in
  let strippedCommand := stripShellWrapper h (command params) in
  if signal_aborted o then
    (entry, returned cancelled_before_start, service)
  else
    let tempFilePath :=
      path_join h (tmpdir o) ("shell_pgrep_" +:+ randomBytes_hex o +:+ ".tmp") in
    let commandToExecute :=
      if unix then
        let command := trim h strippedCommand in
        let command := if endsWith h command "&" then command else command +:+ ";" in
        "{ " +:+ command +:+ " }; __code=$?; pgrep -g 0 >" +:+ tempFilePath
          +:+ " 2>&1; exit $__code;"
      else strippedCommand in
    let cwd := path_resolve h (targetDir config) (default "" (directory params)) in
    let cleanup := match tempFile o with Some _ => [unlink tempFilePath] | None => [] end in
    let caught :=
      (if background then [] else [clearTimeout]) ++ [removeAbortListener] in
    if background then
      let bashId := BPS.generateId (now o) (random_base36 o) in
      let spawn := [engine_execute commandToExecute cwd (process_signal bashId)] in
      match engine_handle o with
      | rejected reason =>
          (entry ++ spawn ++ caught ++ cleanup, threw reason, service)
      | resolved pid =>
          (entry ++ spawn ++ [removeAbortListener] ++ cleanup,
           returned (background_result params bashId pid),
           background_register params bashId pid (registered_at o) service)
      end
    else
      let spawn :=
        [engine_execute commandToExecute cwd
           (if signal_aborted o then caller_signal else timeout_signal)] in
      match engine_handle o, result o with
      | rejected reason, _ | resolved _, rejected reason =>
          (entry ++ spawn ++ caught ++ cleanup, threw reason, service)
      | resolved _, resolved r =>
          let settled := [clearTimeout; removeAbortListener] in
          let timeout_aborted := timer_fired o || signal_aborted_later o in
          if timeout_aborted && negb (signal_aborted_later o) then
            (entry ++ spawn ++ settled ++ cleanup,
             returned (timeout_result params r), service)
          else
            let pids :=
              if unix then
                match tempFile o with
                | Some content => backgroundPIDs h content r
                | None => []
                end
              else [] in
            let diagnostics :=
              if unix then
                match tempFile o with
                | Some content =>
                    (λ line, console_error ("pgrep: " +:+ line)) <$>
                      List.filter (λ line, negb (is_digits line))
                        (List.filter Js.nonempty (Js.split Js.LF content))
                | None =>
                    if signal_aborted_later o then []
                    else [console_error "missing pgrep output"]
                end
              else [] in
            let llm := report_llmContent h params commandToExecute pids r in
            let display := report_returnDisplay h config llm r in
            match summarize config with
            | Some budget =>
                match summary o with
                | resolved text =>
                    (entry ++ spawn ++ settled ++ diagnostics
                       ++ [summarizeToolOutput llm budget] ++ cleanup,
                     returned {| llmContent := text; returnDisplay := display |},
                     service)
                | rejected reason =>
                    (entry ++ spawn ++ settled ++ diagnostics
                       ++ [summarizeToolOutput llm budget] ++ caught ++ cleanup,
                     threw reason, service)
                end
            | None =>
                (entry ++ spawn ++ settled ++ diagnostics ++ cleanup,
                 returned {| llmContent := llm; returnDisplay := display |},
                 service)
            end
      end.

End Shell.

(** ** Calls that throw *)

Module Throwing.
Import BPS.

(** [BPS.addOutput] and [BPS.markProcessFailed] give what the two
    methods leave when they return.  Two of their statements can throw,
    and what they leave then is written out here.

    [process.outputBuffer.push(...lines)] passes every line as an
    argument of its own, and the engine refuses a call with more
    arguments than it has room for: a [RangeError], thrown before [push]
    has run, so that buffer and offsets are as they were.  [room] is the
    number of arguments the engine accepts (of the order of 10^5; it
    depends on the engine and on the stack that is left).  The statement
    is reached only for a registered id. *)
Definition addOutput_throws (room : Z) (s : Service) (id output : string)
    : bool :=
  match processes s !! id with
  | Some _ => room <? Js.length (lines_of output)
  | None => false
  end.

(** [addOutput] with its exception: [None] is the [RangeError], which
    leaves the service as it was. *)
Definition addOutput_host (room : Z) (s : Service) (id output : string)
    : option Service :=
  if addOutput_throws room s id output then None
  else Some (addOutput s id output).

(** A run of [addOutput] calls for one id, up to the first that throws. *)
Fixpoint appendAll_host (room : Z) (s : Service) (id : string)
    (outputs : list string) : option Service :=
  match outputs with
  | [] => Some s
  | output :: rest =>
      match addOutput_host room s id output with
      | Some s' => appendAll_host room s' id rest
      | None => None
      end
  end.

(** What [markProcessFailed] leaves when it throws: status and end time
    are written (lines 385-386), the failure line and the cleanup timer
    (lines 389 and 392) are not. *)
Definition failed_unreported (s : Service) (id : string) (now : Z) : Service :=
  match processes s !! id with
  | None => s
  | Some process => store id (set_endTime now (set_status failed process)) s
  end.

(** What can happen to the service, exceptions included: an event of
    [BPS.Event], whose [addOutput] call throws when the lines do not fit
    into a call; or the promise of the result is rejected with a reason of
    which the failure line cannot be made, because reading [message] off
    it throws (a [TypeError] for [undefined] or [null]). *)
Inductive Happening :=
| happens (e : Event)
| rejected_without_message (id : string) (now : Z).

(** The service after a happening, whether the call returned or threw. *)
Definition step_host (RegExp : string → option (string → bool)) (room : Z)
    (s : Service) (happening : Happening) : Service :=
  match happening with
  | happens (ev_addOutput id output) =>
      match addOutput_host room s id output with
      | Some s' => s'
      | None => s
      end
  | happens (ev_result_rejected id message now) =>
      if addOutput_throws room s id ("Process failed: " +:+ message)
      then failed_unreported s id now
      else markProcessFailed s id message now
  | happens e => step RegExp s e
  | rejected_without_message id now => failed_unreported s id now
  end.

Definition run_host (RegExp : string → option (string → bool)) (room : Z)
    (s : Service) (happenings : list Happening) : Service :=
  foldl (step_host RegExp room) s happenings.

(** The happening is not a rejection whose failure report throws. *)
Definition failure_reported (room : Z) (happening : Happening) : bool :=
  match happening with
  | happens (ev_result_rejected _ message _) =>
      Js.length (lines_of ("Process failed: " +:+ message)) <=? room
  | happens _ => true
  | rejected_without_message _ _ => false
  end.

(** [cleanup_scheduled] without the timer of the failed records: a
    record that is not running has an end time; unless it is failed, its
    cleanup is due [CLEANUP_TIMEOUT_MS] later; a timer is pending only
    for a registered id. *)
Definition cleanup_scheduled_unless_failed (s : Service) : Prop :=
  (∀ id process,
     processes s !! id = Some process → status process ≠ running →
     ∃ ended, endTime process = Some ended ∧
              (status process ≠ failed →
               cleanupTimers s !! id = Some (ended + CLEANUP_TIMEOUT_MS s))) ∧
  (∀ id due, cleanupTimers s !! id = Some due → is_Some (processes s !! id)).

(** A life that ends in a rejection without a message. *)
Definition sample_failure : list Happening :=
  [ happens (ev_registerProcess "bash_1" (Some 4242) "make" None None 0);
    happens (ev_addOutput "bash_1" "one");
    rejected_without_message "bash_1" 60000 ].

(** The output callback of a background launch, with the exception of
    its [addOutput] call: the call that throws leaves the service as it
    was. *)
Definition background_callback_host (room : Z) (h : Shell.Host)
    (bashId : string) (event : Shell.ShellOutputEvent) (s : Service)
    : Service :=
  match addOutput_host room s bashId (Shell.background_text h event) with
  | Some s' => s'
  | None => s
  end.

End Throwing.

(** ** A background launch and the events that follow it *)

Module Launch.
Import Shell.

(** What a buffer limited to [limit] lines keeps of [lines]. *)
Definition kept (limit : Z) (lines : list string) : list string :=
  Js.splice0 (Js.length lines - limit) lines.

(** Modelled from the spec: [ShellExecutionService.execute] is not part
    of the sources at hand, so when it calls the output callback it is
    given cannot be read off them.  Section 5 of the specification counts
    awaiting the spawn among the points where control yields, and what
    runs at such a point is a callback (I/O completion, timers); so the
    callback may be called while [execute] still awaits the engine call,
    as well as after the call has returned.

    A background launch together with the output events of its process:
    the callback is wired to the launch's [bashId] and handed to the
    engine (shell.ts lines 218-250); [early] are the events the engine
    hands to it while [execute] awaits the engine call, before the
    registration that follows the [await] (line 259); [late] are the
    events it is handed afterwards; [room] is the number of lines a call
    of the callback can hand to [push]. *)
Definition launch (room : Z) (h : Host) (config : Config)
    (params : ShellToolParams) (o : Oracle) (service : BPS.Service)
    (early late : list ShellOutputEvent)
    : list Effect * Outcome * BPS.Service :=
  let bashId := BPS.generateId (now o) (random_base36 o) in
  let deliver :=
    λ s event, Throwing.background_callback_host room h bashId event s in
  let '(effects, outcome, launched) :=
    execute h config params o (foldl deliver service early) in
  (effects, outcome, foldl deliver launched late).

End Launch.

(** ** Vocabulary of the properties *)

Module Props.
Import BPS.

(** A run of [addOutput] calls on one id. *)
Definition appendAll (s : Service) (id : string) (outputs : list string)
    : Service :=
  foldl (λ s output, addOutput s id output) s outputs.

(** The lines a run of [addOutput] calls hands to the buffer. *)
Definition lines_of_all (outputs : list string) : list string :=
  concat (lines_of <$> outputs).

(** The read offset of a consumer of a process. *)
Definition offset_of (s : Service) (id consumerId : string) : option Z :=
  processes s !! id ≫= λ process, lastReadIndex process !! consumerId.

Definition buffer_of (s : Service) (id : string) : option (list string) :=
  outputBuffer <$> processes s !! id.

Definition status_of (s : Service) (id : string) : option Status :=
  status <$> processes s !! id.

(** No read offset of any consumer is negative. *)
Definition offsets_nonneg (s : Service) : Prop :=
  ∀ id process consumerId index,
    processes s !! id = Some process →
    lastReadIndex process !! consumerId = Some index → 0 ≤ index.

(** The event removes the record of [id] from the registry. *)
Definition evicts (id : string) (e : Event) : bool :=
  match e with
  | ev_cleanup id' => bool_decide (id' = id)
  | ev_clearAll => true
  | _ => false
  end.

(** The event registers a new record under [id]. *)
Definition registers (id : string) (e : Event) : bool :=
  match e with
  | ev_registerProcess id' _ _ _ _ _ => bool_decide (id' = id)
  | _ => false
  end.

(** The event is the settlement of the result promise of [id]: one of
    the two continuations [registerProcess] attached to it. *)
Definition settles (id : string) (e : Event) : bool :=
  match e with
  | ev_result_resolved id' _ _ | ev_result_rejected id' _ _ =>
      bool_decide (id' = id)
  | _ => false
  end.

(** The record [addOutput] leaves for a registered process. *)
Definition appended (limit : Z) (output : string)
    (process : BackgroundProcess) : BackgroundProcess :=
  let buffer := outputBuffer process ++ lines_of output in
  if limit <? Js.length buffer then
    set_lastReadIndex
      ((λ index, Z.max 0 (index - (Js.length buffer - limit)))
         <$> lastReadIndex process)
      (set_outputBuffer (Js.splice0 (Js.length buffer - limit) buffer) process)
  else set_outputBuffer buffer process.

(** The record a poll that advances leaves. *)
Definition polled (consumerId : string) (process : BackgroundProcess)
    : BackgroundProcess :=
  set_lastReadIndex
    (<[consumerId := Js.length (outputBuffer process)]> (lastReadIndex process))
    process.

(** The records the three [markProcess...] methods leave. *)
Definition marked_completed (code : option Z) (now : Z)
    (process : BackgroundProcess) : BackgroundProcess :=
  set_endTime now
    (set_exitCode (match code with Some n => exit_number n | None => exit_null end)
       (set_status completed process)).

Definition marked_failed (limit : Z) (message : string) (now : Z)
    (process : BackgroundProcess) : BackgroundProcess :=
  appended limit ("Process failed: " +:+ message)
    (set_endTime now (set_status failed process)).

Definition marked_terminated (signal : string) (now : Z)
    (process : BackgroundProcess) : BackgroundProcess :=
  set_endTime now (set_terminationSignal signal (set_status terminated process)).

(** The record after [process.abortController.abort()]. *)
Definition abort_sent (process : BackgroundProcess) : BackgroundProcess :=
  set_abortController {| aborted := true |} process.

(** What an event can do to the record of [id] when the record stays
    in the registry. *)
Inductive Change (limit : Z) (id : string)
  : Event → BackgroundProcess → BackgroundProcess → Prop :=
| change_none e process : Change limit id e process process
| change_appended output process :
    Change limit id (ev_addOutput id output) process
      (appended limit output process)
| change_polled consumerId filter process :
    Change limit id (ev_getNewOutput id consumerId filter) process
      (polled consumerId process)
| change_completed code now process :
    Change limit id (ev_result_resolved id code now) process
      (marked_completed code now process)
| change_failed message now process :
    Change limit id (ev_result_rejected id message now) process
      (marked_failed limit message now process)
| change_abort_sent now u1 u2 process :
    status process = running →
    Change limit id (ev_kill_begin id now u1 u2) process (abort_sent process)
| change_killed now u1 u2 process :
    status process = running →
    Change limit id (ev_kill_begin id now u1 u2) process
      (marked_terminated "SIGTERM" now process)
| change_kill_resumed k now signal process :
    kp_id k = id →
    Change limit id (ev_kill_resume k now) process
      (marked_terminated signal now process).

(** A stand-in for the host's regular expressions, enough to run the
    functions on examples: a pattern with an unclosed parenthesis does
    not compile; any other pattern matches the lines that contain it. *)
Fixpoint balance (depth : nat) (s : string) : bool :=
  match s with
  | EmptyString => bool_decide (depth = 0%nat)
  | String c rest =>
      if Ascii.eqb c "("%char then balance (S depth) rest
      else if Ascii.eqb c ")"%char then
        match depth with O => false | S d => balance d rest end
      else balance depth rest
  end.

Fixpoint prefix_of (p s : string) : bool :=
  match p, s with
  | EmptyString, _ => true
  | String a p', String b s' => Ascii.eqb a b && prefix_of p' s'
  | String _ _, EmptyString => false
  end.

Fixpoint contains (p s : string) : bool :=
  prefix_of p s ||
  match s with
  | EmptyString => false
  | String _ s' => contains p s'
  end.

Definition toyRegExp (pattern : string) : option (string → bool) :=
  if balance 0 pattern then Some (contains pattern) else None.

(** The eviction scenario of the specification: a limit of three lines,
    five lines appended one at a time, a consumer that polls after the
    second. *)
(** The locals of a [killProcess] call on a running process. *)
Definition kill_locals (id : string) (process : BackgroundProcess)
    (now u1 u2 : Z) : KillPending :=
  {| kp_id := id; kp_process := process;
     kp_runtime := now - startTime process;
     kp_memoryFreed :=
       Js.or_number (memoryUsage process) (floor_random_times u1 100 + 10);
     kp_fileDescriptorsFreed :=
       Js.or_number (fileDescriptors process) (floor_random_times u2 5 + 1) |}.

(** A registered, running process with a handle and an abort
    controller, and a service that holds just it. *)
Definition sample_process : BackgroundProcess :=
  {| id := "bash_1"; pid := Some 4242; command := "sleep 600";
     status := running; exitCode := exit_undefined;
     terminationSignal := None; outputBuffer := []; lastReadIndex := ∅;
     startTime := 1000; endTime := None;
     handle := Some {| handle_pid := Some 4242 |};
     abortController := Some {| aborted := false |};
     memoryUsage := None; fileDescriptors := None |}.

Definition sample_service : Service :=
  registerProcess getInstance "bash_1" (Some 4242) "sleep 600"
    (Some {| handle_pid := Some 4242 |}) (Some {| aborted := false |}) 1000.

(** Stand-ins for the host functions and the inputs of [execute]. *)
Definition toyHost : Shell.Host :=
  {| Shell.stripShellWrapper := λ c, c;
     Shell.trim := λ c, c;
     Shell.endsWith := λ _ _, false;
     Shell.replace := λ text _ _, text;
     Shell.path_resolve := λ a b, a +:+ "/" +:+ b;
     Shell.path_join := λ a b, a +:+ "/" +:+ b;
     Shell.formatMemoryUsage := λ n, Js.num n +:+ " B";
     Shell.getErrorMessage := λ m, m;
     Shell.Number := λ _, None |}.

Definition sample_config : Shell.Config :=
  {| Shell.targetDir := "/work"; Shell.debugMode := false;
     Shell.shouldUseNodePtyShell := false; Shell.summarize := None |}.

Definition sample_params : Shell.ShellToolParams :=
  {| Shell.command := "sleep 30"; Shell.timeout := Some 10;
     Shell.description := None; Shell.run_in_background := None;
     Shell.sandbox := None; Shell.shellExecutable := None;
     Shell.directory := None |}.

Definition sample_result : Shell.ShellExecutionResult :=
  {| Shell.output := ""; Shell.exitCode := None; Shell.signal := Some 15;
     Shell.error := None; Shell.aborted := true; Shell.pid := Some 4242 |}.

Definition sample_oracle (aborted_on_entry timer later : bool) : Shell.Oracle :=
  {| Shell.platform := "linux"; Shell.signal_aborted := aborted_on_entry;
     Shell.randomBytes_hex := "0a1b2c3d4e5f"; Shell.tmpdir := "/tmp";
     Shell.now := 1700000000000; Shell.random_base36 := "k3x9qz";
     Shell.registered_at := 1700000000003;
     Shell.engine_handle := Shell.resolved (Some 4242);
     Shell.result := Shell.resolved sample_result;
     Shell.timer_fired := timer; Shell.signal_aborted_later := later;
     Shell.tempFile := None; Shell.summary := Shell.rejected "unused" |}.

Definition scenario_start : Service :=
  registerProcess (with_limit 3) "bash_1" (Some 4242) "make" None None 0.

Definition scenario_read : PollResult * Service :=
  getNewOutput toyRegExp
    (appendAll scenario_start "bash_1" ["line1"; "line2"]) "bash_1" "reader" None.

Definition scenario_after (n : nat) : Service :=
  appendAll scenario_read.2 "bash_1" (take n ["line3"; "line4"; "line5"]).

Definition scenario_poll : PollResult * Service :=
  getNewOutput toyRegExp (scenario_after 3) "bash_1" "reader" None.

End Props.

(** ** shell.ts: validation and confirmation *)

Module ShellTool.
Import Shell.

(** What [validateToolParamValues] and [shouldConfirmExecute] use of
    [shell-utils.js], [path] and the configuration, none of which is part
    of this development: [isCommandAllowed] gives [{allowed, reason}],
    [workspaceDirs] is [getWorkspaceContext().getDirectories()]. *)
Record Policy := {
  isCommandAllowed : string → bool * option string;
  getCommandRoots : string → list string;
  isAbsolute : string → bool;
  basename : string → string;
  workspaceDirs : list string;
}.

(** The first check that fails. *)
Fixpoint first_error (checks : list (option string)) : option string :=
  match checks with
  | [] => None
  | Some message :: _ => Some message
  | None :: rest => first_error rest
  end.

Definition check_allowed (p : Policy) (params : ShellToolParams)
    : option string :=
  let '(allowed, reason) := isCommandAllowed p (command params) in
  if allowed then None
  else
    match reason with
    | Some text =>
        if Js.nonempty text then Some text
        else Some ("Command is not allowed: " +:+ command params)
    | None => Some ("Command is not allowed: " +:+ command params)
    end.

Definition check_timeout (params : ShellToolParams) : option string :=
  match timeout params with
  | None => None
  | Some t =>
      if t <=? 0 then Some "Timeout must be a positive number."
      else if 600000 <? t then
        Some "Timeout cannot exceed 600000ms (10 minutes)."
      else None
  end.

Definition check_description (params : ShellToolParams) : option string :=
  match description params with
  | Some text =>
      if Js.nonempty text && (15 <? Js.length (Js.split " " text)) then
        Some "Description should be 5-10 words for clarity."
      else None
  | None => None
  end.

Definition check_directory (p : Policy) (params : ShellToolParams)
    : option string :=
  match directory params with
  | Some dir =>
      if Js.nonempty dir then
        if isAbsolute p dir then
          Some "Directory cannot be absolute. Please refer to workspace directories by their name."
        else
          let matchingDirs :=
            List.filter (λ d, String.eqb (basename p d) dir) (workspaceDirs p) in
          match matchingDirs with
          | [] =>
              Some ("Directory '" +:+ dir
                      +:+ "' is not a registered workspace directory.")
          | [_] => None
          | _ =>
              Some ("Directory name '" +:+ dir
                      +:+ "' is ambiguous as it matches multiple workspace directories.")
          end
      else None
  | None => None
  end.

(** [validateToolParamValues] of [ShellTool]: [None] is [null]. *)
Definition validateToolParamValues (h : Host) (p : Policy)
    (params : ShellToolParams) : option string :=
  first_error
    [ check_allowed p params;
      if Js.nonempty (trim h (command params)) then None
      else Some "Command cannot be empty.";
      match getCommandRoots p (command params) with
      | [] =>
          Some "Could not identify command root to obtain permission from user."
      | _ => None
      end;
      check_timeout params;
      check_description params;
      check_directory p params ].

(** [[...new Set(list)]]: the first occurrence of each element, in
    order. *)
Fixpoint unique_from (seen : list string) (l : list string) : list string :=
  match l with
  | [] => []
  | x :: rest =>
      if bool_decide (x ∈ seen) then unique_from seen rest
      else x :: unique_from (x :: seen) rest
  end.

Definition unique (l : list string) : list string := unique_from [] l.

(** [ToolConfirmationOutcome]: only [ProceedAlways] is told apart. *)
Inductive ToolConfirmationOutcome := ProceedAlways | AnotherOutcome.

(** [ToolExecuteConfirmationDetails]; [commandsToConfirm] is what the
    [onConfirm] closure holds. *)
Record ToolExecuteConfirmationDetails := {
  type : string;
  title : string;
  confirm_command : string;
  rootCommand : string;
  commandsToConfirm : list string;
}.

(** [shouldConfirmExecute]: [None] is [false]. *)
Definition shouldConfirmExecute (h : Host) (p : Policy)
    (params : ShellToolParams) (allowlist : gset string)
    : option ToolExecuteConfirmationDetails :=
  let command := stripShellWrapper h (command params) in
  let rootCommands := unique (getCommandRoots p command) in
  let commandsToConfirm :=
    List.filter (λ c, negb (bool_decide (c ∈ allowlist))) rootCommands in
  match commandsToConfirm with
  | [] => None
  | _ =>
      Some {| type := "exec"; title := "Confirm Shell Command";
              confirm_command := Shell.command params;
              rootCommand := Js.join ", " commandsToConfirm;
              commandsToConfirm := commandsToConfirm |}
  end.

(** [onConfirm] of the details: the allowlist it leaves. *)
Definition onConfirm (details : ToolExecuteConfirmationDetails)
    (outcome : ToolConfirmationOutcome) (allowlist : gset string)
    : gset string :=
  match outcome with
  | ProceedAlways =>
      foldl (λ allowed c, allowed ∪ {[c]}) allowlist (commandsToConfirm details)
  | AnotherOutcome => allowlist
  end.

End ShellTool.

(** ** bash-output.ts *)

Module BashOutput.

Record BashOutputToolParams := {
  bash_id : string;
  filter : option string;
}.

Definition NL : string := Shell.NL.

(** [getDescription] *)
Definition getDescription (params : BashOutputToolParams) : string :=
  "Retrieving output from " +:+ bash_id params +:+
  match filter params with
  | Some pattern =>
      if Js.nonempty pattern then " (filter: " +:+ pattern +:+ ")" else ""
  | None => ""
  end.

(** [this.params.filter] as a condition. *)
Definition filtering (params : BashOutputToolParams) : bool :=
  match filter params with
  | Some pattern => Js.nonempty pattern
  | None => false
  end.

(** [${result.exitCode}] *)
Definition exitCode_string (c : BPS.ExitCode) : string :=
  match c with
  | BPS.exit_number n => Js.num n
  | BPS.exit_null => "null"
  | BPS.exit_undefined => "undefined"
  end.

(** The text of a poll that did not fail. *)
Definition render (params : BashOutputToolParams) (result : BPS.PollResult)
    : Shell.ToolResult :=
  let statusHeader :=
    "[Shell ID: " +:+ bash_id params +:+ " - Status: "
      +:+ BPS.poll_status result +:+ "]" in
  let header :=
    if filtering params then
      statusHeader +:+ NL +:+ "[Filter: " +:+ Shell.DQ
        +:+ default "" (filter params) +:+ Shell.DQ +:+ "]" +:+ NL
    else statusHeader +:+ NL in
  let lines :=
    match BPS.output result with
    | [] => "(no new output)"
    | _ => Js.join NL (BPS.output result)
    end in
  let display :=
    match BPS.output result with
    | [] => "No new output from " +:+ bash_id params
    | _ =>
        "Retrieved " +:+ Js.num (Js.length (BPS.output result))
          +:+ " new line(s) from " +:+ bash_id params
    end in
  let completion :=
    if String.eqb (BPS.poll_status result) "completed" then
      NL +:+ NL +:+ "Process Status: Completed (" +:+
      match BPS.poll_exitCode result with
      | BPS.exit_null => "Terminated by signal"
      | c => "Exit Code: " +:+ exitCode_string c
      end +:+ ")"
    else if String.eqb (BPS.poll_status result) "failed" then
      NL +:+ NL +:+ "Process Status: Failed"
    else if String.eqb (BPS.poll_status result) "running" then
      NL +:+ NL +:+ "Process Status: Running"
    else "" in
  {| Shell.llmContent := header +:+ lines +:+ completion;
     Shell.returnDisplay :=
       display +:+
       match BPS.output result with
       | [] => ""
       | _ => if filtering params then " (filtered)" else ""
       end |}.

Section tool.
Variable RegExp : string → option (string → bool).

(** [execute]: the poll is made for the consumer ['bash_output_tool']. *)
Definition execute (params : BashOutputToolParams) (service : BPS.Service)
    : Shell.ToolResult * BPS.Service :=
  let '(result, service') :=
    BPS.getNewOutput RegExp service (bash_id params) "bash_output_tool"
      (filter params) in
  match BPS.error result with
  | Some text =>
      if Js.nonempty text then
        ({| Shell.llmContent := text; Shell.returnDisplay := text |}, service')
      else (render params result, service')
  | None => (render params result, service')
  end.

(** [validateToolParamValues] of [BashOutputTool]. *)
Definition validateToolParamValues (h : Shell.Host)
    (params : BashOutputToolParams) : option string :=
  if negb (Js.nonempty (bash_id params))
     || negb (Js.nonempty (Shell.trim h (bash_id params))) then
    Some "The bash_id parameter cannot be empty."
  else
    match filter params with
    | Some pattern =>
        if Js.nonempty pattern then
          match RegExp pattern with
          | Some _ => None
          | None => Some ("Invalid regular expression in filter: " +:+ pattern)
          end
        else None
    | None => None
    end.
End tool.

End BashOutput.

(** ** kill-bash.ts *)

Module KillBash.

Record KillBashToolParams := { bash_id : string }.

Definition NL : string := Shell.NL.

(** [getDescription] *)
Definition getDescription (params : KillBashToolParams) : string :=
  "Terminating background process " +:+ bash_id params.

(** [validateToolParamValues] of [KillBashTool]. *)
Definition validateToolParamValues (h : Shell.Host)
    (params : KillBashToolParams) : option string :=
  if negb (Js.nonempty (bash_id params))
     || negb (Js.nonempty (Shell.trim h (bash_id params))) then
    Some "The bash_id parameter cannot be empty."
  else None.

Definition not_found (params : KillBashToolParams) : Shell.ToolResult :=
  {| Shell.llmContent :=
       "[Shell ID: " +:+ bash_id params +:+ "]" +:+ NL +:+
       "Process not found" +:+ NL +:+
       "  - Error: No background process exists with this ID" +:+ NL +:+
       "  - Suggestion: Use /bashes command to list active processes"
         +:+ NL +:+ NL +:+
       "Termination Status: Failed (Not Found)";
     Shell.returnDisplay := "Process " +:+ bash_id params +:+ " not found" |}.

Section tool.
Variable RegExp : string → option (string → bool).

(** The object a variable holds after the events [es]: [process] is the
    record registered under [id] in [s]; an event writes to that object
    as long as the object is the one registered under [id], which a new
    registration or a removal ends. *)
Fixpoint alias (s : BPS.Service) (id : string) (process : BPS.BackgroundProcess)
    (es : list BPS.Event) : BPS.BackgroundProcess :=
  match es with
  | [] => process
  | e :: rest =>
      if Props.registers id e then process
      else
        match BPS.processes (BPS.step RegExp s e) !! id with
        | Some process' => alias (BPS.step RegExp s e) id process' rest
        | None => process
        end
  end.

(** [execute].  [now], [u1], [u2], [during] and [later] are those of
    [killProcess]; [between] is what runs between the return of
    [killProcess] and the resumption of [execute] after its [await]. *)
Definition execute (params : KillBashToolParams) (service : BPS.Service)
    (now u1 u2 : Z) (during : list BPS.Event) (later : Z)
    (between : list BPS.Event) : Shell.ToolResult * BPS.Service :=
  match BPS.getProcess service (bash_id params) with
  | None => (not_found params, service)
  | Some process =>
      match BPS.killProcess_begin service (bash_id params) now u1 u2 with
      | BPS.kill_waiting k service' =>
          let '(result, service'') :=
            BPS.killProcess_resume (BPS.run RegExp service' during) k later in
          ({| Shell.llmContent :=
                "[Shell ID: " +:+ bash_id params +:+ "]" +:+ NL +:+
                BPS.message result +:+ NL +:+ NL +:+
                "Termination Status: Success";
              Shell.returnDisplay :=
                "Process " +:+ bash_id params +:+ " terminated successfully" |},
           BPS.run RegExp service'' between)
      | BPS.kill_returned result service' =>
          let service'' := BPS.run RegExp service' between in
          if BPS.success result then
            ({| Shell.llmContent :=
                  "[Shell ID: " +:+ bash_id params +:+ "]" +:+ NL +:+
                  BPS.message result +:+ NL +:+ NL +:+
                  "Termination Status: Success";
                Shell.returnDisplay :=
                  "Process " +:+ bash_id params +:+ " terminated successfully" |},
             service'')
          else
            let held :=
              match BPS.processes service' !! bash_id params with
              | Some process' => alias service' (bash_id params) process' between
              | None => process
              end in
            let statusLine :=
              "Termination Status: " +:+
              (if negb (bool_decide (BPS.kill_exitCode result = BPS.exit_undefined))
               then "Not Needed (Already Completed)"
               else if bool_decide (BPS.status held = BPS.terminated)
               then "Not Needed (Already Terminated)"
               else "Failed") in
            ({| Shell.llmContent :=
                  "[Shell ID: " +:+ bash_id params +:+ "]" +:+ NL +:+
                  BPS.message result +:+ NL +:+ NL +:+ statusLine;
                Shell.returnDisplay :=
                  List.hd "" (Js.split Js.LF (BPS.message result)) |},
             service'')
      end
  end.
End tool.

End KillBash.

(** ** Further vocabulary *)

Module More.
Import BPS.

(** Every read offset lies within its buffer. *)
Definition offsets_within (s : Service) : Prop :=
  ∀ id process consumerId index,
    processes s !! id = Some process →
    lastReadIndex process !! consumerId = Some index →
    0 ≤ index ≤ Js.length (outputBuffer process).

(** The string holds no line feed. *)
Fixpoint one_line (line : string) : bool :=
  match line with
  | EmptyString => true
  | String c rest => negb (Ascii.eqb c Js.LF) && one_line rest
  end.

(** Every buffered entry is one non-empty line. *)
Definition buffers_clean (s : Service) : Prop :=
  ∀ id process line,
    processes s !! id = Some process →
    line ∈ outputBuffer process →
    Js.nonempty line = true ∧ one_line line = true.

(** Cleanup timers and terminal records go together: a record that is
    not running ended at some time and its cleanup is due
    [CLEANUP_TIMEOUT_MS] later, and a timer is pending only for a
    registered id. *)
Definition cleanup_scheduled (s : Service) : Prop :=
  (∀ id process,
     processes s !! id = Some process → status process ≠ running →
     ∃ ended, endTime process = Some ended ∧
              cleanupTimers s !! id = Some (ended + CLEANUP_TIMEOUT_MS s)) ∧
  (∀ id due, cleanupTimers s !! id = Some due → is_Some (processes s !! id)).

(** No cleanup timer is pending for a running process. *)
Definition idle_while_running (s : Service) : Prop :=
  ∀ id process,
    processes s !! id = Some process → status process = running →
    cleanupTimers s !! id = None.

(** Every registration of the run uses an id that is not registered at
    that moment, as ids made by [generateId] are meant to be. *)
Fixpoint registrations_fresh (RegExp : string → option (string → bool))
    (s : Service) (es : list Event) : Prop :=
  match es with
  | [] => True
  | e :: rest =>
      match e with
      | ev_registerProcess id _ _ _ _ _ => processes s !! id = None
      | _ => True
      end ∧ registrations_fresh RegExp (step RegExp s e) rest
  end.

(** What one event does to the record and the timer of an id: nothing;
    a change that keeps status and end time; a terminal transition, which
    sets the end time and the timer; a registration; a removal. *)
Inductive Effect_on (s s' : Service) (id : string) (e : Event) : Prop :=
| effect_none :
    processes s' !! id = processes s !! id →
    cleanupTimers s' !! id = cleanupTimers s !! id →
    Effect_on s s' id e
| effect_kept process process' :
    processes s !! id = Some process →
    processes s' !! id = Some process' →
    status process' = status process →
    endTime process' = endTime process →
    cleanupTimers s' !! id = cleanupTimers s !! id →
    Effect_on s s' id e
| effect_ended process process' ended :
    processes s !! id = Some process →
    processes s' !! id = Some process' →
    status process' ≠ running →
    endTime process' = Some ended →
    cleanupTimers s' !! id = Some (ended + CLEANUP_TIMEOUT_MS s) →
    Effect_on s s' id e
| effect_registered process' :
    Props.registers id e = true →
    processes s' !! id = Some process' →
    status process' = running →
    cleanupTimers s' !! id = cleanupTimers s !! id →
    Effect_on s s' id e
| effect_removed :
    processes s' !! id = None →
    cleanupTimers s' !! id = None →
    Effect_on s s' id e.

(** The event is an [addOutput] or a [getNewOutput] call. *)
Definition reading_or_writing (e : Event) : bool :=
  match e with
  | ev_addOutput _ _ | ev_getNewOutput _ _ _ => true
  | _ => false
  end.

(** How often a process is spawned in a list of effects. *)
Definition spawn_count (effects : list Shell.Effect) : nat :=
  length (List.filter Shell.spawns effects).

Definition is_unlink (e : Shell.Effect) : bool :=
  match e with Shell.unlink _ => true | _ => false end.

Definition is_setTimeout (e : Shell.Effect) : bool :=
  match e with Shell.setTimeout _ => true | _ => false end.

Definition is_clearTimeout (e : Shell.Effect) : bool :=
  match e with Shell.clearTimeout => true | _ => false end.

Definition is_addAbortListener (e : Shell.Effect) : bool :=
  match e with Shell.addAbortListener => true | _ => false end.

Definition is_removeAbortListener (e : Shell.Effect) : bool :=
  match e with Shell.removeAbortListener => true | _ => false end.

Definition count (test : Shell.Effect → bool) (effects : list Shell.Effect)
    : nat :=
  length (List.filter test effects).

(** Stand-ins for the functions of [shell-utils.js]: a command is allowed
    unless it is empty, and its roots are its first words between
    semicolons. *)
Fixpoint first_word (s : string) : string :=
  match s with
  | EmptyString => EmptyString
  | String c rest =>
      if Ascii.eqb c " "%char then EmptyString else String c (first_word rest)
  end.

Definition toyPolicy : ShellTool.Policy :=
  {| ShellTool.isCommandAllowed := λ c, (Js.nonempty c, None);
     ShellTool.getCommandRoots :=
       λ c, List.filter Js.nonempty (first_word <$> Js.split ";" c);
     ShellTool.isAbsolute := Props.prefix_of "/";
     ShellTool.basename := λ d, d;
     ShellTool.workspaceDirs := ["app"; "lib"] |}.

Definition background_params : Shell.ShellToolParams :=
  {| Shell.command := "npm run dev"; Shell.timeout := None;
     Shell.description := None; Shell.run_in_background := Some true;
     Shell.sandbox := None; Shell.shellExecutable := None;
     Shell.directory := None |}.

(** The string does not hold the character. *)
Fixpoint free_of (c : ascii) (s : string) : bool :=
  match s with
  | EmptyString => true
  | String c' rest => negb (Ascii.eqb c' c) && free_of c rest
  end.

(** Exit codes go with the status: a completed record has an exit code,
    a running record has no exit code, no end time and no termination
    signal. *)
Definition codes_recorded (s : Service) : Prop :=
  ∀ id process,
    processes s !! id = Some process →
    (status process = completed → exitCode process ≠ exit_undefined) ∧
    (status process = running →
     exitCode process = exit_undefined ∧
     endTime process = None ∧ terminationSignal process = None).

(** What the status line of the KillBash tool says of a process that had
    the given status when the tool was called. *)
Definition verdict (st : Status) : string :=
  match st with
  | running => "Success"
  | completed => "Not Needed (Already Completed)"
  | terminated => "Not Needed (Already Terminated)"
  | failed => "Failed"
  end.

(** A short life: a registration, two lines of output, a poll, and the
    exit of the process a minute later. *)
Definition sample_run : list Event :=
  [ ev_registerProcess "bash_1" (Some 4242) "make" None None 0;
    ev_addOutput "bash_1" ("one" +:+ Shell.NL +:+ "two");
    ev_getNewOutput "bash_1" "reader" None;
    ev_result_resolved "bash_1" (Some 0) 60000 ].

(** Two launches, of which the second has ended. *)
Definition sample_launches : list Event :=
  [ ev_registerProcess "bash_1" (Some 4242) "make" None None 0;
    ev_addOutput "bash_1" "one";
    ev_registerProcess "bash_2" (Some 4343) "ls" None None 10;
    ev_result_resolved "bash_2" (Some 0) 20 ].

(** The answers of the outside to a background launch. *)
Definition launch_oracle : Shell.Oracle := Props.sample_oracle false false false.

(** The id that launch is given. *)
Definition launch_id : string :=
  generateId (Shell.now launch_oracle) (Shell.random_base36 launch_oracle).

(** *** The pgrep file *)

(** The value of a string of decimal digits. *)
Fixpoint digits_from (n : Z) (s : string) : Z :=
  match s with
  | EmptyString => n
  | String c rest => digits_from (10 * n + Z.of_nat (nat_of_ascii c - 48)) rest
  end.

Definition digits_value (s : string) : Z := digits_from 0 s.

(** A host whose [Number] reads strings of decimal digits and gives
    [NaN] for every other string. *)
Definition pgrep_host : Shell.Host :=
  {| Shell.stripShellWrapper := Shell.stripShellWrapper Props.toyHost;
     Shell.trim := Shell.trim Props.toyHost;
     Shell.endsWith := Shell.endsWith Props.toyHost;
     Shell.replace := Shell.replace Props.toyHost;
     Shell.path_resolve := Shell.path_resolve Props.toyHost;
     Shell.path_join := Shell.path_join Props.toyHost;
     Shell.formatMemoryUsage := Shell.formatMemoryUsage Props.toyHost;
     Shell.getErrorMessage := Shell.getErrorMessage Props.toyHost;
     Shell.Number :=
       λ line, if Shell.is_digits line then Some (digits_value line)
               else None |}.

(** A foreground run of [make] that ended with code 0 and left a pgrep
    file which names the shell (4242) between two other processes, one
    of them twice, and a line that is no number. *)
Definition pgrep_params : Shell.ShellToolParams :=
  {| Shell.command := "make"; Shell.timeout := None;
     Shell.description := None; Shell.run_in_background := None;
     Shell.sandbox := None; Shell.shellExecutable := None;
     Shell.directory := None |}.

Definition pgrep_result : Shell.ShellExecutionResult :=
  {| Shell.output := "done"; Shell.exitCode := Some 0; Shell.signal := None;
     Shell.error := None; Shell.aborted := false; Shell.pid := Some 4242 |}.

Definition pgrep_oracle : Shell.Oracle :=
  {| Shell.platform := "linux"; Shell.signal_aborted := false;
     Shell.randomBytes_hex := "0a1b2c3d4e5f"; Shell.tmpdir := "/tmp";
     Shell.now := 1700000000000; Shell.random_base36 := "k3x9qz";
     Shell.registered_at := 1700000000003;
     Shell.engine_handle := Shell.resolved (Some 4242);
     Shell.result := Shell.resolved pgrep_result;
     Shell.timer_fired := false; Shell.signal_aborted_later := false;
     Shell.tempFile :=
       Some ("4300" +:+ Shell.NL +:+ "4242" +:+ Shell.NL +:+ "4250"
               +:+ Shell.NL +:+ "oops" +:+ Shell.NL +:+ "4300" +:+ Shell.NL);
     Shell.summary := Shell.rejected "unused" |}.

End More.

(** A property of all records holds of the service that has none. *)
Ltac no_records :=
  repeat intro;
  match goal with
  | H : _ !! _ = Some _ |- _ => simpl in H; by rewrite lookup_empty in H
  end.

(** ** Properties of the service *)

Section service_facts.
Import BPS Props.
Implicit Types (s : Service) (id consumerId output : string)
  (process : BackgroundProcess) (e : Event).
Variable RegExp : string → option (string → bool).

Lemma js_length_nonneg {A} (l : list A) : 0 ≤ Js.length l.
Proof. unfold Js.length. lia. Qed.

Lemma js_length_app {A} (l k : list A) :
  Js.length (l ++ k) = Js.length l + Js.length k.
Proof. unfold Js.length. rewrite List.length_app. lia. Qed.

Lemma js_length_splice0 {A} (n : Z) (l : list A) :
  0 ≤ n ≤ Js.length l → Js.length (Js.splice0 n l) = Js.length l - n.
Proof.
  unfold Js.splice0, Js.length. intros Hn. rewrite length_drop. lia.
Qed.

Lemma slice_drop {A} (n : Z) (l : list A) :
  0 ≤ n → Js.slice n l = drop (Z.to_nat n) l.
Proof.
  intros Hn. unfold Js.slice.
  destruct (n <? 0) eqn:E; [apply Z.ltb_lt in E; lia | done].
Qed.

Lemma or_number_default (x : option Z) : Js.or_number x 0 = default 0 x.
Proof.
  destruct x as [n|]; simpl; [|done].
  destruct (n =? 0) eqn:E; [apply Z.eqb_eq in E; lia | done].
Qed.

(** *** The effect of each method on the registry *)

Lemma addOutput_unknown s id output :
  processes s !! id = None → addOutput s id output = s.
Proof. intros H. unfold addOutput. by rewrite H. Qed.

Lemma addOutput_known s id output process :
  processes s !! id = Some process →
  addOutput s id output =
    store id (appended (MAX_BUFFER_LINES s) output process) s.
Proof.
  intros H. unfold addOutput, appended. rewrite H.
  by destruct (MAX_BUFFER_LINES s <? _).
Qed.

Lemma getNewOutput_unknown s id consumerId filter :
  processes s !! id = None →
  (getNewOutput RegExp s id consumerId filter).2 = s.
Proof. intros H. unfold getNewOutput. by rewrite H. Qed.

Lemma getNewOutput_known s id consumerId filter process :
  processes s !! id = Some process →
  (getNewOutput RegExp s id consumerId filter).2 = s ∨
  (getNewOutput RegExp s id consumerId filter).2 =
    store id (polled consumerId process) s.
Proof.
  intros H. unfold getNewOutput. rewrite H.
  destruct filter as [pattern|]; [|by right].
  destruct (Js.nonempty pattern); [|by right].
  destruct (RegExp pattern); [by right | by left].
Qed.

Lemma markProcessTerminated_known s id signal now process :
  processes s !! id = Some process →
  processes (markProcessTerminated s id signal now) =
    <[id := marked_terminated signal now process]> (processes s).
Proof. intros H. unfold markProcessTerminated. by rewrite H. Qed.

Lemma markProcessFailed_known s id message now process :
  processes s !! id = Some process →
  processes (markProcessFailed s id message now) =
    <[id := marked_failed (MAX_BUFFER_LINES s) message now process]> (processes s).
Proof.
  intros H. unfold markProcessFailed. rewrite H. simpl.
  erewrite addOutput_known by (simpl; apply lookup_insert_eq).
  simpl. by rewrite insert_insert_eq.
Qed.

Lemma step_limit s e : MAX_BUFFER_LINES (step RegExp s e) = MAX_BUFFER_LINES s.
Proof.
  destruct e as [id ? ? ? ? ?|id output|id c f|id code now|id msg now
                |id now u1 u2|k now|id|]; simpl; try done.
  - unfold addOutput. destruct (processes s !! id); [|done].
    by destruct (_ <? _).
  - destruct (processes s !! id) as [process|] eqn:H.
    + by destruct (getNewOutput_known s id c f process H) as [-> | ->].
    + by rewrite getNewOutput_unknown.
  - unfold markProcessCompleted. by destruct (processes s !! id).
  - unfold markProcessFailed. destruct (processes s !! id) as [process|]; [|done].
    simpl. erewrite addOutput_known by (simpl; apply lookup_insert_eq). done.
  - unfold killProcess_begin. destruct (processes s !! id) as [process|] eqn:H; [|done].
    destruct (status process); try done.
    destruct (abortController process); [done|]. simpl.
    unfold markProcessTerminated. by rewrite H.
  - unfold markProcessTerminated. by destruct (processes s !! kp_id k).
  - unfold cleanup. by destruct (cleanupTimers s !! id).
Qed.

(** Every record of the registry after an event was there before, and
    was changed in one of the ways of [Change], unless the event
    registered it. *)
Lemma step_change s e id process' :
  processes (step RegExp s e) !! id = Some process' →
  registers id e = false →
  ∃ process, processes s !! id = Some process ∧
             Change (MAX_BUFFER_LINES s) id e process process'.
Proof.
  intros H Hreg.
  destruct e as [id' ? ? ? ? ?|id' output|id' c f|id' code now|id' msg now
                |id' now u1 u2|k now|id'|]; simpl in *.
  - apply bool_decide_eq_false in Hreg.
    rewrite lookup_insert_ne in H by done. eauto using Change.
  - destruct (processes s !! id') as [q|] eqn:Hq.
    + rewrite (addOutput_known _ _ _ _ Hq) in H. simpl in H.
      destruct (decide (id' = id)) as [->|Hne].
      * rewrite lookup_insert_eq in H. injection H as <-. eauto using Change.
      * rewrite lookup_insert_ne in H by done. eauto using Change.
    + rewrite addOutput_unknown in H by done. eauto using Change.
  - destruct (processes s !! id') as [q|] eqn:Hq.
    + destruct (getNewOutput_known s id' c f q Hq) as [E | E];
        rewrite E in H; [eauto using Change|]. simpl in H.
      destruct (decide (id' = id)) as [->|Hne].
      * rewrite lookup_insert_eq in H. injection H as <-. eauto using Change.
      * rewrite lookup_insert_ne in H by done. eauto using Change.
    + rewrite getNewOutput_unknown in H by done. eauto using Change.
  - unfold markProcessCompleted in H.
    destruct (processes s !! id') as [q|] eqn:Hq; [|eauto using Change].
    simpl in H. destruct (decide (id' = id)) as [->|Hne].
    + rewrite lookup_insert_eq in H. injection H as <-. eauto using Change.
    + rewrite lookup_insert_ne in H by done. eauto using Change.
  - destruct (processes s !! id') as [q|] eqn:Hq.
    + rewrite (markProcessFailed_known _ _ _ _ _ Hq) in H.
      destruct (decide (id' = id)) as [->|Hne].
      * rewrite lookup_insert_eq in H. injection H as <-. eauto using Change.
      * rewrite lookup_insert_ne in H by done. eauto using Change.
    + unfold markProcessFailed in H. rewrite Hq in H. eauto using Change.
  - unfold killProcess_begin in H.
    destruct (processes s !! id') as [q|] eqn:Hq; [|eauto using Change].
    destruct (status q) eqn:Hst; try (eauto using Change).
    destruct (abortController q) eqn:Hac; simpl in H.
    + destruct (decide (id' = id)) as [->|Hne].
      * rewrite lookup_insert_eq in H. injection H as <-. eauto using Change.
      * rewrite lookup_insert_ne in H by done. eauto using Change.
    + rewrite (markProcessTerminated_known _ _ _ _ _ Hq) in H.
      destruct (decide (id' = id)) as [->|Hne].
      * rewrite lookup_insert_eq in H. injection H as <-. eauto using Change.
      * rewrite lookup_insert_ne in H by done. eauto using Change.
  - unfold killProcess_resume, kill_finish in H. simpl in H.
    destruct (processes s !! kp_id k) as [q|] eqn:Hq.
    + rewrite (markProcessTerminated_known _ _ _ _ _ Hq) in H.
      destruct (decide (kp_id k = id)) as [<-|Hne].
      * rewrite lookup_insert_eq in H. injection H as <-. eauto using Change.
      * rewrite lookup_insert_ne in H by done. eauto using Change.
    + unfold markProcessTerminated in H. rewrite Hq in H. eauto using Change.
  - unfold cleanup in H.
    destruct (cleanupTimers s !! id'); [|eauto using Change]. simpl in H.
    destruct (decide (id' = id)) as [->|Hne].
    + by rewrite lookup_delete_eq in H.
    + rewrite lookup_delete_ne in H by done. eauto using Change.
  - by rewrite lookup_empty in H.
Qed.

(** A record leaves the registry only through the cleanup timer or
    [clearAll]. *)
Lemma step_keeps s e id process :
  processes s !! id = Some process →
  evicts id e = false →
  is_Some (processes (step RegExp s e) !! id).
Proof.
  intros H Hev.
  destruct e as [id' ? ? ? ? ?|id' output|id' c f|id' code now|id' msg now
                |id' now u1 u2|k now|id'|]; simpl in *; try done.
  - destruct (decide (id' = id)) as [->|Hne].
    + rewrite lookup_insert_eq. eauto.
    + rewrite lookup_insert_ne by done. eauto.
  - destruct (processes s !! id') as [q|] eqn:Hq.
    + rewrite (addOutput_known _ _ _ _ Hq). simpl.
      destruct (decide (id' = id)) as [->|Hne].
      * rewrite lookup_insert_eq. eauto.
      * rewrite lookup_insert_ne by done. eauto.
    + rewrite addOutput_unknown by done. eauto.
  - destruct (processes s !! id') as [q|] eqn:Hq.
    + destruct (getNewOutput_known s id' c f q Hq) as [E | E];
        rewrite E; [eauto|]. simpl.
      destruct (decide (id' = id)) as [->|Hne].
      * rewrite lookup_insert_eq. eauto.
      * rewrite lookup_insert_ne by done. eauto.
    + rewrite getNewOutput_unknown by done. eauto.
  - unfold markProcessCompleted.
    destruct (processes s !! id') as [q|] eqn:Hq; [|eauto]. simpl.
    destruct (decide (id' = id)) as [->|Hne].
    + rewrite lookup_insert_eq. eauto.
    + rewrite lookup_insert_ne by done. eauto.
  - destruct (processes s !! id') as [q|] eqn:Hq.
    + rewrite (markProcessFailed_known _ _ _ _ _ Hq).
      destruct (decide (id' = id)) as [->|Hne].
      * rewrite lookup_insert_eq. eauto.
      * rewrite lookup_insert_ne by done. eauto.
    + unfold markProcessFailed. rewrite Hq. eauto.
  - unfold killProcess_begin.
    destruct (processes s !! id') as [q|] eqn:Hq; [|eauto].
    destruct (status q) eqn:Hst; try (eauto).
    destruct (abortController q) eqn:Hac; simpl.
    + destruct (decide (id' = id)) as [->|Hne].
      * rewrite lookup_insert_eq. eauto.
      * rewrite lookup_insert_ne by done. eauto.
    + rewrite (markProcessTerminated_known _ _ _ _ _ Hq).
      destruct (decide (id' = id)) as [->|Hne].
      * rewrite lookup_insert_eq. eauto.
      * rewrite lookup_insert_ne by done. eauto.
  - unfold killProcess_resume, kill_finish. simpl.
    destruct (processes s !! kp_id k) as [q|] eqn:Hq.
    + rewrite (markProcessTerminated_known _ _ _ _ _ Hq).
      destruct (decide (kp_id k = id)) as [<-|Hne].
      * rewrite lookup_insert_eq. eauto.
      * rewrite lookup_insert_ne by done. eauto.
    + unfold markProcessTerminated. rewrite Hq. eauto.
  - apply bool_decide_eq_false in Hev. unfold cleanup.
    destruct (cleanupTimers s !! id'); [|eauto]. simpl.
    rewrite lookup_delete_ne by done. eauto.
Qed.

Lemma step_registered s e id process' :
  processes (step RegExp s e) !! id = Some process' →
  registers id e = true →
  status process' = running ∧ outputBuffer process' = [] ∧
  lastReadIndex process' = ∅.
Proof.
  intros H Hreg. destruct e; simpl in *; try done.
  apply bool_decide_eq_true in Hreg as ->.
  rewrite lookup_insert_eq in H. by injection H as <-.
Qed.

Lemma appended_limit_lookup limit output process consumerId :
  lastReadIndex (appended limit output process) !! consumerId =
    if limit <? Js.length (outputBuffer process ++ lines_of output) then
      (λ index, Z.max 0
         (index - (Js.length (outputBuffer process ++ lines_of output) - limit)))
        <$> (lastReadIndex process !! consumerId)
    else lastReadIndex process !! consumerId.
Proof.
  unfold appended. destruct (limit <? _); simpl; [|done].
  by rewrite lookup_fmap.
Qed.

Lemma appended_nonneg limit output process consumerId index :
  (∀ i, lastReadIndex process !! consumerId = Some i → 0 ≤ i) →
  lastReadIndex (appended limit output process) !! consumerId = Some index →
  0 ≤ index.
Proof.
  intros Hp. rewrite appended_limit_lookup.
  destruct (limit <? _); [|by auto].
  destruct (lastReadIndex process !! consumerId); simpl; [|done].
  intros [= <-]. lia.
Qed.

Lemma change_nonneg limit id e process process' consumerId index :
  Change limit id e process process' →
  (∀ c i, lastReadIndex process !! c = Some i → 0 ≤ i) →
  lastReadIndex process' !! consumerId = Some index → 0 ≤ index.
Proof.
  intros Hc Hp H. inversion Hc; subst; simpl in *; eauto.
  - eapply appended_nonneg; [|done]. eauto.
  - destruct (decide (consumerId0 = consumerId)) as [->|Hne].
    + rewrite lookup_insert_eq in H. injection H as <-. apply js_length_nonneg.
    + rewrite lookup_insert_ne in H by done. eauto.
  - eapply appended_nonneg; [|done]. simpl. eauto.
Qed.

Lemma step_offsets_nonneg s e :
  offsets_nonneg s → offsets_nonneg (step RegExp s e).
Proof.
  intros Hs id process' consumerId index Hp Hi.
  destruct (registers id e) eqn:Hreg.
  - destruct (step_registered _ _ _ _ Hp Hreg) as (_ & _ & Hempty).
    rewrite Hempty, lookup_empty in Hi. done.
  - destruct (step_change _ _ _ _ Hp Hreg) as (process & Hq & Hc).
    eapply change_nonneg; [done| |done]. intros c i Hci. by eapply Hs.
Qed.

Lemma addOutput_limit s id output :
  MAX_BUFFER_LINES (addOutput s id output) = MAX_BUFFER_LINES s.
Proof.
  destruct (processes s !! id) as [process|] eqn:H.
  - by rewrite (addOutput_known _ _ _ _ H).
  - by rewrite addOutput_unknown.
Qed.

Lemma appendAll_limit s id outputs :
  MAX_BUFFER_LINES (appendAll s id outputs) = MAX_BUFFER_LINES s.
Proof.
  revert s. induction outputs as [|o outputs IH]; intros s; [done|].
  unfold appendAll in *. simpl. rewrite IH. apply addOutput_limit.
Qed.

Lemma appended_bound limit output process :
  0 ≤ limit → Js.length (outputBuffer (appended limit output process)) ≤ limit.
Proof.
  intros Hl. unfold appended.
  destruct (limit <? _) eqn:E; simpl.
  - apply Z.ltb_lt in E. rewrite js_length_splice0; lia.
  - apply Z.ltb_ge in E. done.
Qed.

(** C1.  Buffer bound: whatever [addOutput] calls were made before on a
    service with the limit of 10,000 lines, after one more call the
    buffer of the process holds at most 10,000 lines. *)
Theorem buffer_bound s id (before : list string) output process :
  MAX_BUFFER_LINES s = 10000 →
  processes (addOutput (appendAll s id before) id output) !! id = Some process →
  Js.length (outputBuffer process) ≤ 10000.
Proof.
  intros Hmax Hp.
  pose proof (appendAll_limit s id before) as Hl. rewrite Hmax in Hl.
  destruct (processes (appendAll s id before) !! id) as [q|] eqn:Hq.
  - rewrite (addOutput_known _ _ _ _ Hq) in Hp. simpl in Hp.
    rewrite lookup_insert_eq in Hp. injection Hp as <-.
    rewrite Hl. by apply appended_bound.
  - rewrite addOutput_unknown in Hp by done. congruence.
Qed.

(** C2.  Eviction rebasing.  When [addOutput] evicts [overflow] lines
    from the front of a buffer, the buffer keeps the lines after them
    and every consumer's read offset becomes [max 0 (offset - overflow)];
    in the scenario with a limit of three lines and a consumer that read
    after the second of five lines, the offsets are 2, 2, 1, 0 and the
    next poll returns exactly lines 3 to 5; and no event ever makes a
    read offset negative. *)
Theorem eviction_rebasing :
  (∀ s id output process,
     processes s !! id = Some process →
     let buffer := outputBuffer process ++ lines_of output in
     let overflow := Js.length buffer - MAX_BUFFER_LINES s in
     0 < overflow →
     ∃ process',
       processes (addOutput s id output) !! id = Some process' ∧
       outputBuffer process' = drop (Z.to_nat overflow) buffer ∧
       ∀ consumerId,
         lastReadIndex process' !! consumerId =
           (λ index, Z.max 0 (index - overflow))
             <$> (lastReadIndex process !! consumerId)) ∧
  (output scenario_read.1 = ["line1"; "line2"] ∧
   (λ n, offset_of (scenario_after n) "bash_1" "reader") <$> [0; 1; 2; 3]%nat
     = [Some 2; Some 2; Some 1; Some 0] ∧
   buffer_of (scenario_after 3) "bash_1" = Some ["line3"; "line4"; "line5"] ∧
   output scenario_poll.1 = ["line3"; "line4"; "line5"]) ∧
  (∀ s e, offsets_nonneg s → offsets_nonneg (step RegExp s e)).
Proof.
  split; [|split].
  - intros s id output process Hp buffer overflow Hov.
    exists (appended (MAX_BUFFER_LINES s) output process).
    rewrite (addOutput_known _ _ _ _ Hp). simpl.
    rewrite lookup_insert_eq. split; [done|].
    assert ((MAX_BUFFER_LINES s <? Js.length buffer) = true) as E
      by (apply Z.ltb_lt; subst overflow; lia).
    split.
    + unfold appended. fold buffer. by rewrite E.
    + intros consumerId. rewrite appended_limit_lookup. fold buffer.
      by rewrite E.
  - vm_compute. done.
  - apply step_offsets_nonneg.
Qed.

(** C3, as amended.  What one event does to a registered record.  A
    registration under the same id replaces the record, whatever its
    status, by a new running one with an empty buffer: [registerProcess]
    does not look at what is registered.  Under any other event the
    record stays unless the event evicts it (the cleanup timer,
    [clearAll]), and it keeps its status or the event is one of the three
    that write it: a resolved result writes [completed], a rejected
    result [failed], and [killProcess] writes [terminated] (it starts
    only on a running record; its end of grace window writes
    unconditionally).  So no event but a new registration brings a
    record back to [running], and a record leaves the registry only by
    eviction. *)
Theorem status_transitions s e id process :
  processes s !! id = Some process →
  match processes (step RegExp s e) !! id with
  | None => evicts id e = true
  | Some process' =>
      if registers id e then
        status process' = running ∧ outputBuffer process' = [] ∧
        lastReadIndex process' = ∅ ∧
        ∃ pid command handle ac now,
          e = ev_registerProcess id pid command handle ac now
      else
        (status process' = status process
         ∨ (status process' = completed ∧
            ∃ code now, e = ev_result_resolved id code now)
         ∨ (status process' = failed ∧
            ∃ message now, e = ev_result_rejected id message now)
         ∨ (status process' = terminated ∧
            ((status process = running ∧
              ∃ now u1 u2, e = ev_kill_begin id now u1 u2)
             ∨ ∃ k now, kp_id k = id ∧ e = ev_kill_resume k now)))
        ∧ (status process' = running → status process = running)
  end.
Proof.
  intros Hp.
  destruct (processes (step RegExp s e) !! id) as [process'|] eqn:Hp'.
  - destruct (registers id e) eqn:Hreg.
    + destruct (step_registered _ _ _ _ Hp' Hreg) as (Hst & Hbuf & Hidx).
      do 3 (split; [done|]). destruct e; simpl in Hreg; try done.
      apply bool_decide_eq_true in Hreg as ->. eauto 10.
    + destruct (step_change _ _ _ _ Hp' Hreg) as (q & Hq & Hc).
      assert (q = process) as -> by congruence.
      assert (∀ limit output r, status (appended limit output r) = status r)
        as Happ.
      { intros. unfold appended. by destruct (_ <? _). }
      inversion Hc; subst; unfold marked_failed; simpl; rewrite ?Happ; simpl;
        (split; [|try done]); eauto 10.
  - destruct (evicts id e) eqn:Hev; [done|].
    destruct (step_keeps _ _ _ _ Hp Hev) as [? ?]. congruence.
Qed.

(** *** Polling *)

Lemma suffix_of_drop {A} (n : nat) (l : list A) : drop n l `suffix_of` l.
Proof. exists (take n l). by rewrite take_drop. Qed.

Lemma drop_app_within {A} (n : nat) (l k : list A) :
  (n ≤ length l)%nat → drop n (l ++ k) = drop n l ++ k.
Proof.
  intros Hn. rewrite drop_app.
  replace (n - length l)%nat with 0%nat by lia. done.
Qed.

(** What a consumer at offset [o] has not read is part of [news], and
    stays so when more output is appended to both. *)
Lemma appended_unread limit output process consumerId o news :
  0 ≤ limit →
  lastReadIndex process !! consumerId = Some o →
  0 ≤ o ≤ Js.length (outputBuffer process) →
  drop (Z.to_nat o) (outputBuffer process) `suffix_of` news →
  ∃ o',
    lastReadIndex (appended limit output process) !! consumerId = Some o' ∧
    0 ≤ o' ≤ Js.length (outputBuffer (appended limit output process)) ∧
    drop (Z.to_nat o') (outputBuffer (appended limit output process))
      `suffix_of` (news ++ lines_of output).
Proof.
  intros Hl Ho Hb Hs.
  rewrite appended_limit_lookup, Ho. unfold appended.
  set (buffer := outputBuffer process ++ lines_of output).
  assert (drop (Z.to_nat o) buffer `suffix_of` news ++ lines_of output) as Hall.
  { unfold buffer. rewrite drop_app_within by (unfold Js.length in Hb; lia).
    by apply suffix_app. }
  destruct (limit <? Js.length buffer) eqn:E; simpl.
  - apply Z.ltb_lt in E. eexists. split; [done|].
    rewrite js_length_splice0 by lia.
    assert (Js.length buffer = Js.length (outputBuffer process)
                               + Js.length (lines_of output)) as Hlen
      by apply js_length_app.
    pose proof (js_length_nonneg (lines_of output)).
    split; [lia|]. unfold Js.splice0. rewrite drop_drop.
    destruct (decide (Js.length buffer - limit ≤ o)) as [Hle|Hgt].
    + replace (Z.to_nat (Js.length buffer - limit)
               + Z.to_nat (Z.max 0 (o - (Js.length buffer - limit))))%nat
        with (Z.to_nat o) by lia.
      done.
    + replace (Z.to_nat (Js.length buffer - limit)
               + Z.to_nat (Z.max 0 (o - (Js.length buffer - limit))))%nat
        with (Z.to_nat o + Z.to_nat (Js.length buffer - limit - o))%nat by lia.
      rewrite <- drop_drop. etrans; [apply suffix_of_drop | done].
  - eexists. split; [done|]. split; [|done].
    fold buffer. unfold buffer. rewrite js_length_app.
    pose proof (js_length_nonneg (lines_of output)). lia.
Qed.

Lemma appendAll_unread s id process consumerId o news (later : list string) :
  0 ≤ MAX_BUFFER_LINES s →
  processes s !! id = Some process →
  lastReadIndex process !! consumerId = Some o →
  0 ≤ o ≤ Js.length (outputBuffer process) →
  drop (Z.to_nat o) (outputBuffer process) `suffix_of` news →
  ∃ process' o',
    processes (appendAll s id later) !! id = Some process' ∧
    lastReadIndex process' !! consumerId = Some o' ∧
    0 ≤ o' ≤ Js.length (outputBuffer process') ∧
    drop (Z.to_nat o') (outputBuffer process')
      `suffix_of` (news ++ lines_of_all later).
Proof.
  revert s process o news.
  induction later as [|output later IH]; intros s process o news Hl Hp Ho Hb Hs.
  - exists process, o. unfold lines_of_all. simpl. by rewrite app_nil_r.
  - destruct (appended_unread (MAX_BUFFER_LINES s) output process consumerId
                o news Hl Ho Hb Hs) as (o1 & Ho1 & Hb1 & Hs1).
    unfold appendAll. simpl. fold (appendAll (addOutput s id output) id later).
    destruct (IH (addOutput s id output)
                (appended (MAX_BUFFER_LINES s) output process) o1
                (news ++ lines_of output)) as (process' & o' & H1 & H2 & H3 & H4);
      try done.
    + by rewrite addOutput_limit.
    + rewrite (addOutput_known _ _ _ _ Hp). simpl. apply lookup_insert_eq.
    + exists process', o'. repeat split; try done; try lia.
      unfold lines_of_all in *. simpl. by rewrite app_assoc.
Qed.

Lemma getNewOutput_plain s id consumerId process :
  processes s !! id = Some process →
  getNewOutput RegExp s id consumerId None =
    ({| output :=
          Js.slice (Js.or_number (lastReadIndex process !! consumerId) 0)
            (outputBuffer process);
        poll_status := status_string (status process);
        poll_exitCode := exitCode process; error := None |},
     store id (polled consumerId process) s).
Proof. intros H. unfold getNewOutput. by rewrite H. Qed.

Lemma filter_sublist (keep : string → bool) (l : list string) :
  List.filter keep l `sublist_of` l.
Proof.
  induction l as [|x l IH]; simpl; [constructor|].
  destruct (keep x); by constructor.
Qed.

(** Whatever the filter, a poll returns some of the unread lines, in
    order. *)
Lemma getNewOutput_offers s id consumerId filter process :
  processes s !! id = Some process →
  output (getNewOutput RegExp s id consumerId filter).1 `sublist_of`
    Js.slice (Js.or_number (lastReadIndex process !! consumerId) 0)
      (outputBuffer process).
Proof.
  intros H. unfold getNewOutput. rewrite H.
  destruct filter as [pattern|]; [|done].
  destruct (Js.nonempty pattern); [|done].
  destruct (RegExp pattern); simpl; [apply filter_sublist | apply sublist_nil_l].
Qed.

(** C5.  A poll whose filter does not compile returns an error and no
    lines and leaves the service, the consumer's offset included, as it
    was; the consumer's next poll without a filter is the poll it would
    have made had the failed one never happened. *)
Theorem invalid_filter_keeps_offset s id consumerId pattern process :
  processes s !! id = Some process →
  Js.nonempty pattern = true →
  RegExp pattern = None →
  let refused := getNewOutput RegExp s id consumerId (Some pattern) in
  error refused.1 = Some ("Invalid regex filter: " +:+ pattern) ∧
  output refused.1 = [] ∧
  refused.2 = s ∧
  offset_of refused.2 id consumerId = offset_of s id consumerId ∧
  getNewOutput RegExp refused.2 id consumerId None =
    getNewOutput RegExp s id consumerId None.
Proof.
  intros Hp Hne Hre refused.
  assert (refused =
            ({| output := []; poll_status := status_string (status process);
                poll_exitCode := exitCode process;
                error := Some ("Invalid regex filter: " +:+ pattern) |}, s))
    as ->.
  { unfold refused, getNewOutput. by rewrite Hp, Hne, Hre. }
  done.
Qed.

(** C6.  A poll whose filter compiles returns the matching unread lines
    and moves the consumer's offset to the length of the buffer, however
    many lines matched; whatever is appended afterwards, the consumer's
    next poll, with any filter or none, offers only lines appended after
    the filtered poll, so a line the filter left out is not offered
    again. *)
Theorem filtered_poll_advances s id consumerId pattern regex process :
  processes s !! id = Some process →
  Js.nonempty pattern = true →
  RegExp pattern = Some regex →
  0 ≤ MAX_BUFFER_LINES s →
  let first := getNewOutput RegExp s id consumerId (Some pattern) in
  output first.1 =
    List.filter regex
      (Js.slice (Js.or_number (lastReadIndex process !! consumerId) 0)
         (outputBuffer process)) ∧
  error first.1 = None ∧
  offset_of first.2 id consumerId = Some (Js.length (outputBuffer process)) ∧
  buffer_of first.2 id = Some (outputBuffer process) ∧
  ∀ (later : list string) (filter' : option string),
    let again :=
      getNewOutput RegExp (appendAll first.2 id later) id consumerId filter' in
    output again.1 `sublist_of` lines_of_all later ∧
    (filter' = None → output again.1 `suffix_of` lines_of_all later).
Proof.
  intros Hp Hne Hre Hl first.
  assert (first =
            ({| output :=
                  List.filter regex
                    (Js.slice
                       (Js.or_number (lastReadIndex process !! consumerId) 0)
                       (outputBuffer process));
                poll_status := status_string (status process);
                poll_exitCode := exitCode process; error := None |},
             store id (polled consumerId process) s))
    as ->.
  { unfold first, getNewOutput. by rewrite Hp, Hne, Hre. }
  unfold offset_of, buffer_of. simpl. rewrite lookup_insert_eq. simpl.
  rewrite lookup_insert_eq. do 4 (split; [done|]).
  intros later filter'.
  destruct (appendAll_unread
              (store id (polled consumerId process) s) id
              (polled consumerId process) consumerId
              (Js.length (outputBuffer process)) [] later)
    as (process' & o' & H1 & H2 & H3 & H4); simpl; try done.
  - apply lookup_insert_eq.
  - apply lookup_insert_eq.
  - pose proof (js_length_nonneg (outputBuffer process)). lia.
  - unfold Js.length. rewrite Nat2Z.id, drop_all. done.
  - assert (Js.slice (Js.or_number (lastReadIndex process' !! consumerId) 0)
              (outputBuffer process') `suffix_of` lines_of_all later) as Hunread.
    { rewrite H2, or_number_default. simpl. by rewrite slice_drop by lia. }
    split.
    + etrans; [by apply getNewOutput_offers|].
      destruct Hunread as [k ->]. by apply sublist_inserts_l.
    + intros ->. by rewrite (getNewOutput_plain _ _ _ _ H1).
Qed.

(** *** Termination *)

Lemma run_keeps s id (es : list Event) :
  Forall (λ e, evicts id e = false) es →
  is_Some (processes s !! id) →
  is_Some (processes (run RegExp s es) !! id).
Proof.
  intros Hes. revert s. induction Hes as [|e es He _ IH]; intros s Hs; [done|].
  unfold run. simpl. apply IH. destruct Hs as [process Hp].
  by eapply step_keeps.
Qed.

(** A [killProcess] call on a running process ends in [kill_finish],
    on the service as it is then. *)
Lemma killProcess_running s id process now u1 u2 during later :
  processes s !! id = Some process →
  status process = running →
  ∃ s1 signal t,
    killProcess RegExp s id now u1 u2 during later =
      kill_finish s1 (kill_locals id process now u1 u2) signal t ∧
    (s1 = s ∨ s1 = run RegExp (store id (abort_sent process) s) during).
Proof.
  intros Hp Hst. unfold killProcess, killProcess_begin. rewrite Hp, Hst.
  destruct (abortController process).
  - unfold killProcess_resume. eauto 10.
  - simpl. exists s, "SIGTERM", now. split; [done|]. by left.
Qed.

(** A record that has ended stays registered and ended under events that
    neither evict nor register its id; and it stays [terminated] unless
    its result promise settles. *)
Lemma step_stays_ended s e id process :
  processes s !! id = Some process →
  status process ≠ running →
  evicts id e = false → registers id e = false →
  ∃ process',
    processes (step RegExp s e) !! id = Some process' ∧
    status process' ≠ running ∧
    (status process = terminated → settles id e = false →
     status process' = terminated).
Proof.
  intros Hp Hst Hev Hreg.
  destruct (step_keeps _ _ _ _ Hp Hev) as [process' Hp'].
  exists process'. split; [done|].
  destruct (step_change _ _ _ _ Hp' Hreg) as (q & Hq & Hc).
  assert (q = process) as -> by congruence.
  assert (∀ limit output r, status (appended limit output r) = status r)
    as Happ.
  { intros. unfold appended. by destruct (_ <? _). }
  inversion Hc; subst; unfold marked_failed; simpl in *; rewrite ?Happ;
    simpl; try done.
  - split; [done|]. intros _ Hsettles. by rewrite bool_decide_eq_true_2 in Hsettles.
  - split; [done|]. intros _ Hsettles. by rewrite bool_decide_eq_true_2 in Hsettles.
Qed.

Lemma run_stays_ended s (es : list Event) id process :
  Forall (λ e, evicts id e = false ∧ registers id e = false) es →
  processes s !! id = Some process →
  status process ≠ running →
  ∃ process',
    processes (run RegExp s es) !! id = Some process' ∧
    status process' ≠ running ∧
    (status process = terminated → Forall (λ e, settles id e = false) es →
     status process' = terminated).
Proof.
  intros Hes. revert s process.
  induction Hes as [|e es [Hev Hreg] _ IH]; intros s process Hp Hst.
  - exists process. done.
  - destruct (step_stays_ended s e id process Hp Hst Hev Hreg)
      as (q & Hq & Hstq & Hterm).
    destruct (IH _ _ Hq Hstq) as (process' & Hp' & Hst' & Hterm').
    exists process'. split; [done|]. split; [done|].
    intros Hterminated Hquiet. apply Forall_cons in Hquiet as [He Hquiet].
    apply Hterm'; [by apply Hterm | done].
Qed.


Lemma floor_random_low : floor_random_times 0 100 = 0 ∧ floor_random_times 0 5 = 0.
Proof. done. Qed.

Lemma floor_random_half :
  floor_random_times (2 ^ 52) 100 = 50 ∧ floor_random_times (2 ^ 52) 5 = 2.
Proof. done. Qed.

(** C10.  [killProcess] is not a function of the registry alone: on a
    running process whose [memoryUsage] and [fileDescriptors] are
    undefined, two calls in the same state, at the same time and with
    the same events during the grace window, return different
    [resourcesFreed], the figures being produced by [Math.random()]. *)
Theorem kill_not_deterministic s id process now during later :
  processes s !! id = Some process →
  status process = running →
  memoryUsage process = None →
  fileDescriptors process = None →
  ∃ u1 u2 u1' u2',
    (valid_random u1 ∧ valid_random u2 ∧ valid_random u1' ∧ valid_random u2') ∧
    resourcesFreed (killProcess RegExp s id now u1 u2 during later).1
      = Some (10, 1) ∧
    resourcesFreed (killProcess RegExp s id now u1' u2' during later).1
      = Some (60, 3).
Proof.
  intros Hp Hst Hmem Hfd. exists 0, 0, (2 ^ 52), (2 ^ 52).
  split; [unfold valid_random, random_range; lia|].
  destruct (killProcess_running s id process now 0 0 during later Hp Hst)
    as (s1 & signal & t & -> & _).
  destruct (killProcess_running s id process now (2 ^ 52) (2 ^ 52) during later
              Hp Hst) as (s2 & signal' & t' & -> & _).
  unfold kill_finish, kill_locals. cbn [fst resourcesFreed kp_memoryFreed
    kp_fileDescriptorsFreed]. rewrite Hmem, Hfd. cbn [Js.or_number].
  destruct floor_random_low as [-> ->]. destruct floor_random_half as [-> ->].
  done.
Qed.

End service_facts.

(** *** The theorems on examples *)

Lemma buffer_bound_witness :
  BPS.MAX_BUFFER_LINES Props.sample_service = 10000 ∧
  ∃ process,
    BPS.processes
      (BPS.addOutput
         (Props.appendAll Props.sample_service "bash_1" ["a"; "b"]) "bash_1" "c")
      !! "bash_1" = Some process ∧
    Js.length (BPS.outputBuffer process) ≤ 10000.
Proof.
  split; [reflexivity|]. eexists. split; [vm_compute; reflexivity|].
  eapply (buffer_bound Props.sample_service "bash_1" ["a"; "b"] "c");
    [reflexivity | vm_compute; reflexivity].
Defined.

Lemma eviction_rebasing_witness :
  ∃ process,
    BPS.processes (Props.scenario_after 1) !! "bash_1" = Some process ∧
    0 < Js.length (BPS.outputBuffer process ++ BPS.lines_of "line4")
        - BPS.MAX_BUFFER_LINES (Props.scenario_after 1) ∧
    ∃ process',
      BPS.processes (BPS.addOutput (Props.scenario_after 1) "bash_1" "line4")
        !! "bash_1" = Some process' ∧
      BPS.outputBuffer process' =
        drop
          (Z.to_nat
             (Js.length (BPS.outputBuffer process ++ BPS.lines_of "line4")
              - BPS.MAX_BUFFER_LINES (Props.scenario_after 1)))
          (BPS.outputBuffer process ++ BPS.lines_of "line4") ∧
      ∀ consumerId,
        BPS.lastReadIndex process' !! consumerId =
          (λ index,
             Z.max 0
               (index
                - (Js.length (BPS.outputBuffer process ++ BPS.lines_of "line4")
                   - BPS.MAX_BUFFER_LINES (Props.scenario_after 1))))
            <$> (BPS.lastReadIndex process !! consumerId).
Proof.
  eexists. split; [vm_compute; reflexivity|]. split; [vm_compute; reflexivity|].
  eapply (proj1 (eviction_rebasing Props.toyRegExp) (Props.scenario_after 1)
           "bash_1" "line4");
    [vm_compute; reflexivity | vm_compute; reflexivity].
Defined.

Lemma status_transitions_witness :
  BPS.processes Props.sample_service !! "bash_1" = Some Props.sample_process ∧
  let settled :=
    BPS.step Props.toyRegExp Props.sample_service
      (BPS.ev_result_resolved "bash_1" (Some 0) 5000) in
  let again :=
    BPS.step Props.toyRegExp settled
      (BPS.ev_registerProcess "bash_1" None "again" None None 6000) in
  Props.status_of settled "bash_1" = Some BPS.completed ∧
  Props.status_of again "bash_1" = Some BPS.running.
Proof.
  assert (BPS.processes Props.sample_service !! "bash_1"
          = Some Props.sample_process) as Hp by (vm_compute; reflexivity).
  split; [exact Hp|]. intros settled again.
  assert (Props.status_of settled "bash_1" = Some BPS.completed) as Hsettled
    by (vm_compute; reflexivity).
  split; [exact Hsettled|].
  unfold Props.status_of in *.
  destruct (BPS.processes settled !! "bash_1") as [completed|] eqn:Hc;
    [|discriminate Hsettled].
  pose proof (status_transitions Props.toyRegExp settled
                (BPS.ev_registerProcess "bash_1" None "again" None None 6000)
                "bash_1" completed Hc) as H.
  fold again in H.
  destruct (BPS.processes again !! "bash_1") as [process'|];
    [|simpl in H; discriminate H].
  change (Props.registers "bash_1"
            (BPS.ev_registerProcess "bash_1" None "again" None None 6000))
    with true in H.
  simpl. f_equal. exact (proj1 H).
Defined.

Lemma invalid_filter_keeps_offset_witness :
  ∃ process,
    BPS.processes Props.scenario_read.2 !! "bash_1" = Some process ∧
    Js.nonempty "(" = true ∧
    Props.toyRegExp "(" = None ∧
    let refused :=
      BPS.getNewOutput Props.toyRegExp Props.scenario_read.2 "bash_1" "reader"
        (Some "(") in
    BPS.error refused.1 = Some ("Invalid regex filter: " +:+ "(") ∧
    BPS.output refused.1 = [] ∧
    refused.2 = Props.scenario_read.2 ∧
    Props.offset_of refused.2 "bash_1" "reader"
      = Props.offset_of Props.scenario_read.2 "bash_1" "reader" ∧
    BPS.getNewOutput Props.toyRegExp refused.2 "bash_1" "reader" None =
      BPS.getNewOutput Props.toyRegExp Props.scenario_read.2 "bash_1" "reader" None.
Proof.
  eexists. split; [vm_compute; reflexivity|].
  split; [reflexivity|]. split; [reflexivity|].
  eapply (invalid_filter_keeps_offset Props.toyRegExp Props.scenario_read.2
           "bash_1" "reader" "(");
    [vm_compute; reflexivity | reflexivity | reflexivity].
Defined.

Lemma filtered_poll_advances_witness :
  ∃ process,
    BPS.processes (Props.scenario_after 1) !! "bash_1" = Some process ∧
    Js.nonempty "line9" = true ∧
    Props.toyRegExp "line9" = Some (Props.contains "line9") ∧
    0 ≤ BPS.MAX_BUFFER_LINES (Props.scenario_after 1) ∧
    let first :=
      BPS.getNewOutput Props.toyRegExp (Props.scenario_after 1) "bash_1" "reader"
        (Some "line9") in
    BPS.output first.1 =
      List.filter (Props.contains "line9")
        (Js.slice
           (Js.or_number (BPS.lastReadIndex process !! "reader") 0)
           (BPS.outputBuffer process)) ∧
    BPS.error first.1 = None ∧
    Props.offset_of first.2 "bash_1" "reader"
      = Some (Js.length (BPS.outputBuffer process)) ∧
    Props.buffer_of first.2 "bash_1" = Some (BPS.outputBuffer process) ∧
    ∀ (later : list string) (filter' : option string),
      let again :=
        BPS.getNewOutput Props.toyRegExp
          (Props.appendAll first.2 "bash_1" later) "bash_1" "reader" filter' in
      BPS.output again.1 `sublist_of` Props.lines_of_all later ∧
      (filter' = None → BPS.output again.1 `suffix_of` Props.lines_of_all later).
Proof.
  eexists. split; [vm_compute; reflexivity|].
  split; [reflexivity|]. split; [reflexivity|].
  split; [vm_compute; discriminate|].
  eapply (filtered_poll_advances Props.toyRegExp (Props.scenario_after 1)
           "bash_1" "reader" "line9" (Props.contains "line9"));
    [vm_compute; reflexivity | reflexivity | reflexivity
    | vm_compute; discriminate].
Defined.


Lemma kill_not_deterministic_witness :
  BPS.processes Props.sample_service !! "bash_1" = Some Props.sample_process ∧
  BPS.status Props.sample_process = BPS.running ∧
  BPS.memoryUsage Props.sample_process = None ∧
  BPS.fileDescriptors Props.sample_process = None ∧
  ∃ u1 u2 u1' u2',
    (BPS.valid_random u1 ∧ BPS.valid_random u2 ∧
     BPS.valid_random u1' ∧ BPS.valid_random u2') ∧
    BPS.resourcesFreed
      (BPS.killProcess Props.toyRegExp Props.sample_service "bash_1" 2000
         u1 u2 [] 2500).1 = Some (10, 1) ∧
    BPS.resourcesFreed
      (BPS.killProcess Props.toyRegExp Props.sample_service "bash_1" 2000
         u1' u2' [] 2500).1 = Some (60, 3).
Proof.
  split; [vm_compute; reflexivity|]. repeat (split; [reflexivity|]).
  apply (kill_not_deterministic Props.toyRegExp Props.sample_service "bash_1"
           Props.sample_process 2000 [] 2500);
    [vm_compute; reflexivity | reflexivity | reflexivity | reflexivity].
Defined.

(** C3, the claim as stated fails.  A registered process is killed, which
    leaves it [terminated]; when its result promise then resolves, the
    record becomes [completed].  And a result that resolves inside the
    grace window of a kill leaves the record [completed] until the end of
    the window makes it [terminated]. *)
Lemma terminal_status_rewritten :
  let s0 :=
    BPS.registerProcess BPS.getInstance "bash_1" (Some 4242) "sleep 600"
      (Some {| BPS.handle_pid := Some 4242 |})
      (Some {| BPS.aborted := false |}) 1000 in
  let killed := (BPS.killProcess Props.toyRegExp s0 "bash_1" 2000 0 0 [] 2500).2 in
  let settled :=
    BPS.step Props.toyRegExp killed (BPS.ev_result_resolved "bash_1" None 3000) in
  let waiting :=
    BPS.run Props.toyRegExp s0
      [BPS.ev_kill_begin "bash_1" 2000 0 0;
       BPS.ev_result_resolved "bash_1" None 2100] in
  let resumed :=
    (BPS.killProcess Props.toyRegExp s0 "bash_1" 2000 0 0
       [BPS.ev_result_resolved "bash_1" None 2100] 2500).2 in
  Props.status_of killed "bash_1" = Some BPS.terminated ∧
  Props.status_of settled "bash_1" = Some BPS.completed ∧
  Props.status_of waiting "bash_1" = Some BPS.completed ∧
  Props.status_of resumed "bash_1" = Some BPS.terminated.
Proof. vm_compute. done. Qed.


(** ** Properties of [execute] *)

Section execute_facts.
Import Shell.
Variables (h : Host) (config : Config).
Implicit Types (params : ShellToolParams) (o : Oracle) (service : BPS.Service).

(** C8.  When the caller's signal is already aborted as [execute] is
    entered, the call returns at once with the texts "Command was
    cancelled by user before it could start." and "Command cancelled by
    user."; it makes no call to the execution engine, so that no process
    is spawned, and it leaves the service untouched. *)
Theorem cancelled_before_start_spawns_nothing params o service :
  signal_aborted o = true →
  (execute h config params o service).1.2
    = returned
        {| llmContent := "Command was cancelled by user before it could start.";
           returnDisplay := "Command cancelled by user." |} ∧
  Forall (λ effect, spawns effect = false)
    (execute h config params o service).1.1 ∧
  (execute h config params o service).2 = service.
Proof.
  intros Hab. unfold execute. rewrite Hab. simpl.
  split; [done|]. split; [|done].
  rewrite app_nil_r.
  destruct (is_true (sandbox params) && _), (is_true (run_in_background params));
    simpl; repeat constructor.
Qed.

(** The text of the timeout path begins "Command exceeded": it is
    neither a "cancelled by user" narrative nor the report of a command
    that ran to its end, which begins "Command: ". *)
Lemma timeout_is_not_cancel params (partial : string) h' commandToExecute
    pids r' :
  "Command exceeded timeout of " +:+ Js.num (effectiveTimeout params)
    +:+ "ms and was terminated." +:+ NL +:+ "Partial output:" +:+ NL
    +:+ partial
  ≠ report_llmContent h' params commandToExecute pids r'.
Proof.
  unfold report_llmContent. destruct (aborted r'); simpl; discriminate.
Qed.

(** C9.  In a foreground execution that ran, the reason of a
    cancellation is read off the caller's signal after the result has
    arrived.  When the timer has fired and the caller never aborted, the
    result is the timeout message: "Command exceeded timeout of <n>ms
    and was terminated." with the partial output, displayed as "Command
    timed out after <n>ms", [n] being the effective timeout.  This text
    begins neither as the "cancelled by user" narrative nor as the
    report of a command that ran to its end ("Command: ..."), and it
    differs from every such text.  When the caller aborted, what is
    returned (without a summarizer) is not the timeout message, whether
    or not the timer fired as well: an aborted run is told as "Command
    was cancelled by user before it could complete." followed by the
    output or by " There was no output before it was cancelled.", and a
    run that was not aborted by the report that begins "Command: ". *)
Theorem timeout_distinguished params o service pid r :
  is_true (run_in_background params) = false →
  signal_aborted o = false →
  engine_handle o = resolved pid →
  result o = resolved r →
  let timed_out :=
    "Command exceeded timeout of " +:+ Js.num (effectiveTimeout params)
      +:+ "ms and was terminated." +:+ NL +:+ "Partial output:" +:+ NL
      +:+ (if Js.nonempty (output r) then output r
           else "(no output before timeout)") in
  (timer_fired o = true → signal_aborted_later o = false →
     (execute h config params o service).1.2
       = returned
           {| llmContent := timed_out;
              returnDisplay :=
                "Command timed out after " +:+ Js.num (effectiveTimeout params)
                  +:+ "ms" |} ∧
     Props.prefix_of "Command was cancelled by user" timed_out = false ∧
     Props.prefix_of "Command: " timed_out = false ∧
     ∀ h' commandToExecute pids r',
       timed_out ≠ report_llmContent h' params commandToExecute pids r') ∧
  (signal_aborted_later o = true → summarize config = None →
     ∃ reported,
       (execute h config params o service).1.2 = returned reported ∧
       llmContent reported ≠ timed_out ∧
       if aborted r then
         llmContent reported =
           "Command was cancelled by user before it could complete." +:+
           (if Js.nonempty (trim h (output r))
            then " Below is the output before it was cancelled:" +:+ NL
                   +:+ output r
            else " There was no output before it was cancelled.")
       else Props.prefix_of "Command: " (llmContent reported) = true).
Proof.
  intros Hfg Hentry Hhandle Hresult timed_out. split.
  - intros Htimer Hlater. split; [|split; [done|split; [done|]]].
    + unfold execute. rewrite Hfg, Hentry, Hhandle, Hresult, Htimer, Hlater.
      done.
    + intros. by apply timeout_is_not_cancel.
  - intros Hlater Hsum. unfold execute.
    rewrite Hfg, Hentry, Hhandle, Hresult, Hlater, Hsum.
    rewrite orb_true_r. simpl. eexists. split; [done|]. simpl. split.
    + intros Heq. symmetry in Heq. by apply timeout_is_not_cancel in Heq.
    + unfold report_llmContent. by destruct (aborted r).
Qed.

End execute_facts.

Lemma cancelled_before_start_witness :
  Shell.signal_aborted (Props.sample_oracle true false false) = true ∧
  (Shell.execute Props.toyHost Props.sample_config Props.sample_params
     (Props.sample_oracle true false false) BPS.getInstance).1.2
    = Shell.returned
        {| Shell.llmContent :=
             "Command was cancelled by user before it could start.";
           Shell.returnDisplay := "Command cancelled by user." |} ∧
  Forall (λ effect, Shell.spawns effect = false)
    (Shell.execute Props.toyHost Props.sample_config Props.sample_params
       (Props.sample_oracle true false false) BPS.getInstance).1.1 ∧
  (Shell.execute Props.toyHost Props.sample_config Props.sample_params
     (Props.sample_oracle true false false) BPS.getInstance).2
    = BPS.getInstance.
Proof.
  split; [reflexivity|].
  apply (cancelled_before_start_spawns_nothing Props.toyHost Props.sample_config
           Props.sample_params (Props.sample_oracle true false false)
           BPS.getInstance).
  reflexivity.
Defined.

Lemma timeout_distinguished_witness :
  Shell.timer_fired (Props.sample_oracle false true false) = true ∧
  Shell.signal_aborted_later (Props.sample_oracle false true false) = false ∧
  (Shell.execute Props.toyHost Props.sample_config Props.sample_params
     (Props.sample_oracle false true false) BPS.getInstance).1.2
    = Shell.returned
        {| Shell.llmContent :=
             "Command exceeded timeout of 10ms and was terminated."
               +:+ Shell.NL +:+ "Partial output:" +:+ Shell.NL
               +:+ "(no output before timeout)";
           Shell.returnDisplay := "Command timed out after 10ms" |} ∧
  ∃ reported,
    (Shell.execute Props.toyHost Props.sample_config Props.sample_params
       (Props.sample_oracle false false true) BPS.getInstance).1.2
      = Shell.returned reported ∧
    Shell.llmContent reported =
      "Command was cancelled by user before it could complete. There was no output before it was cancelled.".
Proof.
  split; [reflexivity|]. split; [reflexivity|]. split.
  - apply (proj1 (timeout_distinguished Props.toyHost Props.sample_config
                    Props.sample_params (Props.sample_oracle false true false)
                    BPS.getInstance (Some 4242) Props.sample_result
                    eq_refl eq_refl eq_refl eq_refl));
      reflexivity.
  - destruct (proj2 (timeout_distinguished Props.toyHost Props.sample_config
                       Props.sample_params
                       (Props.sample_oracle false false true)
                       BPS.getInstance (Some 4242) Props.sample_result
                       eq_refl eq_refl eq_refl eq_refl) eq_refl eq_refl)
      as (reported & Hreturned & _ & Hprefix).
    exists reported. split; [exact Hreturned | exact Hprefix].
Defined.

(** ** Properties of a background launch *)

Section launch_facts.
Import Shell Launch.
Variable h : Host.
Variable limit : Z.
Hypothesis limit_nonneg : 0 ≤ limit.

Lemma kept_app (a b : list string) :
  kept limit (kept limit a ++ b) = kept limit (a ++ b).
Proof.
  unfold kept, Js.splice0, Js.length.
  set (n := Z.to_nat (Z.of_nat (length a) - limit)).
  assert (n ≤ length a)%nat by lia.
  rewrite <- drop_app_within by done.
  rewrite drop_drop. f_equal.
  rewrite length_drop, !List.length_app. lia.
Qed.

Lemma appended_kept output process :
  BPS.outputBuffer (Props.appended limit output process) =
    kept limit (BPS.outputBuffer process ++ BPS.lines_of output).
Proof.
  unfold Props.appended, kept.
  destruct (limit <? _) eqn:E; simpl; [done|].
  apply Z.ltb_ge in E. unfold Js.splice0.
  replace (Z.to_nat _) with 0%nat by lia. done.
Qed.

(** The callback does nothing as long as its id is not registered. *)
Lemma callback_unregistered room s bashId (events : list ShellOutputEvent) :
  BPS.processes s !! bashId = None →
  foldl (λ s event, Throwing.background_callback_host room h bashId event s)
    s events = s.
Proof.
  intros Hnone. induction events as [|event events IH]; simpl; [done|].
  unfold Throwing.background_callback_host at 2, Throwing.addOutput_host,
    Throwing.addOutput_throws.
  by rewrite Hnone, (addOutput_unknown _ _ _ Hnone).
Qed.

(** The callback leaves the status of every record as it is. *)
Lemma callback_status room s bashId id (events : list ShellOutputEvent) :
  Props.status_of
    (foldl (λ s event, Throwing.background_callback_host room h bashId event s)
       s events) id
    = Props.status_of s id.
Proof.
  revert s. induction events as [|event events IH]; intros s; simpl; [done|].
  rewrite IH. unfold Throwing.background_callback_host, Throwing.addOutput_host.
  destruct (Throwing.addOutput_throws _ _ _ _); [done|].
  unfold Props.status_of.
  destruct (BPS.processes s !! bashId) as [process|] eqn:Hp.
  - rewrite (addOutput_known _ _ _ _ Hp). simpl.
    destruct (decide (id = bashId)) as [->|Hne].
    + rewrite lookup_insert_eq, Hp. unfold Props.appended.
      by destruct (Z.ltb _ _).
    + by rewrite lookup_insert_ne.
  - by rewrite (addOutput_unknown _ _ _ Hp).
Qed.

(** Once the id is registered, every call of the callback that returns
    reaches the buffer. *)
Lemma callback_registered room s bashId process
    (events : list ShellOutputEvent) :
  BPS.MAX_BUFFER_LINES s = limit →
  BPS.processes s !! bashId = Some process →
  Js.length (BPS.outputBuffer process) ≤ limit →
  Props.buffer_of
    (foldl (λ s event, Throwing.background_callback_host room h bashId event s)
       s events) bashId
    = Some
        (kept limit
           (BPS.outputBuffer process
              ++ Props.lines_of_all
                   (background_text h <$>
                      List.filter
                        (λ event,
                           Js.length (BPS.lines_of (background_text h event))
                             <=? room)
                        events))).
Proof.
  revert s process. induction events as [|event events IH];
    intros s process Hlimit Hp Hfit.
  - unfold Props.buffer_of, Props.lines_of_all. simpl. rewrite Hp. simpl.
    rewrite app_nil_r. unfold kept, Js.splice0.
    replace (Z.to_nat _) with 0%nat by lia. done.
  - cbn [foldl List.filter].
    unfold Throwing.background_callback_host at 2, Throwing.addOutput_host,
      Throwing.addOutput_throws.
    rewrite Hp.
    destruct (room <? _) eqn:Hroom;
      [apply Z.ltb_lt in Hroom | apply Z.ltb_ge in Hroom].
    + rewrite (proj2 (Z.leb_gt _ _)) by lia. by apply IH.
    + rewrite (proj2 (Z.leb_le _ _)) by lia.
      rewrite (IH _ (Props.appended limit (background_text h event) process)).
      * rewrite appended_kept.
        change (Props.lines_of_all (background_text h <$> event :: ?l))
          with (BPS.lines_of (background_text h event)
                  ++ Props.lines_of_all (background_text h <$> l)).
        by rewrite kept_app, <- app_assoc.
      * by rewrite addOutput_limit.
      * rewrite (addOutput_known _ _ _ _ Hp), Hlimit. simpl.
        apply lookup_insert_eq.
      * rewrite appended_kept. unfold kept.
        set (all := BPS.outputBuffer process ++ _).
        pose proof (js_length_nonneg all).
        destruct (decide (Js.length all ≤ limit)).
        -- unfold Js.splice0. replace (Z.to_nat _) with 0%nat by lia. done.
        -- rewrite js_length_splice0; lia.
Qed.


End launch_facts.



(** * Further properties *)

(** ** More properties of the service *)

Section more_service_facts.
Import BPS Props More Throwing.
Implicit Types (s : Service) (id consumerId output : string)
  (process : BackgroundProcess) (e : Event).
Variable RegExp : string → option (string → bool).

(** *** Offsets stay within the buffer *)

Lemma change_within limit id e process process' :
  0 ≤ limit →
  Change limit id e process process' →
  (∀ c i, lastReadIndex process !! c = Some i →
          0 ≤ i ≤ Js.length (outputBuffer process)) →
  ∀ c i, lastReadIndex process' !! c = Some i →
         0 ≤ i ≤ Js.length (outputBuffer process').
Proof.
  intros Hl Hc Hp.
  assert (∀ output q,
            (∀ c i, lastReadIndex q !! c = Some i →
                    0 ≤ i ≤ Js.length (outputBuffer q)) →
            ∀ c i, lastReadIndex (appended limit output q) !! c = Some i →
                   0 ≤ i ≤ Js.length (outputBuffer (appended limit output q)))
    as Happ.
  { intros output q Hq c i Hi.
    assert (∃ o, lastReadIndex q !! c = Some o) as [o Ho].
    { rewrite appended_limit_lookup in Hi.
      destruct (lastReadIndex q !! c); [eauto|].
      by destruct (limit <? _). }
    destruct (appended_unread limit output q c o
                (drop (Z.to_nat o) (outputBuffer q)) Hl Ho (Hq c o Ho))
      as (o' & Ho' & Hb & _); [done|].
    congruence. }
  inversion Hc; subst; simpl; eauto.
  - intros c i Hi. destruct (decide (consumerId = c)) as [->|Hne].
    + rewrite lookup_insert_eq in Hi. injection Hi as <-.
      pose proof (js_length_nonneg (outputBuffer process)). lia.
    + rewrite lookup_insert_ne in Hi by done. eauto.
Qed.

(** X1.  Whatever happens to a service whose buffer limit is not
    negative and whose read offsets lie between 0 and the length of their
    buffer, every consumer's read offset still lies between 0 and the
    length of its buffer afterwards. *)
Theorem offsets_stay_within s (es : list Event) :
  0 ≤ MAX_BUFFER_LINES s →
  offsets_within s →
  offsets_within (run RegExp s es).
Proof.
  revert s. induction es as [|e es IH]; intros s Hl Hs; [done|].
  unfold run. simpl. apply IH; [by rewrite step_limit|].
  intros id process' c i Hp Hi.
  destruct (registers id e) eqn:Hreg.
  - destruct (step_registered _ _ _ _ _ Hp Hreg) as (_ & _ & Hempty).
    rewrite Hempty, lookup_empty in Hi. done.
  - destruct (step_change _ _ _ _ _ Hp Hreg) as (process & Hq & Hc).
    eapply change_within; [exact Hl | exact Hc | | exact Hi].
    intros c' i' Hi'. by eapply Hs.
Qed.

(** *** What the buffer holds *)

Lemma split_nonempty (sep : ascii) (text : string) : Js.split sep text ≠ [].
Proof.
  destruct text as [|c rest]; simpl; [done|].
  destruct (Ascii.eqb c sep); [done|]. by destruct (Js.split sep rest).
Qed.

Lemma split_one_line (text piece : string) :
  piece ∈ Js.split Js.LF text → one_line piece = true.
Proof.
  revert piece. induction text as [|c rest IH]; intros piece; simpl.
  - intros H. by apply list_elem_of_singleton in H as ->.
  - destruct (Ascii.eqb c Js.LF) eqn:E.
    + intros H. apply elem_of_cons in H as [-> | H]; [done | by apply IH].
    + destruct (Js.split Js.LF rest) as [|first pieces]; intros H.
      * apply list_elem_of_singleton in H as ->. simpl. by rewrite E.
      * apply elem_of_cons in H as [-> | H].
        -- simpl. rewrite E. simpl. apply IH. by left.
        -- apply IH. by right.
Qed.

Lemma lines_of_clean output line :
  line ∈ lines_of output → Js.nonempty line = true ∧ one_line line = true.
Proof.
  unfold lines_of. intros H. apply list_elem_of_In, filter_In in H as [H ?].
  split; [done|]. apply (split_one_line output). by apply list_elem_of_In.
Qed.

Lemma appended_elem limit output process line :
  line ∈ outputBuffer (appended limit output process) →
  line ∈ outputBuffer process ∨ line ∈ lines_of output.
Proof.
  rewrite appended_kept. unfold Launch.kept, Js.splice0. intros H.
  apply subseteq_drop in H. by apply elem_of_app in H.
Qed.

Lemma change_clean limit id e process process' :
  Change limit id e process process' →
  (∀ line, line ∈ outputBuffer process →
           Js.nonempty line = true ∧ one_line line = true) →
  ∀ line, line ∈ outputBuffer process' →
          Js.nonempty line = true ∧ one_line line = true.
Proof.
  intros Hc Hp line Hline. inversion Hc; subst; simpl in *; eauto.
  - apply appended_elem in Hline as [H | H]; [eauto | by eapply lines_of_clean].
  - apply appended_elem in Hline as [H | H]; [eauto | by eapply lines_of_clean].
Qed.

(** X2.  Buffers stay clean: when every entry of every buffer is one
    line, not empty and without a line feed, this remains so whatever text
    the service is given and whatever else happens to it. *)
Theorem buffers_stay_clean s (es : list Event) :
  buffers_clean s → buffers_clean (run RegExp s es).
Proof.
  revert s. induction es as [|e es IH]; intros s Hs; [done|].
  unfold run. simpl. apply IH.
  intros id process' line Hp Hline.
  destruct (registers id e) eqn:Hreg.
  - destruct (step_registered _ _ _ _ _ Hp Hreg) as (_ & Hempty & _).
    rewrite Hempty in Hline. by apply elem_of_nil in Hline.
  - destruct (step_change _ _ _ _ _ Hp Hreg) as (process & Hq & Hc).
    eapply change_clean; [exact Hc | | exact Hline].
    intros l Hl. by eapply Hs.
Qed.

(** *** A run of appends *)

Lemma appendAll_known s id process (outputs : list string) :
  0 ≤ MAX_BUFFER_LINES s →
  processes s !! id = Some process →
  ∃ process',
    processes (appendAll s id outputs) !! id = Some process' ∧
    (outputs ≠ [] ∨ Js.length (outputBuffer process) ≤ MAX_BUFFER_LINES s →
     outputBuffer process' =
       Launch.kept (MAX_BUFFER_LINES s)
         (outputBuffer process ++ lines_of_all outputs)) ∧
    (Js.length (outputBuffer process) + Js.length (lines_of_all outputs)
       ≤ MAX_BUFFER_LINES s →
     process' =
       set_outputBuffer (outputBuffer process ++ lines_of_all outputs) process).
Proof.
  revert s process. induction outputs as [|output outputs IH]; intros s process Hl Hp.
  - exists process. split; [done|]. unfold lines_of_all. simpl.
    rewrite app_nil_r. split.
    + intros [? | Hle]; [done|]. unfold Launch.kept, Js.splice0.
      replace (Z.to_nat _) with 0%nat by lia. done.
    + intros _. by destruct process.
  - unfold appendAll. simpl. fold (appendAll (addOutput s id output) id outputs).
    destruct (IH (addOutput s id output)
                (appended (MAX_BUFFER_LINES s) output process))
      as (process' & Hp' & Hkept & Hexact).
    { by rewrite addOutput_limit. }
    { rewrite (addOutput_known _ _ _ _ Hp). simpl. apply lookup_insert_eq. }
    rewrite addOutput_limit in Hkept, Hexact.
    exists process'. split; [done|].
    assert (lines_of_all (output :: outputs)
            = lines_of output ++ lines_of_all outputs) as -> by done.
    split.
    + intros _. rewrite Hkept.
      * rewrite appended_kept, kept_app by done. by rewrite app_assoc.
      * right. rewrite appended_kept. unfold Launch.kept.
        set (all := outputBuffer process ++ lines_of output).
        pose proof (js_length_nonneg all).
        destruct (decide (Js.length all ≤ MAX_BUFFER_LINES s)).
        -- unfold Js.splice0. replace (Z.to_nat _) with 0%nat by lia. done.
        -- rewrite js_length_splice0; lia.
    + rewrite js_length_app. intros Hle.
      pose proof (js_length_nonneg (lines_of_all outputs)).
      pose proof (js_length_nonneg (lines_of output)).
      assert (appended (MAX_BUFFER_LINES s) output process
              = set_outputBuffer (outputBuffer process ++ lines_of output) process)
        as Hone.
      { unfold appended. rewrite js_length_app.
        destruct (_ <? _) eqn:E; [apply Z.ltb_lt in E; lia | done]. }
      rewrite Hexact.
      * rewrite Hone. simpl. by rewrite app_assoc.
      * rewrite Hone. simpl. rewrite js_length_app. lia.
Qed.

Lemma appendAll_host_fits room s id (outputs : list string) :
  Forall (λ output, Js.length (lines_of output) ≤ room) outputs →
  appendAll_host room s id outputs = Some (appendAll s id outputs).
Proof.
  intros Hfit. revert s.
  induction Hfit as [|output outputs Hle _ IH]; intros s; [done|].
  cbn [appendAll_host]. unfold addOutput_host, addOutput_throws.
  destruct (processes s !! id);
    [rewrite (proj2 (Z.ltb_ge _ _)) by lia|]; apply IH.
Qed.

Lemma appendAll_host_overflow room s id process (outputs : list string) :
  processes s !! id = Some process →
  Exists (λ output, room < Js.length (lines_of output)) outputs →
  appendAll_host room s id outputs = None.
Proof.
  intros Hp Hex. revert s process Hp.
  induction Hex as [output outputs Hlt|output outputs _ IH];
    intros s process Hp; cbn [appendAll_host];
    unfold addOutput_host, addOutput_throws; rewrite Hp.
  - by rewrite (proj2 (Z.ltb_lt _ _)) by lia.
  - destruct (room <? _); [done|].
    eapply IH. rewrite (addOutput_known _ _ _ _ Hp). simpl.
    apply lookup_insert_eq.
Qed.

(** X3.  The buffer keeps exactly the most recent lines.  Take a run of
    [addOutput] calls on a registered process whose buffer was within the
    limit.  When no call hands over more lines than fit into one call of
    [push], every call returns, and the buffer is then what the old
    buffer followed by all non-empty lines of the run has beyond its
    oldest overflow, that is, its last [MAX_BUFFER_LINES] lines.  When
    some call hands over more, the run ends in the exception of the
    first such call. *)
Theorem buffer_keeps_latest room s id process (outputs : list string) :
  0 ≤ MAX_BUFFER_LINES s →
  processes s !! id = Some process →
  Js.length (outputBuffer process) ≤ MAX_BUFFER_LINES s →
  (Forall (λ output, Js.length (lines_of output) ≤ room) outputs →
   ∃ s', appendAll_host room s id outputs = Some s' ∧
         buffer_of s' id =
           Some (drop
                   (Z.to_nat
                      (Js.length (outputBuffer process ++ lines_of_all outputs)
                       - MAX_BUFFER_LINES s))
                   (outputBuffer process ++ lines_of_all outputs))) ∧
  (Exists (λ output, room < Js.length (lines_of output)) outputs →
   appendAll_host room s id outputs = None).
Proof.
  intros Hl Hp Hle. split.
  - intros Hfit. exists (appendAll s id outputs).
    split; [by apply appendAll_host_fits|].
    destruct (appendAll_known s id process outputs Hl Hp)
      as (process' & Hp' & Hkept & _).
    unfold buffer_of. rewrite Hp'. simpl. rewrite Hkept by (by right). done.
  - by apply (appendAll_host_overflow room s id process).
Qed.

Lemma getNewOutput_advanced s id consumerId filter process :
  processes s !! id = Some process →
  error (getNewOutput RegExp s id consumerId filter).1 = None →
  (getNewOutput RegExp s id consumerId filter).2
    = store id (polled consumerId process) s.
Proof.
  intros Hp. unfold getNewOutput. rewrite Hp.
  destruct filter as [pattern|]; [|done].
  destruct (Js.nonempty pattern); [|done].
  by destruct (RegExp pattern).
Qed.

(** X4.  Without eviction nothing is lost or repeated: when a consumer's
    poll has succeeded and the lines appended since fit into the buffer,
    the consumer's next poll without a filter returns exactly those lines,
    in order. *)
Theorem poll_returns_appended s id consumerId filter process
    (later : list string) :
  processes s !! id = Some process →
  error (getNewOutput RegExp s id consumerId filter).1 = None →
  Js.length (outputBuffer process) + Js.length (lines_of_all later)
    ≤ MAX_BUFFER_LINES s →
  output
    (getNewOutput RegExp
       (appendAll (getNewOutput RegExp s id consumerId filter).2 id later)
       id consumerId None).1
    = lines_of_all later.
Proof.
  intros Hp Hok Hle. rewrite (getNewOutput_advanced _ _ _ _ _ Hp Hok).
  pose proof (js_length_nonneg (outputBuffer process)).
  pose proof (js_length_nonneg (lines_of_all later)).
  destruct (appendAll_known (store id (polled consumerId process) s) id
              (polled consumerId process) later)
    as (process' & Hp' & _ & Hexact); simpl; [lia | apply lookup_insert_eq |].
  rewrite (getNewOutput_plain _ _ _ _ _ Hp'). simpl.
  rewrite Hexact by (simpl; lia). simpl.
  rewrite lookup_insert_eq. rewrite or_number_default. simpl.
  rewrite slice_drop by lia. unfold Js.length. rewrite Nat2Z.id.
  by rewrite drop_app_length.
Qed.

(** *** Consumers do not disturb each other *)

Lemma getNewOutput_result s id consumerId filter :
  (getNewOutput RegExp s id consumerId filter).1 =
    match processes s !! id with
    | None =>
        {| output := []; poll_status := "not_found";
           poll_exitCode := exit_undefined;
           error := Some ("No background process found with ID: " +:+ id) |}
    | Some process =>
        let unread :=
          Js.slice (Js.or_number (lastReadIndex process !! consumerId) 0)
            (outputBuffer process) in
        let compiled :=
          match filter with
          | Some pattern =>
              if Js.nonempty pattern then Some (RegExp pattern) else None
          | None => None
          end in
        match compiled with
        | Some None =>
            {| output := []; poll_status := status_string (status process);
               poll_exitCode := exitCode process;
               error := Some ("Invalid regex filter: " +:+ default "" filter) |}
        | Some (Some regex) =>
            {| output := List.filter regex unread;
               poll_status := status_string (status process);
               poll_exitCode := exitCode process; error := None |}
        | None =>
            {| output := unread; poll_status := status_string (status process);
               poll_exitCode := exitCode process; error := None |}
        end
    end.
Proof.
  unfold getNewOutput. destruct (processes s !! id) as [process|]; [|done].
  destruct filter as [pattern|]; [|done]. simpl.
  destruct (Js.nonempty pattern); [|done]. by destruct (RegExp pattern).
Qed.

(** X5.  Consumers are independent: a poll by one consumer, on any
    process and with any filter, changes neither what a poll by another
    consumer returns nor that consumer's offset. *)
Theorem consumers_independent s id consumerId filter id' consumerId' filter' :
  consumerId ≠ consumerId' →
  let s' := (getNewOutput RegExp s id consumerId filter).2 in
  (getNewOutput RegExp s' id' consumerId' filter').1
    = (getNewOutput RegExp s id' consumerId' filter').1 ∧
  offset_of s' id' consumerId' = offset_of s id' consumerId'.
Proof.
  intros Hne s'. rewrite !getNewOutput_result. unfold offset_of.
  destruct (processes s !! id) as [process|] eqn:Hp.
  - destruct (getNewOutput_known RegExp s id consumerId filter process Hp)
      as [E | E]; unfold s'; rewrite E; [done|]. simpl.
    destruct (decide (id = id')) as [<-|Hid].
    + rewrite lookup_insert_eq, Hp. simpl.
      by rewrite lookup_insert_ne by done.
    + by rewrite lookup_insert_ne by done.
  - unfold s'. by rewrite getNewOutput_unknown.
Qed.

(** *** Output may arrive in pieces *)

Lemma split_app (a b : string) :
  Js.split Js.LF (a +:+ String Js.LF b) = Js.split Js.LF a ++ Js.split Js.LF b.
Proof.
  induction a as [|c a IH]; simpl; [done|].
  destruct (Ascii.eqb c Js.LF); [by rewrite IH|].
  rewrite IH. pose proof (split_nonempty Js.LF a).
  by destruct (Js.split Js.LF a).
Qed.

Lemma lines_of_app (a b : string) :
  lines_of (a +:+ String Js.LF b) = lines_of a ++ lines_of b.
Proof. unfold lines_of. by rewrite split_app, List.filter_app. Qed.

Lemma appended_twice limit a b process :
  0 ≤ limit →
  appended limit b (appended limit a process)
    = appended limit (a +:+ String Js.LF b) process.
Proof.
  intros Hl.
  set (buf := outputBuffer process). set (A := lines_of a). set (B := lines_of b).
  pose proof (js_length_nonneg buf). pose proof (js_length_nonneg A).
  pose proof (js_length_nonneg B).
  assert (Js.length (buf ++ A) = Js.length buf + Js.length A) as HlenA
    by apply js_length_app.
  assert (Js.length (buf ++ A ++ B) = Js.length buf + Js.length A + Js.length B)
    as HlenAB by (rewrite !js_length_app; lia).
  unfold appended at 2. fold buf A.
  unfold appended at 2. rewrite lines_of_app. fold buf A B.
  destruct (limit <? Js.length (buf ++ A)) eqn:E1;
    [apply Z.ltb_lt in E1 | apply Z.ltb_ge in E1].
  - assert ((limit <? Js.length (buf ++ A ++ B)) = true) as ->
      by (apply Z.ltb_lt; lia).
    unfold appended. simpl. fold B.
    rewrite js_length_app, js_length_splice0 by lia.
    destruct (limit <? _) eqn:E2;
      [apply Z.ltb_lt in E2 | apply Z.ltb_ge in E2]; simpl.
    + unfold set_lastReadIndex, set_outputBuffer. simpl. f_equal.
      * unfold Js.splice0.
        rewrite <- (drop_app_within _ (buf ++ A) B)
          by (unfold Js.length in *; lia).
        rewrite drop_drop, <- app_assoc.
        apply (f_equal (λ n, drop n (buf ++ A ++ B))). lia.
      * rewrite <- map_fmap_compose. apply map_fmap_ext. intros c i _. simpl.
        lia.
    + assert (B = []) as ->.
      { destruct B; [done|]. unfold Js.length in E2. simpl in E2. lia. }
      by rewrite !app_nil_r.
  - unfold appended. simpl. fold B. rewrite <- app_assoc. done.
Qed.

Lemma addOutput_twice s id (a b : string) :
  0 ≤ MAX_BUFFER_LINES s →
  addOutput (addOutput s id a) id b = addOutput s id (a +:+ String Js.LF b).
Proof.
  intros Hl. destruct (processes s !! id) as [process|] eqn:Hp.
  - rewrite (addOutput_known s id a process Hp).
    rewrite (addOutput_known s id _ process Hp).
    erewrite addOutput_known by (simpl; apply lookup_insert_eq).
    simpl. rewrite (appended_twice _ a b process Hl).
    unfold store, set_processes. simpl. by rewrite insert_insert_eq.
  - rewrite (addOutput_unknown s id a Hp), (addOutput_unknown s id b Hp).
    by rewrite (addOutput_unknown s id _ Hp).
Qed.

(** X6.  Output may arrive in one piece or in two: whenever appending two
    texts joined by a line feed returns, appending the one text and then
    the other returns as well and leaves the service exactly the same.
    (The other way round it may fail: two pieces that each fit into a
    call of [push] need not fit into one call together.) *)
Theorem addOutput_in_pieces room s id (a b : string) s' :
  0 ≤ MAX_BUFFER_LINES s →
  addOutput_host room s id (a +:+ String Js.LF b) = Some s' →
  ∃ s1, addOutput_host room s id a = Some s1 ∧
        addOutput_host room s1 id b = Some s'.
Proof.
  intros Hl. unfold addOutput_host at 1, addOutput_throws.
  destruct (processes s !! id) as [process|] eqn:Hp.
  - destruct (room <? _) eqn:Hroom; [done|]. intros [= <-].
    apply Z.ltb_ge in Hroom. rewrite lines_of_app, js_length_app in Hroom.
    pose proof (js_length_nonneg (lines_of a)).
    pose proof (js_length_nonneg (lines_of b)).
    exists (addOutput s id a). unfold addOutput_host, addOutput_throws.
    rewrite Hp, (proj2 (Z.ltb_ge _ _)) by lia. split; [done|].
    rewrite (addOutput_known s id a process Hp) at 1. simpl.
    rewrite lookup_insert_eq, (proj2 (Z.ltb_ge _ _)) by lia.
    by rewrite addOutput_twice.
  - intros [= <-]. exists s. unfold addOutput_host, addOutput_throws.
    rewrite Hp. by rewrite !addOutput_unknown.
Qed.

(** *** Cleanup timers *)

Lemma appended_meta limit output process :
  status (appended limit output process) = status process ∧
  endTime (appended limit output process) = endTime process.
Proof. unfold appended. by destruct (limit <? _). Qed.

Lemma addOutput_timers s id output :
  cleanupTimers (addOutput s id output) = cleanupTimers s ∧
  CLEANUP_TIMEOUT_MS (addOutput s id output) = CLEANUP_TIMEOUT_MS s.
Proof.
  destruct (processes s !! id) as [process|] eqn:Hp.
  - by rewrite (addOutput_known _ _ _ _ Hp).
  - by rewrite addOutput_unknown.
Qed.

Lemma step_cleanup_timeout s e :
  CLEANUP_TIMEOUT_MS (step RegExp s e) = CLEANUP_TIMEOUT_MS s.
Proof.
  destruct e as [id ? ? ? ? ?|id output|id c f|id code now|id msg now
                |id now u1 u2|k now|id|]; simpl; try done.
  - apply addOutput_timers.
  - destruct (processes s !! id) as [process|] eqn:H.
    + by destruct (getNewOutput_known RegExp s id c f process H) as [-> | ->].
    + by rewrite getNewOutput_unknown.
  - unfold markProcessCompleted. by destruct (processes s !! id).
  - unfold markProcessFailed. destruct (processes s !! id); [|done].
    simpl. by rewrite (proj2 (addOutput_timers _ _ _)).
  - unfold killProcess_begin. destruct (processes s !! id) as [process|] eqn:H; [|done].
    destruct (status process); try done.
    destruct (abortController process); [done|]. simpl.
    unfold markProcessTerminated. by rewrite H.
  - unfold markProcessTerminated. by destruct (processes s !! kp_id k).
  - unfold cleanup. by destruct (cleanupTimers s !! id).
Qed.

Lemma marked_effect s id id' process' (e : Event) (ended : Z) (s1 : Service) :
  processes s !! id' = Some process' →
  ∀ marked,
    status marked ≠ running → endTime marked = Some ended →
    processes s1 = <[id' := marked]> (processes s) →
    cleanupTimers s1 = <[id' := ended + CLEANUP_TIMEOUT_MS s]> (cleanupTimers s) →
    Effect_on s s1 id e.
Proof.
  intros Hp marked Hst Hend Hps Hts.
  destruct (decide (id' = id)) as [->|Hne].
  - eapply effect_ended; [done | | done | done |].
    + by rewrite Hps, lookup_insert_eq.
    + by rewrite Hts, lookup_insert_eq.
  - apply effect_none.
    + by rewrite Hps, lookup_insert_ne.
    + by rewrite Hts, lookup_insert_ne.
Qed.

Lemma kept_effect s id id' process (e : Event) (s1 : Service) :
  processes s !! id' = Some process →
  ∀ changed,
    status changed = status process → endTime changed = endTime process →
    processes s1 = <[id' := changed]> (processes s) →
    cleanupTimers s1 = cleanupTimers s →
    Effect_on s s1 id e.
Proof.
  intros Hp changed Hst Hend Hps Hts.
  destruct (decide (id' = id)) as [->|Hne].
  - eapply effect_kept; [done | | done | done | by rewrite Hts].
    by rewrite Hps, lookup_insert_eq.
  - apply effect_none; [by rewrite Hps, lookup_insert_ne | by rewrite Hts].
Qed.

Lemma step_effect s e id : Effect_on s (step RegExp s e) id e.
Proof.
  destruct e as [id' ? ? ? ? ?|id' output|id' c f|id' code now|id' msg now
                |id' now u1 u2|k now|id'|]; simpl.
  - destruct (decide (id' = id)) as [->|Hne].
    + eapply effect_registered;
        [by apply bool_decide_eq_true | simpl; apply lookup_insert_eq
        | done | done].
    + apply effect_none; [|done]. simpl. by rewrite lookup_insert_ne.
  - destruct (processes s !! id') as [q|] eqn:Hq.
    + eapply (kept_effect s id id' q); [done | | | | ].
      * apply (proj1 (appended_meta (MAX_BUFFER_LINES s) output q)).
      * apply (proj2 (appended_meta (MAX_BUFFER_LINES s) output q)).
      * by rewrite (addOutput_known _ _ _ _ Hq).
      * apply addOutput_timers.
    + rewrite addOutput_unknown by done. by apply effect_none.
  - destruct (processes s !! id') as [q|] eqn:Hq.
    + destruct (getNewOutput_known RegExp s id' c f q Hq) as [-> | ->];
        [by apply effect_none|].
      by eapply (kept_effect s id id' q _ _ Hq (polled c q)).
    + rewrite getNewOutput_unknown by done. by apply effect_none.
  - unfold markProcessCompleted.
    destruct (processes s !! id') as [q|] eqn:Hq; [|by apply effect_none].
    by eapply (marked_effect s id id' q _ now _ Hq (marked_completed code now q)).
  - destruct (processes s !! id') as [q|] eqn:Hq.
    + eapply (marked_effect s id id' q _ now _ Hq
                (marked_failed (MAX_BUFFER_LINES s) msg now q)).
      * unfold marked_failed. by rewrite (proj1 (appended_meta _ _ _)).
      * unfold marked_failed. by rewrite (proj2 (appended_meta _ _ _)).
      * apply (markProcessFailed_known _ _ _ _ _ Hq).
      * unfold markProcessFailed. rewrite Hq. simpl.
        by rewrite (proj1 (addOutput_timers _ _ _)), (proj2 (addOutput_timers _ _ _)).
    + unfold markProcessFailed. rewrite Hq. by apply effect_none.
  - unfold killProcess_begin.
    destruct (processes s !! id') as [q|] eqn:Hq; [|by apply effect_none].
    destruct (status q) eqn:Hst; try (by apply effect_none).
    destruct (abortController q) eqn:Hac; simpl.
    + by eapply (kept_effect s id id' q _ _ Hq (abort_sent q)).
    + eapply (marked_effect s id id' q _ now _ Hq
                (marked_terminated "SIGTERM" now q)); try done.
      * apply (markProcessTerminated_known _ _ _ _ _ Hq).
      * unfold markProcessTerminated. by rewrite Hq.
  - unfold killProcess_resume, kill_finish. simpl.
    destruct (processes s !! kp_id k) as [q|] eqn:Hq.
    + eapply (marked_effect s id (kp_id k) q _ now _ Hq
                (marked_terminated _ now q)); try done.
      * apply (markProcessTerminated_known _ _ _ _ _ Hq).
      * unfold markProcessTerminated. by rewrite Hq.
    + unfold markProcessTerminated. rewrite Hq. by apply effect_none.
  - unfold cleanup. destruct (cleanupTimers s !! id') eqn:Ht;
      [|by apply effect_none]. simpl.
    destruct (decide (id' = id)) as [->|Hne].
    + apply effect_removed; simpl; apply lookup_delete_eq.
    + apply effect_none; simpl; by rewrite lookup_delete_ne.
  - by apply effect_removed.
Qed.

Lemma step_keeps_scheduled s e :
  cleanup_scheduled s → cleanup_scheduled (step RegExp s e).
Proof.
  intros [Hterminal Htimers]. split.
  - intros id process' Hp' Hst'. rewrite step_cleanup_timeout.
    destruct (step_effect s e id) as [Hp Ht|p q Hp Hq Hst Hend Ht
                                     |p q ended Hp Hq Hst Hend Ht
                                     |q Hreg Hq Hst Ht|Hnone Ht].
    + rewrite Ht. apply Hterminal; [by rewrite <- Hp | done].
    + assert (q = process') as -> by congruence.
      rewrite Hend, Ht. apply (Hterminal id p Hp). by rewrite <- Hst.
    + assert (q = process') as -> by congruence. eauto.
    + assert (q = process') as -> by congruence. done.
    + congruence.
  - intros id due Hdue.
    destruct (step_effect s e id) as [Hp Ht|p q Hp Hq Hst Hend Ht
                                     |p q ended Hp Hq Hst Hend Ht
                                     |q Hreg Hq Hst Ht|Hnone Ht]; eauto.
    + rewrite Hp. apply (Htimers id due). by rewrite <- Ht.
    + congruence.
Qed.

Lemma scheduled_unless_failed s :
  cleanup_scheduled s → cleanup_scheduled_unless_failed s.
Proof.
  intros [Hterminal Htimers]. split; [|done].
  intros id process Hp Hst.
  destruct (Hterminal id process Hp Hst) as (ended & Hend & Hdue). eauto.
Qed.

Lemma step_keeps_unless_failed s e :
  cleanup_scheduled_unless_failed s →
  cleanup_scheduled_unless_failed (step RegExp s e).
Proof.
  intros [Hterminal Htimers]. split.
  - intros id process' Hp' Hst'. rewrite step_cleanup_timeout.
    destruct (step_effect s e id) as [Hp Ht|p q Hp Hq Hst Hend Ht
                                     |p q ended Hp Hq Hst Hend Ht
                                     |q Hreg Hq Hst Ht|Hnone Ht].
    + rewrite Ht. apply Hterminal; [by rewrite <- Hp | done].
    + assert (q = process') as -> by congruence.
      rewrite Hend, Ht, Hst. apply (Hterminal id p Hp). by rewrite <- Hst.
    + assert (q = process') as -> by congruence. eauto.
    + assert (q = process') as -> by congruence. done.
    + congruence.
  - intros id due Hdue.
    destruct (step_effect s e id) as [Hp Ht|p q Hp Hq Hst Hend Ht
                                     |p q ended Hp Hq Hst Hend Ht
                                     |q Hreg Hq Hst Ht|Hnone Ht]; eauto.
    + rewrite Hp. apply (Htimers id due). by rewrite <- Ht.
    + congruence.
Qed.

Lemma unreported_keeps_unless_failed s id now :
  cleanup_scheduled_unless_failed s →
  cleanup_scheduled_unless_failed (failed_unreported s id now).
Proof.
  intros [Hterminal Htimers]. unfold failed_unreported.
  destruct (processes s !! id) as [process|] eqn:Hp; [|done]. split.
  - intros id' process' Hp' Hst'. simpl in *.
    destruct (decide (id' = id)) as [->|Hne].
    + rewrite lookup_insert_eq in Hp'. injection Hp' as <-.
      exists now. split; [done|]. intros Hfailed. by destruct Hfailed.
    + rewrite lookup_insert_ne in Hp' by done. by apply Hterminal.
  - intros id' due Hdue. simpl in *.
    destruct (decide (id' = id)) as [->|Hne].
    + by rewrite lookup_insert_eq.
    + rewrite lookup_insert_ne by done. by apply (Htimers id' due).
Qed.

Lemma step_host_returns room s happening :
  failure_reported room happening = true →
  ∃ e, happening = happens e ∧
       (step_host RegExp room s happening = step RegExp s e ∨
        step_host RegExp room s happening = s).
Proof.
  destruct happening as [e|id now]; [|done]. intros Hfit. exists e.
  split; [done|].
  destruct e as [| id' output | | | id' message now | | | |];
    try (by left); simpl in *.
  - unfold addOutput_host. destruct (addOutput_throws _ _ _ _); auto.
  - unfold addOutput_throws.
    destruct (processes s !! id'); [|by left].
    apply Z.leb_le in Hfit. rewrite (proj2 (Z.ltb_ge _ _)) by lia. by left.
Qed.

Lemma step_host_keeps_unless_failed room s happening :
  cleanup_scheduled_unless_failed s →
  cleanup_scheduled_unless_failed (step_host RegExp room s happening).
Proof.
  intros Hs. destruct happening as [e|id now];
    [|by apply unreported_keeps_unless_failed].
  destruct e as [| id' output | | | id' message now | | | |];
    try (by apply (step_keeps_unless_failed s _ Hs)); simpl.
  - unfold addOutput_host. destruct (addOutput_throws _ _ _ _); [done|].
    by apply (step_keeps_unless_failed s (ev_addOutput _ _) Hs).
  - destruct (addOutput_throws _ _ _ _);
      [by apply unreported_keeps_unless_failed|].
    by apply (step_keeps_unless_failed s (ev_result_rejected _ _ _) Hs).
Qed.

(** X7.  Cleanup stays scheduled.  Start from a service in which every
    record that is completed, failed or terminated has an end time and a
    pending cleanup timer due [CLEANUP_TIMEOUT_MS] after it, and in which
    no timer is pending for an id that is not registered.  Whatever
    happens, calls that throw included, every record that is not running
    keeps an end time, every completed or terminated record keeps its
    timer, and timers stay with registered ids; and as long as no failure
    report throws, all of the above holds afterwards, for the failed
    records too. *)
Theorem cleanup_stays_scheduled room s (happenings : list Happening) :
  cleanup_scheduled s →
  cleanup_scheduled_unless_failed (run_host RegExp room s happenings) ∧
  (Forall (λ happening, failure_reported room happening = true) happenings →
   cleanup_scheduled (run_host RegExp room s happenings)).
Proof.
  intros Hs. split.
  - apply scheduled_unless_failed in Hs. revert s Hs.
    induction happenings as [|happening happenings IH]; intros s Hs; [done|].
    unfold run_host. simpl. apply IH. by apply step_host_keeps_unless_failed.
  - intros Hfit. revert s Hs.
    induction Hfit as [|happening happenings Hfit _ IH]; intros s Hs; [done|].
    unfold run_host. simpl. apply IH.
    destruct (step_host_returns room s happening Hfit) as (e & _ & [-> | ->]);
      [by apply step_keeps_scheduled | done].
Qed.

Lemma step_keeps_idle s e :
  cleanup_scheduled s →
  idle_while_running s →
  registrations_fresh RegExp s [e] →
  idle_while_running (step RegExp s e).
Proof.
  intros [_ Htimers] Hidle [Hfresh _] id process' Hp' Hst'.
  destruct (step_effect s e id) as [Hp Ht|p q Hp Hq Hst Hend Ht
                                   |p q ended Hp Hq Hst Hend Ht
                                   |q Hreg Hq Hst Ht|Hnone Ht].
  - rewrite Ht. apply (Hidle id process'); [by rewrite <- Hp | done].
  - assert (q = process') as -> by congruence.
    rewrite Ht. apply (Hidle id p Hp). by rewrite <- Hst.
  - congruence.
  - rewrite Ht. destruct e; simpl in Hreg; try done.
    apply bool_decide_eq_true in Hreg as ->.
    destruct (cleanupTimers s !! id) as [due|] eqn:Hdue; [|done].
    destruct (Htimers id due Hdue) as [? ?]. congruence.
  - congruence.
Qed.

(** X8.  A running process is never evicted.  Start from a service in
    which cleanup is scheduled as above and no timer is pending for a
    running process; then, as long as ids are registered only while they
    are not registered, no cleanup timer is pending for a process that is
    still running, and the cleanup callback leaves a running record where
    it is. *)
Theorem running_not_evicted s (es : list Event) id process :
  cleanup_scheduled s →
  idle_while_running s →
  registrations_fresh RegExp s es →
  processes (run RegExp s es) !! id = Some process →
  status process = running →
  cleanupTimers (run RegExp s es) !! id = None ∧
  step RegExp (run RegExp s es) (ev_cleanup id) = run RegExp s es.
Proof.
  intros Hsched Hidle Hfresh Hp Hst.
  assert (idle_while_running (run RegExp s es)) as Hfinal.
  { clear Hp. revert s Hsched Hidle Hfresh.
    induction es as [|e es IH]; intros s Hsched Hidle Hfresh; [done|].
    destruct Hfresh as [Hfresh Hrest]. unfold run. simpl. apply IH.
    - by apply step_keeps_scheduled.
    - by apply step_keeps_idle.
    - done. }
  pose proof (Hfinal id process Hp Hst) as Ht. split; [done|].
  simpl. unfold cleanup. by rewrite Ht.
Qed.

(** *** The grace window of [killProcess] *)

Lemma appended_codes limit output process :
  exitCode (appended limit output process) = exitCode process ∧
  terminationSignal (appended limit output process) = terminationSignal process.
Proof. unfold appended. by destruct (limit <? _). Qed.

Lemma quiet_step s e id process :
  reading_or_writing e = true →
  processes s !! id = Some process →
  ∃ process', processes (step RegExp s e) !! id = Some process' ∧
              status process' = status process ∧
              terminationSignal process' = terminationSignal process.
Proof.
  intros He Hp.
  assert (registers id e = false) as Hreg by (by destruct e).
  assert (evicts id e = false) as Hev by (by destruct e).
  destruct (step_keeps RegExp s e id process Hp Hev) as [process' Hp'].
  exists process'. split; [done|].
  destruct (step_change RegExp _ _ _ _ Hp' Hreg) as (q & Hq & Hc).
  assert (q = process) as -> by congruence.
  inversion Hc; subst; try done.
  split; [apply (proj1 (appended_meta _ _ _)) |
          apply (proj2 (appended_codes _ _ _))].
Qed.

Lemma quiet_run s (es : list Event) id process :
  Forall (λ e, reading_or_writing e = true) es →
  processes s !! id = Some process →
  ∃ process', processes (run RegExp s es) !! id = Some process' ∧
              status process' = status process ∧
              terminationSignal process' = terminationSignal process.
Proof.
  intros Hes. revert s process.
  induction Hes as [|e es He _ IH]; intros s process Hp; [eauto|].
  destruct (quiet_step s e id process He Hp) as (q & Hq & Hst & Hsig).
  destruct (IH _ _ Hq) as (process' & Hp' & Hst' & Hsig').
  exists process'. split; [done|]. split; congruence.
Qed.

(** X9.  What [killProcess] reports as its method.  With an abort
    controller: "SIGKILL (forced)" when only output and polls arrive
    during the grace window, so that the record is still running at its
    end, and "SIGTERM" when the result resolves inside the window.
    Without an abort controller: "SIGTERM" at once, whatever would have
    happened during a window. *)
Theorem kill_reports_method s id process now u1 u2 later :
  processes s !! id = Some process →
  status process = running →
  (is_Some (abortController process) →
   (∀ during,
      Forall (λ e, reading_or_writing e = true) during →
      terminationMethod (killProcess RegExp s id now u1 u2 during later).1
        = Some "SIGKILL (forced)") ∧
   (∀ before code settled after,
      Forall (λ e, reading_or_writing e = true) before →
      Forall (λ e, reading_or_writing e = true) after →
      terminationMethod
        (killProcess RegExp s id now u1 u2
           (before ++ ev_result_resolved id code settled :: after) later).1
        = Some "SIGTERM")) ∧
  (abortController process = None →
   ∀ during,
     killProcess RegExp s id now u1 u2 during later
       = killProcess RegExp s id now u1 u2 [] later ∧
     terminationMethod (killProcess RegExp s id now u1 u2 during later).1
       = Some "SIGTERM").
Proof.
  intros Hp Hst. split.
  - intros [ac Hac].
    assert (∀ during,
              killProcess RegExp s id now u1 u2 during later =
                killProcess_resume
                  (run RegExp (store id (abort_sent process) s) during)
                  (kill_locals id process now u1 u2) later) as Hkill.
    { intros during. unfold killProcess, killProcess_begin.
      by rewrite Hp, Hst, Hac. }
    assert (processes (store id (abort_sent process) s) !! id
            = Some (abort_sent process)) as Hsent
      by (simpl; apply lookup_insert_eq).
    split.
    + intros during Hduring. rewrite Hkill.
      destruct (quiet_run _ during id _ Hduring Hsent) as (q & Hq & Hstq & _).
      unfold killProcess_resume, kill_finish. simpl. rewrite Hq.
      simpl in Hstq. rewrite Hstq, Hst. done.
    + intros before code settled after Hbefore Hafter. rewrite Hkill.
      destruct (quiet_run _ before id _ Hbefore Hsent) as (q & Hq & _ & _).
      unfold run. rewrite foldl_app. simpl.
      fold (run RegExp (store id (abort_sent process) s) before).
      set (resolved :=
             markProcessCompleted
               (run RegExp (store id (abort_sent process) s) before)
               id code settled).
      assert (processes resolved !! id = Some (marked_completed code settled q))
        as Hres.
      { unfold resolved, markProcessCompleted. rewrite Hq. simpl.
        apply lookup_insert_eq. }
      destruct (quiet_run resolved after id _ Hafter Hres) as (q' & Hq' & Hstq' & _).
      unfold killProcess_resume, kill_finish. simpl.
      unfold run in Hq'. rewrite Hq'. simpl in Hstq'. by rewrite Hstq'.
  - intros Hac during. unfold killProcess, killProcess_begin.
    by rewrite Hp, Hst, Hac.
Qed.

End more_service_facts.

(** ** Ids *)

Section id_facts.
Import BPS More.

Lemma pretty_N_char_free (x : N) : Ascii.eqb (pretty_N_char x) "_" = false.
Proof. unfold pretty_N_char. by repeat case_match. Qed.

Lemma pretty_N_go_free (x : N) (s : string) :
  free_of "_" s = true → free_of "_" (pretty_N_go x s) = true.
Proof.
  revert s. induction (N.lt_wf_0 x) as [x _ IH]; intros s Hs.
  destruct (decide (0 < x)%N) as [Hx|Hx].
  - rewrite pretty_N_go_step by done. apply IH.
    + by apply N.div_lt.
    + simpl. by rewrite pretty_N_char_free.
  - assert (x = 0%N) as -> by lia. by rewrite pretty_N_go_0.
Qed.

Lemma num_free (n : Z) : free_of "_" (Js.num n) = true.
Proof.
  unfold Js.num, pretty, pretty_Z.
  destruct n as [|p|p]; [done| |].
  - unfold pretty, pretty_N. by apply pretty_N_go_free.
  - simpl. unfold pretty, pretty_N. by apply pretty_N_go_free.
Qed.

Lemma separated_inj (a a' r r' : string) :
  free_of "_" a = true → free_of "_" a' = true →
  a +:+ String "_" r = a' +:+ String "_" r' → a = a' ∧ r = r'.
Proof.
  revert a'. induction a as [|c a IH]; intros [|c' a'] Ha Ha' H; simpl in *.
  - by injection H as ->.
  - injection H as <- _. by rewrite Ascii.eqb_refl in Ha'.
  - injection H as -> _. by rewrite Ascii.eqb_refl in Ha.
  - injection H as -> H. apply andb_true_iff in Ha as [_ Ha].
    apply andb_true_iff in Ha' as [_ Ha'].
    destruct (IH a' Ha Ha' H) as [-> ->]. done.
Qed.

(** X10.  Ids are as distinct as what they are made of: two calls of
    [generateId] give the same id only for the same timestamp and the same
    random text. *)
Theorem generateId_injective (timestamp timestamp' : Z) (random random' : string) :
  generateId timestamp random = generateId timestamp' random' →
  timestamp = timestamp' ∧ random = random'.
Proof.
  unfold generateId. intros H. simpl in H. injection H as H.
  destruct (separated_inj _ _ _ _ (num_free timestamp) (num_free timestamp') H)
    as [Hnum ->].
  split; [|done]. by apply (inj pretty) in Hnum.
Qed.

End id_facts.

(** ** More properties of [shell.ts] *)

Section more_shell_facts.
Import Shell More.
Variables (h : Host) (config : Config).
Implicit Types (params : ShellToolParams) (o : Oracle) (service : BPS.Service).

Lemma first_error_none (checks : list (option string)) :
  ShellTool.first_error checks = None → Forall (λ c, c = None) checks.
Proof.
  induction checks as [|[message|] checks IH]; simpl; [constructor | done |].
  intros H. constructor; [done | by apply IH].
Qed.

(** X11.  Parameters that pass [validateToolParamValues] carry an allowed,
    non-blank command with at least one root, and the timeout [execute]
    then uses is the requested one, which lies in (0, 600000], or 120000
    when none was requested. *)
Theorem validated_params (p : ShellTool.Policy) params :
  ShellTool.validateToolParamValues h p params = None →
  (ShellTool.isCommandAllowed p (command params)).1 = true ∧
  Js.nonempty (trim h (command params)) = true ∧
  ShellTool.getCommandRoots p (command params) ≠ [] ∧
  effectiveTimeout params = default 120000 (timeout params) ∧
  0 < effectiveTimeout params ≤ 600000.
Proof.
  intros H. apply first_error_none in H.
  apply Forall_cons in H as [Hallowed H]. apply Forall_cons in H as [Hblank H].
  apply Forall_cons in H as [Hroots H]. apply Forall_cons in H as [Htimeout _].
  split; [|split; [|split]].
  - unfold ShellTool.check_allowed in Hallowed.
    destruct (ShellTool.isCommandAllowed p (command params)) as [[|] reason];
      [done|]. destruct reason as [text|]; [|done]. by destruct (Js.nonempty text).
  - by destruct (Js.nonempty (trim h (command params))).
  - by destruct (ShellTool.getCommandRoots p (command params)).
  - unfold ShellTool.check_timeout in Htimeout. unfold effectiveTimeout.
    destruct (timeout params) as [t|]; simpl; [|lia].
    destruct (t <=? 0) eqn:E1; [done|]. destruct (600000 <? t) eqn:E2; [done|].
    apply Z.leb_gt in E1. apply Z.ltb_ge in E2.
    destruct (t =? 0) eqn:E3; [apply Z.eqb_eq in E3; lia|]. lia.
Qed.

Lemma count_app (test : Effect → bool) (l k : list Effect) :
  count test (l ++ k) = (count test l + count test k)%nat.
Proof. unfold count. by rewrite List.filter_app, List.length_app. Qed.

Lemma count_errors (test : Effect → bool) (f : string → string) (l : list string) :
  (∀ m, test (console_error m) = false) →
  count test ((λ line, console_error (f line)) <$> l) = 0%nat.
Proof.
  intros Ht. unfold count. induction l as [|x l IH]; simpl; [done|].
  by rewrite Ht.
Qed.

(** The effects of a call that is not cancelled on entry: what precedes
    the one call of the engine, what follows it, and the removal of the
    pgrep file. *)
Lemma execute_effects_shape params o service :
  signal_aborted o = false →
  ∃ before spawn after path,
    (execute h config params o service).1.1
      = before ++ [spawn] ++ after
          ++ (if tempFile o is Some _ then [unlink path] else []) ∧
    spawns spawn = true ∧
    (count spawns before = 0 ∧ count is_unlink before = 0 ∧
     count is_clearTimeout before = 0 ∧
     count is_setTimeout before
       = (if is_true (run_in_background params) then 0 else 1) ∧
     count is_addAbortListener before = 1 ∧
     count is_removeAbortListener before = 0)%nat ∧
    (count spawns after = 0 ∧ count is_unlink after = 0 ∧
     count is_setTimeout after = 0 ∧
     (if is_true (run_in_background params)
      then count is_clearTimeout after = 0
      else 1 ≤ count is_clearTimeout after) ∧
     count is_addAbortListener after = 0 ∧
     1 ≤ count is_removeAbortListener after)%nat.
Proof.
  intros Hentry. unfold execute. rewrite Hentry.
  set (entry := _ ++ _ ++ [addAbortListener]).
  assert ((count spawns entry = 0 ∧ count is_unlink entry = 0 ∧
           count is_clearTimeout entry = 0 ∧
           count is_setTimeout entry
             = (if is_true (run_in_background params) then 0 else 1) ∧
           count is_addAbortListener entry = 1 ∧
           count is_removeAbortListener entry = 0)%nat)
    as Hbefore.
  { unfold entry.
    destruct (is_true (sandbox params) && _),
      (is_true (run_in_background params)); rewrite ?count_app; unfold count; done. }
  set (path := path_join h _ _). set (cmd := if negb _ then _ else _).
  set (cwd := path_resolve h _ _).
  set (diagnostics := if negb _ then match tempFile o with
                                     | Some _ => _ | None => _ end else []).
  assert ((count spawns diagnostics = 0 ∧ count is_unlink diagnostics = 0 ∧
           count is_setTimeout diagnostics = 0 ∧
           count is_clearTimeout diagnostics = 0 ∧
           count is_addAbortListener diagnostics = 0 ∧
           count is_removeAbortListener diagnostics = 0)%nat)
    as (D1 & D2 & D3 & D4 & D5 & D6).
  { unfold diagnostics.
    destruct (negb _); [|done].
    destruct (tempFile o); [by rewrite !count_errors|].
    by destruct (signal_aborted_later o). }
  destruct (is_true (run_in_background params)) eqn:Hbg.
  - destruct (engine_handle o) as [pid|reason]; cbn [fst snd];
      exists entry, (engine_execute cmd cwd
                       (process_signal
                          (BPS.generateId (now o) (random_base36 o)))),
        [removeAbortListener], path;
      (split; [by destruct (tempFile o)|]); done.
  - destruct (engine_handle o) as [pid|reason].
    + destruct (result o) as [r|reason].
      * destruct (_ && negb (signal_aborted_later o)).
        -- exists entry, (engine_execute cmd cwd timeout_signal),
             [clearTimeout; removeAbortListener], path.
           cbn [fst snd]. split; [by destruct (tempFile o)|]. done.
        -- destruct (summarize config) as [budget|];
             [destruct (summary o) as [text|reason]|]; cbn [fst snd].
           ++ eexists entry, (engine_execute cmd cwd timeout_signal),
                ([clearTimeout; removeAbortListener] ++ diagnostics
                   ++ [summarizeToolOutput _ budget]), path.
              split; [rewrite <- !app_assoc; reflexivity|].
              split; [done|]. split; [done|].
              rewrite !count_app, D1, D2, D3, D4, D5, D6. unfold count. simpl.
              repeat split; lia.
           ++ eexists entry, (engine_execute cmd cwd timeout_signal),
                ([clearTimeout; removeAbortListener] ++ diagnostics
                   ++ [summarizeToolOutput _ budget]
                   ++ [clearTimeout; removeAbortListener]), path.
              split; [rewrite <- !app_assoc; reflexivity|].
              split; [done|]. split; [done|].
              rewrite !count_app, D1, D2, D3, D4, D5, D6. unfold count. simpl.
              repeat split; lia.
           ++ eexists entry, (engine_execute cmd cwd timeout_signal),
                ([clearTimeout; removeAbortListener] ++ diagnostics), path.
              split; [rewrite <- !app_assoc; reflexivity|].
              split; [done|]. split; [done|].
              rewrite !count_app, D1, D2, D3, D4, D5, D6. unfold count. simpl.
              repeat split; lia.
      * exists entry, (engine_execute cmd cwd timeout_signal),
          [clearTimeout; removeAbortListener], path.
        cbn [fst snd]. split; [by destruct (tempFile o)|]. done.
    + exists entry, (engine_execute cmd cwd timeout_signal),
        [clearTimeout; removeAbortListener], path.
      cbn [fst snd]. split; [by destruct (tempFile o)|]. done.
Qed.


(** X13.  The abort listener and the timer on every path.  A call that
    finds the signal aborted on entry adds and removes no listener; in the
    foreground it has by then set its timeout timer, which it never
    clears.  Any other call adds the listener once and removes it at least
    once before it returns or throws. *)
Theorem listener_and_timer_balance params o service :
  let effects := (execute h config params o service).1.1 in
  if signal_aborted o then
    count is_addAbortListener effects = 0%nat ∧
    count is_removeAbortListener effects = 0%nat ∧
    count is_clearTimeout effects = 0%nat ∧
    count is_setTimeout effects
      = (if is_true (run_in_background params) then 0 else 1)%nat
  else
    count is_addAbortListener effects = 1%nat ∧
    (1 ≤ count is_removeAbortListener effects)%nat.
Proof.
  intros effects. destruct (signal_aborted o) eqn:Hentry.
  - unfold effects, execute. rewrite Hentry. cbn [fst snd].
    by destruct (is_true (sandbox params) && _),
         (is_true (run_in_background params)).
  - destruct (execute_effects_shape params o service Hentry)
      as (before & spawn & after & path & Heffects & Hspawn
          & (_ & _ & _ & _ & B5 & B6) & (_ & _ & _ & _ & A5 & A6)).
    unfold effects. rewrite Heffects.
    assert (count is_addAbortListener [spawn] = 0 ∧
            count is_removeAbortListener [spawn] = 0)%nat as [S5 S6]
      by (by destruct spawn).
    rewrite !count_app, B5, B6, A5, S5, S6.
    destruct (tempFile o); unfold count in *; simpl; lia.
Qed.

End more_shell_facts.

(** ** The tools and the service together *)

Section tool_facts.
Import BPS Props More Throwing.
Variable RegExp : string → option (string → bool).

Lemma step_keeps_codes s e :
  codes_recorded s → codes_recorded (step RegExp s e).
Proof.
  intros Hs id process' Hp'.
  destruct (registers id e) eqn:Hreg.
  - destruct e; simpl in *; try done.
    apply bool_decide_eq_true in Hreg as ->.
    rewrite lookup_insert_eq in Hp'. by injection Hp' as <-.
  - destruct (step_change RegExp _ _ _ _ Hp' Hreg) as (process & Hp & Hc).
    destruct (Hs id process Hp) as [Hcompleted Hrunning].
    inversion Hc; subst; simpl; try done.
    + rewrite (proj1 (appended_meta _ _ _)), (proj2 (appended_meta _ _ _)),
        (proj1 (appended_codes _ _ _)), (proj2 (appended_codes _ _ _)). done.
    + split; [|done]. intros _. by destruct code.
    + unfold marked_failed. by rewrite (proj1 (appended_meta _ _ _)).
Qed.

(** X14.  Exit codes go with the status: along any run of events on a
    service where this holds, a completed record carries an exit code (a
    number or null, never an absent one), and a running record has no exit
    code, no end time and no termination signal. *)
Theorem codes_stay_recorded s (es : list Event) :
  codes_recorded s → codes_recorded (run RegExp s es).
Proof.
  revert s. induction es as [|e es IH]; intros s Hs; [done|].
  apply IH. by apply step_keeps_codes.
Qed.

Lemma quiet_alias s (es : list Event) id process :
  Forall (λ e, reading_or_writing e = true) es →
  processes s !! id = Some process →
  status (KillBash.alias RegExp s id process es) = status process.
Proof.
  intros Hes. revert s process.
  induction Hes as [|e es He _ IH]; intros s process Hp; [done|].
  simpl. assert (registers id e = false) as -> by (by destruct e).
  destruct (quiet_step RegExp s e id process He Hp) as (q & Hq & Hst & _).
  rewrite Hq. by rewrite (IH _ _ Hq).
Qed.

Lemma quiet_status s (es : list Event) id process :
  Forall (λ e, reading_or_writing e = true) es →
  processes s !! id = Some process →
  status_of (run RegExp s es) id = Some (status process).
Proof.
  intros Hes Hp. destruct (quiet_run RegExp s es id process Hes Hp)
    as (q & Hq & Hst & _).
  unfold status_of. rewrite Hq. simpl. by rewrite Hst.
Qed.

(** X15.  The verdict of the KillBash tool.  For a registered process,
    when only output and polls arrive while the call waits, the text the
    tool returns is the shell id, the message of [killProcess] and a
    status line that depends on the status the process had: "Success" for
    a running one, which is then terminated, and "Not Needed (Already
    Completed)", "Not Needed (Already Terminated)" or "Failed" for one
    that had ended, whose status is left as it was.  The display is the
    success notice, or the first line of the message. *)
Theorem kill_tool_verdict (params : KillBash.KillBashToolParams) service
    process now u1 u2 during later between :
  codes_recorded service →
  processes service !! KillBash.bash_id params = Some process →
  Forall (λ e, reading_or_writing e = true) during →
  Forall (λ e, reading_or_writing e = true) between →
  let id := KillBash.bash_id params in
  let killed := killProcess RegExp service id now u1 u2 during later in
  let told :=
    KillBash.execute RegExp params service now u1 u2 during later between in
  Shell.llmContent told.1 =
    "[Shell ID: " +:+ id +:+ "]" +:+ KillBash.NL +:+ message killed.1
      +:+ KillBash.NL +:+ KillBash.NL +:+ "Termination Status: "
      +:+ verdict (status process) ∧
  Shell.returnDisplay told.1 =
    (if decide (status process = running)
     then "Process " +:+ id +:+ " terminated successfully"
     else hd "" (Js.split Js.LF (message killed.1))) ∧
  told.2 = run RegExp killed.2 between ∧
  status_of told.2 id =
    Some (if decide (status process = running) then terminated
          else status process).
Proof.
  intros Hcodes Hp Hduring Hbetween. simpl.
  set (id := KillBash.bash_id params) in *.
  unfold KillBash.execute, killProcess, getProcess.
  fold id. rewrite Hp. unfold killProcess_begin. rewrite Hp.
  destruct (status process) eqn:Hst.
  - destruct (abortController process) as [ac|] eqn:Hac.
    + assert (processes (store id (abort_sent process) service) !! id
              = Some (abort_sent process)) as Hsent
        by (simpl; apply lookup_insert_eq).
      destruct (quiet_run RegExp _ during id _ Hduring Hsent) as (q & Hq & _ & _).
      unfold killProcess_resume, kill_finish. cbn [fst snd kp_id].
      do 3 (split; [done|]).
      apply (quiet_status _ _ _ (marked_terminated
               (match processes (run RegExp (store id (abort_sent process) service) during) !! id with
                | Some updatedProcess =>
                    if decide (status updatedProcess = running)
                    then "SIGKILL (forced)" else "SIGTERM"
                | None => "SIGTERM"
                end) later q) Hbetween).
      rewrite (markProcessTerminated_known _ _ _ _ _ Hq).
      apply lookup_insert_eq.
    + unfold kill_finish. cbn [fst snd success kp_id].
      do 3 (split; [done|]).
      apply (quiet_status _ _ _ (marked_terminated "SIGTERM" now process)
               Hbetween).
      rewrite (markProcessTerminated_known _ _ _ _ _ Hp).
      apply lookup_insert_eq.
  - destruct (Hcodes id process Hp) as [Hcode _]. specialize (Hcode Hst).
    cbn [fst snd success kill_exitCode message].
    rewrite bool_decide_eq_false_2 by done. cbn [negb].
    split; [done|]. split; [done|]. split; [done|].
    rewrite (quiet_status _ _ _ _ Hbetween Hp). by rewrite Hst.
  - cbn [fst snd success kill_exitCode message kill_failure].
    rewrite bool_decide_eq_true_2 by done. cbn [negb].
    rewrite Hp, (quiet_alias _ _ _ _ Hbetween Hp), Hst.
    rewrite bool_decide_eq_false_2 by done.
    split; [done|]. split; [done|]. split; [done|].
    rewrite (quiet_status _ _ _ _ Hbetween Hp). by rewrite Hst.
  - cbn [fst snd success kill_exitCode message kill_failure].
    rewrite bool_decide_eq_true_2 by done. cbn [negb].
    rewrite Hp, (quiet_alias _ _ _ _ Hbetween Hp), Hst.
    rewrite bool_decide_eq_true_2 by done.
    split; [done|]. split; [done|]. split; [done|].
    rewrite (quiet_status _ _ _ _ Hbetween Hp). by rewrite Hst.
Qed.

(** *** Background launches *)

Lemma append_empty (a : string) : a +:+ EmptyString = a.
Proof.
  induction a as [|c a IH]; [done | exact (f_equal (String c) IH)].
Qed.

Section launches.
Variables (h : Shell.Host) (config : Shell.Config).

Lemma execute_background (params : Shell.ShellToolParams) (o : Shell.Oracle)
    service pid :
  Shell.is_true (Shell.run_in_background params) = true →
  Shell.signal_aborted o = false →
  Shell.engine_handle o = Shell.resolved pid →
  let bashId := generateId (Shell.now o) (Shell.random_base36 o) in
  (Shell.execute h config params o service).1.2
    = Shell.returned (Shell.background_result params bashId pid) ∧
  (Shell.execute h config params o service).2
    = Shell.background_register params bashId pid (Shell.registered_at o)
        service.
Proof.
  intros Hbg Hentry Hhandle. unfold Shell.execute.
  by rewrite Hbg, Hentry, Hhandle.
Qed.

Lemma callbacks_append service bashId (events : list Shell.ShellOutputEvent) :
  foldl (λ s event, Shell.background_callback h bashId event s) service events
    = appendAll service bashId (Shell.background_text h <$> events).
Proof. unfold appendAll. by rewrite foldl_fmap. Qed.

Lemma lines_of_all_bound (outputs : list string) :
  Forall (λ output, Js.length (lines_of output)
                      ≤ Js.length (lines_of_all outputs)) outputs.
Proof.
  induction outputs as [|output outputs IH]; [done|].
  change (lines_of_all (output :: outputs))
    with (lines_of output ++ lines_of_all outputs).
  rewrite js_length_app.
  pose proof (js_length_nonneg (lines_of output)).
  pose proof (js_length_nonneg (lines_of_all outputs)).
  constructor; [lia|].
  eapply Forall_impl; [exact IH|]. simpl. intros. lia.
Qed.

Lemma callbacks_return room service bashId
    (events : list Shell.ShellOutputEvent) :
  Forall (λ output, Js.length (lines_of output) ≤ room)
    (Shell.background_text h <$> events) →
  foldl (λ s event, background_callback_host room h bashId event s)
    service events
  = foldl (λ s event, Shell.background_callback h bashId event s)
      service events.
Proof.
  revert service. induction events as [|event events IH]; intros service Hfit;
    [done|].
  apply Forall_cons in Hfit as [Hevent Hfit]. simpl. rewrite IH by done.
  f_equal. unfold background_callback_host, addOutput_host, addOutput_throws.
  destruct (processes service !! bashId);
    [rewrite (proj2 (Z.ltb_ge _ _)) by lia|]; done.
Qed.

(** X16.  From launch to poll.  After a background launch by [execute]
    whose output callback has since been handed any events that fit into
    the buffer (whose limit is within what one call of [push] takes, so
    that no call of the callback throws), the BashOutput tool shows the process as running together
    with exactly the non-empty lines of those events, in order: the lines
    of the chunk for a [data] event, "[Binary output detected]", and
    "[Binary output: <size> received]" with the size as
    [formatMemoryUsage] writes it.  Asked again at once it shows
    "(no new output)". *)
Theorem launch_then_poll room (params : Shell.ShellToolParams)
    (o : Shell.Oracle) service pid (events : list Shell.ShellOutputEvent) :
  Shell.is_true (Shell.run_in_background params) = true →
  Shell.signal_aborted o = false →
  Shell.engine_handle o = Shell.resolved pid →
  let bashId := generateId (Shell.now o) (Shell.random_base36 o) in
  let text (event : Shell.ShellOutputEvent) :=
    match event with
    | Shell.data chunk => chunk
    | Shell.binary_detected => "[Binary output detected]"
    | Shell.binary_progress bytesReceived =>
        "[Binary output: " +:+ Shell.formatMemoryUsage h bytesReceived
          +:+ " received]"
    end in
  let lines :=
    concat
      ((λ event, List.filter Js.nonempty (Js.split Js.LF (text event)))
         <$> events) in
  Js.length lines ≤ MAX_BUFFER_LINES service →
  MAX_BUFFER_LINES service ≤ room →
  let launched := (Shell.execute h config params o service).2 in
  let fed :=
    foldl (λ s event, background_callback_host room h bashId event s)
      launched events in
  let poll :=
    {| BashOutput.bash_id := bashId; BashOutput.filter := None |} in
  let first := BashOutput.execute RegExp poll fed in
  let second := BashOutput.execute RegExp poll first.2 in
  Shell.llmContent first.1 =
    (("[Shell ID: " +:+ bashId +:+ " - Status: running]") +:+ BashOutput.NL)
      +:+ match lines with
          | [] => "(no new output)"
          | _ => Js.join BashOutput.NL lines
          end
      +:+ BashOutput.NL +:+ BashOutput.NL +:+ "Process Status: Running" ∧
  Shell.llmContent second.1 =
    (("[Shell ID: " +:+ bashId +:+ " - Status: running]") +:+ BashOutput.NL)
      +:+ "(no new output)"
      +:+ BashOutput.NL +:+ BashOutput.NL +:+ "Process Status: Running" ∧
  Shell.returnDisplay second.1 = "No new output from " +:+ bashId.
Proof.
  intros Hbg Hentry Hhandle bashId text lines Hfit Hroom launched fed poll
    first second.
  assert (lines = lines_of_all (Shell.background_text h <$> events)) as Htext
    by (unfold lines_of_all; by rewrite <- list_fmap_compose).
  clearbody lines. subst lines. clear text.
  set (lines := lines_of_all (Shell.background_text h <$> events)) in *.
  assert (fed = foldl (λ s event, Shell.background_callback h bashId event s)
                  launched events) as Hfed'.
  { apply callbacks_return.
    eapply Forall_impl; [apply lines_of_all_bound|].
    simpl. fold lines. intros. lia. }
  clearbody fed. subst fed.
  set (fed := foldl (λ s event, Shell.background_callback h bashId event s)
                launched events) in *.
  destruct (execute_background params o service pid Hbg Hentry Hhandle)
    as [_ Hlaunched].
  fold bashId launched in Hlaunched.
  pose proof (js_length_nonneg lines) as Hlines.
  set (record := {| id := bashId; pid := pid; command := Shell.command params;
                    status := running; exitCode := exit_undefined;
                    terminationSignal := None; outputBuffer := [];
                    lastReadIndex := ∅; startTime := Shell.registered_at o;
                    endTime := None;
                    handle := Some {| handle_pid := pid |};
                    abortController := Some {| aborted := false |};
                    memoryUsage := None; fileDescriptors := None |}).
  assert (processes launched !! bashId = Some record) as Hrecord.
  { rewrite Hlaunched. simpl. apply lookup_insert_eq. }
  assert (MAX_BUFFER_LINES launched = MAX_BUFFER_LINES service) as Hlimit
    by (by rewrite Hlaunched).
  destruct (appendAll_known launched bashId record
              (Shell.background_text h <$> events))
    as (fed_record & Hfed & _ & Hexact);
    [rewrite Hlimit; exact (Z.le_trans _ _ _ Hlines Hfit) | done |].
  rewrite <- callbacks_append in Hfed. fold fed in Hfed.
  rewrite Hexact in Hfed by (rewrite Hlimit; simpl; fold lines; exact Hfit).
  simpl in Hfed.
  clear Hexact fed_record.
  assert (first =
            (BashOutput.render poll
               {| output := lines; poll_status := "running";
                  poll_exitCode := exit_undefined; error := None |},
             store bashId
               (polled "bash_output_tool" (set_outputBuffer lines record)) fed))
    as Hfirst.
  { unfold first, BashOutput.execute. cbn [BashOutput.filter BashOutput.bash_id poll].
    rewrite (getNewOutput_plain RegExp _ _ _ _ Hfed). simpl.
    by rewrite lookup_empty. }
  assert (second.1 =
            BashOutput.render poll
              {| output := []; poll_status := "running";
                 poll_exitCode := exit_undefined; error := None |})
    as Hsecond.
  { unfold second, BashOutput.execute. cbn [BashOutput.filter BashOutput.bash_id poll].
    rewrite Hfirst. cbn [snd].
    erewrite getNewOutput_plain by (simpl; apply lookup_insert_eq).
    cbn [fst error]. simpl. rewrite lookup_insert_eq, or_number_default.
    simpl. rewrite slice_drop by apply js_length_nonneg. unfold Js.length.
    rewrite Nat2Z.id. rewrite drop_all. reflexivity. }
  rewrite Hsecond, Hfirst. cbn [fst]. unfold BashOutput.render. simpl.
  split; [by destruct lines | ]. split; [done|]. apply append_empty.
Qed.

(** X17.  From launch to kill.  A process launched in the background by
    [execute] always has an abort controller, so the KillBash tool waits
    for the grace window; when only output and polls arrive meanwhile the
    record ends up terminated with the signal "SIGKILL (forced)", and a
    second KillBash call changes nothing and answers "Not Needed (Already
    Terminated)". *)
Theorem launch_then_kill (params : Shell.ShellToolParams) (o : Shell.Oracle)
    service pid now u1 u2 during later between
    now' u1' u2' during' later' between' :
  Shell.is_true (Shell.run_in_background params) = true →
  Shell.signal_aborted o = false →
  Shell.engine_handle o = Shell.resolved pid →
  Forall (λ e, reading_or_writing e = true) during →
  Forall (λ e, reading_or_writing e = true) between →
  Forall (λ e, reading_or_writing e = true) between' →
  let bashId := generateId (Shell.now o) (Shell.random_base36 o) in
  let launched := (Shell.execute h config params o service).2 in
  let kill := {| KillBash.bash_id := bashId |} in
  let first :=
    KillBash.execute RegExp kill launched now u1 u2 during later between in
  let second :=
    KillBash.execute RegExp kill first.2 now' u1' u2' during' later'
      between' in
  Shell.returnDisplay first.1
    = "Process " +:+ bashId +:+ " terminated successfully" ∧
  (∃ record,
     processes first.2 !! bashId = Some record ∧
     status record = terminated ∧
     terminationSignal record = Some "SIGKILL (forced)") ∧
  Shell.llmContent second.1 =
    "[Shell ID: " +:+ bashId +:+ "]" +:+ KillBash.NL +:+
    ("Process " +:+ bashId +:+ " was already terminated") +:+ KillBash.NL
      +:+ KillBash.NL +:+ "Termination Status: Not Needed (Already Terminated)" ∧
  second.2 = run RegExp first.2 between'.
Proof.
  intros Hbg Hentry Hhandle Hduring Hbetween Hbetween' bashId launched kill
    first second.
  destruct (execute_background params o service pid Hbg Hentry Hhandle)
    as [_ Hlaunched].
  fold bashId launched in Hlaunched.
  set (record := {| id := bashId; pid := pid; command := Shell.command params;
                    status := running; exitCode := exit_undefined;
                    terminationSignal := None; outputBuffer := [];
                    lastReadIndex := ∅; startTime := Shell.registered_at o;
                    endTime := None;
                    handle := Some {| handle_pid := pid |};
                    abortController := Some {| aborted := false |};
                    memoryUsage := None; fileDescriptors := None |}).
  assert (processes launched !! bashId = Some record) as Hrecord.
  { rewrite Hlaunched. simpl. apply lookup_insert_eq. }
  assert (processes (store bashId (abort_sent record) launched) !! bashId
          = Some (abort_sent record)) as Hsent
    by (simpl; apply lookup_insert_eq).
  destruct (quiet_run RegExp _ during bashId _ Hduring Hsent)
    as (q & Hq & Hstq & _).
  set (waited := run RegExp (store bashId (abort_sent record) launched) during)
    in *.
  assert (first =
            ({| Shell.llmContent :=
                  "[Shell ID: " +:+ bashId +:+ "]" +:+ KillBash.NL +:+
                  message
                    (kill_finish waited (kill_locals bashId record now u1 u2)
                       "SIGKILL (forced)" later).1
                    +:+ KillBash.NL +:+ KillBash.NL +:+
                  "Termination Status: Success";
                Shell.returnDisplay :=
                  "Process " +:+ bashId +:+ " terminated successfully" |},
             run RegExp
               (markProcessTerminated waited bashId "SIGKILL (forced)" later)
               between)) as Hfirst.
  { unfold first, KillBash.execute, getProcess. cbn [KillBash.bash_id kill].
    rewrite Hrecord. unfold killProcess_begin. rewrite Hrecord.
    cbn [status record abortController]. fold (abort_sent record).
    fold waited. unfold killProcess_resume. cbn [kp_id]. rewrite Hq.
    simpl in Hstq. rewrite Hstq. done. }
  assert (processes (markProcessTerminated waited bashId "SIGKILL (forced)" later)
            !! bashId = Some (marked_terminated "SIGKILL (forced)" later q))
    as Hmarked.
  { rewrite (markProcessTerminated_known _ _ _ _ _ Hq). apply lookup_insert_eq. }
  destruct (quiet_run RegExp _ between bashId _ Hbetween Hmarked)
    as (killed & Hkilled & Hstk & Hsigk).
  assert (processes first.2 !! bashId = Some killed) as Hsecond
    by (by rewrite Hfirst).
  simpl in Hstk, Hsigk. clear Hkilled.
  split; [by rewrite Hfirst|]. split; [by exists killed|].
  unfold second, KillBash.execute, getProcess. cbn [KillBash.bash_id kill].
  rewrite Hsecond. unfold killProcess_begin. rewrite Hsecond, Hstk.
  cbn [fst snd success kill_exitCode message kill_failure].
  rewrite bool_decide_eq_true_2 by done. cbn [negb].
  rewrite Hsecond, (quiet_alias _ _ _ _ Hbetween' Hsecond), Hstk.
  by rewrite bool_decide_eq_true_2 by done.
Qed.

End launches.

End tool_facts.

(** ** Confirmation of shell commands *)

Section confirmation_facts.
Import Shell ShellTool.
Variables (h : Host) (p : Policy).

Lemma filter_elem {A} (keep : A → bool) (l : list A) (x : A) :
  x ∈ List.filter keep l ↔ x ∈ l ∧ keep x = true.
Proof. rewrite !list_elem_of_In. apply filter_In. Qed.

Lemma unique_from_elem (seen l : list string) (x : string) :
  x ∈ unique_from seen l ↔ x ∈ l ∧ x ∉ seen.
Proof.
  revert seen. induction l as [|y l IH]; intros seen; simpl.
  - rewrite elem_of_nil. tauto.
  - case_bool_decide as Hy.
    + rewrite IH, elem_of_cons. split; [tauto|].
      intros [[->|Hx] Hs]; [done | tauto].
    + rewrite !elem_of_cons, IH, not_elem_of_cons.
      destruct (decide (x = y)) as [->|Hne]; tauto.
Qed.

Lemma unique_from_NoDup (seen l : list string) : NoDup (unique_from seen l).
Proof.
  revert seen. induction l as [|y l IH]; intros seen; simpl; [constructor|].
  case_bool_decide as Hy; [apply IH|].
  constructor; [|apply IH]. rewrite unique_from_elem, not_elem_of_cons. tauto.
Qed.

Lemma filter_NoDup {A} (keep : A → bool) (l : list A) :
  NoDup l → NoDup (List.filter keep l).
Proof.
  induction 1 as [|x l Hx Hl IH]; simpl; [constructor|].
  destruct (keep x); [|done]. constructor; [|done].
  rewrite filter_elem. tauto.
Qed.

Lemma allowed_after (l : list string) (allowlist : gset string) (c : string) :
  c ∈ foldl (λ allowed c, allowed ∪ {[c]}) allowlist l ↔ c ∈ allowlist ∨ c ∈ l.
Proof.
  revert allowlist. induction l as [|x l IH]; intros allowlist; simpl.
  - rewrite elem_of_nil. tauto.
  - rewrite IH, elem_of_union, elem_of_singleton, elem_of_cons. tauto.
Qed.

Lemma filter_none {A} (keep : A → bool) (l : list A) :
  List.filter keep l = [] ↔ ∀ x, x ∈ l → keep x = false.
Proof.
  induction l as [|x l IH]; simpl.
  - split; [|done]. intros _ x Hx. by apply elem_of_nil in Hx.
  - destruct (keep x) eqn:E.
    + split; [done|]. intros H.
      specialize (H x (list_elem_of_here _ _)). congruence.
    + rewrite IH. split.
      * intros H y [->|Hy]%elem_of_cons; auto.
      * intros H y Hy. apply H. by right.
Qed.

(** X18.  Confirmation and the allowlist.  [shouldConfirmExecute] asks
    for nothing exactly when every root of the command is on the
    allowlist.  Otherwise the commands it asks about are the roots that
    are not on the allowlist, each once; confirming with [ProceedAlways]
    adds just these, after which the same command needs no confirmation;
    any other outcome leaves the allowlist and the question as they
    were. *)
Theorem confirmation_round_trip (params : ShellToolParams)
    (allowlist : gset string) :
  let roots := getCommandRoots p (stripShellWrapper h (command params)) in
  match shouldConfirmExecute h p params allowlist with
  | None => ∀ c, c ∈ roots → c ∈ allowlist
  | Some details =>
      NoDup (commandsToConfirm details) ∧
      (∀ c, c ∈ commandsToConfirm details ↔ c ∈ roots ∧ c ∉ allowlist) ∧
      (∃ c, c ∈ roots ∧ c ∉ allowlist) ∧
      (∀ c, c ∈ onConfirm details ProceedAlways allowlist
            ↔ c ∈ allowlist ∨ c ∈ roots) ∧
      shouldConfirmExecute h p params (onConfirm details ProceedAlways allowlist)
        = None ∧
      shouldConfirmExecute h p params (onConfirm details AnotherOutcome allowlist)
        = Some details
  end.
Proof.
  intros roots. unfold shouldConfirmExecute. fold roots.
  assert (∀ (allowed : gset string) c,
            c ∈ List.filter (λ c, negb (bool_decide (c ∈ allowed))) (unique roots)
            ↔ c ∈ roots ∧ c ∉ allowed) as Helem.
  { intros allowed c. rewrite filter_elem. unfold unique.
    rewrite unique_from_elem.
    rewrite negb_true_iff, bool_decide_eq_false, elem_of_nil. tauto. }
  destruct (List.filter _ (unique roots)) as [|c0 rest] eqn:E.
  - intros c Hc. destruct (decide (c ∈ allowlist)) as [|Hout]; [done|].
    assert (c ∈ @nil string) as Hnil by (rewrite <- E; by apply Helem).
    by apply elem_of_nil in Hnil.
  - cbn [commandsToConfirm]. rewrite <- E.
    split; [apply filter_NoDup, unique_from_NoDup|].
    split; [apply Helem|].
    split.
    { exists c0. apply Helem. rewrite E. apply list_elem_of_here. }
    assert (∀ c, c ∈ foldl (λ allowed c, allowed ∪ {[c]}) allowlist
                       (List.filter (λ c, negb (bool_decide (c ∈ allowlist)))
                          (unique roots))
                 ↔ c ∈ allowlist ∨ c ∈ roots) as Hafter.
    { intros c. rewrite allowed_after, Helem.
      destruct (decide (c ∈ allowlist)); tauto. }
    split; [apply Hafter|]. split; [|cbn [onConfirm]; by rewrite E].
    unfold onConfirm. cbn [commandsToConfirm].
    match goal with
    | |- match ?l with [] => _ | _ => _ end = None =>
        assert (l = []) as ->; [|done]
    end.
    apply filter_none. intros c Hc.
    rewrite negb_false_iff, bool_decide_eq_true. apply Hafter. right.
    unfold unique in Hc. by apply unique_from_elem in Hc as [Hc _].
Qed.

End confirmation_facts.

(** ** The BashOutput tool *)

Section poll_tool_facts.
Import BPS Props More.
Variable RegExp : string → option (string → bool).
Variable h : Shell.Host.

Lemma validated_filter (params : BashOutput.BashOutputToolParams) :
  BashOutput.validateToolParamValues RegExp h params = None →
  ∀ pattern, BashOutput.filter params = Some pattern →
             Js.nonempty pattern = true → is_Some (RegExp pattern).
Proof.
  unfold BashOutput.validateToolParamValues. intros H pattern Hf Hne.
  destruct (_ || _); [done|]. rewrite Hf, Hne in H.
  destruct (RegExp pattern); [eauto | done].
Qed.

Lemma validated_execute (params : BashOutput.BashOutputToolParams) service
    process :
  BashOutput.validateToolParamValues RegExp h params = None →
  processes service !! BashOutput.bash_id params = Some process →
  ∃ result,
    BashOutput.execute RegExp params service
      = (BashOutput.render params result,
         store (BashOutput.bash_id params)
           (polled "bash_output_tool" process) service) ∧
    error result = None ∧
    poll_status result = status_string (status process) ∧
    poll_exitCode result = exitCode process ∧
    output result `sublist_of`
      Js.slice (Js.or_number (lastReadIndex process !! "bash_output_tool") 0)
        (outputBuffer process) ∧
    (BashOutput.filtering params = false →
     output result =
       Js.slice (Js.or_number (lastReadIndex process !! "bash_output_tool") 0)
         (outputBuffer process)).
Proof.
  intros Hvalid Hp. pose proof (validated_filter params Hvalid) as Hfilter.
  unfold BashOutput.execute, getNewOutput, BashOutput.filtering. rewrite Hp.
  destruct (BashOutput.filter params) as [pattern|] eqn:Hf.
  - destruct (Js.nonempty pattern) eqn:Hne.
    + destruct (Hfilter pattern eq_refl Hne) as [regex ->].
      eexists. split; [reflexivity|]. simpl.
      do 3 (split; [done|]). split; [apply filter_sublist | done].
    + eexists. split; [reflexivity|]. simpl. by do 4 (split; [done|]).
  - eexists. split; [reflexivity|]. simpl. by do 4 (split; [done|]).
Qed.

(** X19.  The BashOutput tool on validated parameters.  For an unknown
    id it returns the service's not-found message and changes nothing.
    For a registered process it never reports a filter error: it renders
    a poll with the status of the process whose lines are among the
    unread ones (all of them without a filter), and moves the offset of
    the consumer ['bash_output_tool'] to the end of the buffer. *)
Theorem validated_poll (params : BashOutput.BashOutputToolParams) service :
  BashOutput.validateToolParamValues RegExp h params = None →
  let id := BashOutput.bash_id params in
  let told := BashOutput.execute RegExp params service in
  match processes service !! id with
  | None =>
      Shell.llmContent told.1 = "No background process found with ID: " +:+ id ∧
      Shell.returnDisplay told.1 = Shell.llmContent told.1 ∧
      told.2 = service
  | Some process =>
      ∃ result,
        told.1 = BashOutput.render params result ∧
        error result = None ∧
        poll_status result = status_string (status process) ∧
        output result `sublist_of`
          Js.slice (Js.or_number (lastReadIndex process !! "bash_output_tool") 0)
            (outputBuffer process) ∧
        (BashOutput.filtering params = false →
         output result =
           Js.slice
             (Js.or_number (lastReadIndex process !! "bash_output_tool") 0)
             (outputBuffer process)) ∧
        offset_of told.2 id "bash_output_tool"
          = Some (Js.length (outputBuffer process))
  end.
Proof.
  intros Hvalid id told.
  destruct (processes service !! id) as [process|] eqn:Hp.
  - destruct (validated_execute params service process Hvalid Hp)
      as (result & Htold & Herr & Hst & _ & Hsub & Hplain).
    exists result. unfold told. rewrite Htold. cbn [fst snd].
    do 5 (split; [done|]). unfold offset_of. simpl.
    rewrite lookup_insert_eq. simpl. apply lookup_insert_eq.
  - unfold told, BashOutput.execute, getNewOutput. fold id. by rewrite Hp.
Qed.

(** X20.  Only new output: a BashOutput call that directly follows
    another one on the same process finds nothing, whatever the two
    (valid) filters, and leaves the service as the first call left it. *)
Theorem repeated_poll_is_empty (params params' : BashOutput.BashOutputToolParams)
    service :
  BashOutput.validateToolParamValues RegExp h params = None →
  BashOutput.validateToolParamValues RegExp h params' = None →
  BashOutput.bash_id params' = BashOutput.bash_id params →
  is_Some (processes service !! BashOutput.bash_id params) →
  let first := BashOutput.execute RegExp params service in
  let second := BashOutput.execute RegExp params' first.2 in
  Shell.returnDisplay second.1
    = "No new output from " +:+ BashOutput.bash_id params ∧
  second.2 = first.2.
Proof.
  intros Hvalid Hvalid' Hid [process Hp] first second.
  destruct (validated_execute params service process Hvalid Hp)
    as (result & Hfirst & _).
  set (id := BashOutput.bash_id params) in *.
  assert (processes first.2 !! BashOutput.bash_id params'
          = Some (polled "bash_output_tool" process)) as Hp'.
  { unfold first. rewrite Hfirst, Hid. simpl. apply lookup_insert_eq. }
  destruct (validated_execute params' first.2 _ Hvalid' Hp')
    as (result' & Hsecond & _ & _ & _ & Hsub & _).
  unfold second. rewrite Hsecond. cbn [fst snd].
  assert (output result' = []) as Hnone.
  { simpl in Hsub. rewrite lookup_insert_eq, or_number_default in Hsub.
    simpl in Hsub. rewrite slice_drop in Hsub by apply js_length_nonneg.
    unfold Js.length in Hsub. rewrite Nat2Z.id, drop_all in Hsub.
    by apply sublist_nil_r in Hsub. }
  split.
  - unfold BashOutput.render. cbn [Shell.returnDisplay]. rewrite Hnone, Hid.
    apply append_empty.
  - rewrite Hid. unfold first. rewrite Hfirst. cbn [snd]. fold id.
    assert (polled "bash_output_tool" (polled "bash_output_tool" process)
            = polled "bash_output_tool" process) as ->.
    { unfold polled, set_lastReadIndex. simpl. by rewrite insert_insert_eq. }
    unfold store, set_processes. simpl. by rewrite insert_insert_eq.
Qed.

End poll_tool_facts.

(** ** Background pids *)

Section pgrep_facts.
Import Shell.
Variable h : Host.

Lemma filter_keeps_order {A} (keep : A → bool) (l : list A) :
  sublist (List.filter keep l) l.
Proof.
  induction l as [|x l IH]; simpl; [constructor|].
  destruct (keep x); by constructor.
Qed.

Lemma filter_occurrences {A} (keep test : A → bool) (l : list A) :
  (∀ x, test x = true → keep x = true) →
  length (List.filter test (List.filter keep l))
    = length (List.filter test l).
Proof.
  intros Hkeep. induction l as [|x l IH]; simpl; [done|].
  destruct (keep x) eqn:Hx; simpl.
  - destruct (test x); simpl; by rewrite IH.
  - destruct (test x) eqn:Ht; [|done].
    rewrite (Hkeep x Ht) in Hx. done.
Qed.

Lemma filter_no_occurrence {A} (keep test : A → bool) (l : list A) :
  (∀ x, test x = true → keep x = false) →
  length (List.filter test (List.filter keep l)) = 0%nat.
Proof.
  intros Hdrop. induction l as [|x l IH]; simpl; [done|].
  destruct (keep x) eqn:Hx; simpl; [|done].
  destruct (test x) eqn:Ht; [|done].
  rewrite (Hdrop x Ht) in Hx. done.
Qed.

(** X21.  The background pids in the report of [execute].  A foreground
    command that ran to its end on a platform other than win32, without
    timeout, cancellation or error, and left a pgrep file, is reported
    line by line as written out below; the line "Background PIDs:" lists,
    separated by ", ", the numbers read from the non-empty lines of the
    file, in the order of the file and as often as they occur there,
    without any occurrence of the pid of the shell itself; a line that is
    not a number is listed as "NaN"; "(none)" stands for an empty list. *)
Theorem backgroundPIDs_listed (config : Config) (params : ShellToolParams)
    (o : Oracle) (service : BPS.Service) (shell : option Z)
    (r : ShellExecutionResult) (content : string) :
  is_true (run_in_background params) = false →
  platform o ≠ "win32" →
  signal_aborted o = false →
  engine_handle o = resolved shell →
  result o = resolved r →
  timer_fired o = false →
  aborted r = false →
  error r = None →
  summarize config = None →
  tempFile o = Some content →
  let numbers :=
    Number h <$> List.filter Js.nonempty (Js.split Js.LF content) in
  let occurrences (p : option Z) (l : list (option Z)) :=
    length (List.filter (λ q, bool_decide (q = p)) l) in
  ∃ pids display,
    (execute h config params o service).1.2
      = returned
          {| llmContent :=
               Js.join NL
                 [ "Command: " +:+ command params;
                   "Directory: " +:+
                     match directory params with
                     | Some d => if Js.nonempty d then d else "(root)"
                     | None => "(root)"
                     end;
                   "Output: " +:+
                     (if Js.nonempty (output r) then output r else "(empty)");
                   "Error: (none)";
                   "Exit Code: " +:+
                     match exitCode r with
                     | Some n => Js.num n
                     | None => "(none)"
                     end;
                   "Signal: " +:+
                     match signal r with
                     | Some n => Js.num n
                     | None => "(none)"
                     end;
                   "Background PIDs: " +:+
                     match pids with
                     | [] => "(none)"
                     | _ =>
                         Js.join ", "
                           ((λ p, match p with
                                  | Some n => Js.num n
                                  | None => "NaN"
                                  end) <$> pids)
                     end;
                   "Process Group PGID: " +:+
                     match pid r with
                     | Some n => Js.num n
                     | None => "(none)"
                     end ];
             returnDisplay := display |} ∧
    sublist pids numbers ∧
    ∀ p, occurrences p pids =
           if bool_decide (p = pid r ∧ is_Some p) then 0%nat
           else occurrences p numbers.
Proof.
  intros Hfg Hplatform Hentry Hhandle Hresult Htimer Haborted Herror
    Hsummarize Hfile numbers occurrences.
  exists (backgroundPIDs h content r).
  exists (report_returnDisplay h config
            (report_llmContent h params
               ("{ " +:+ (let command := trim h (stripShellWrapper h (command params)) in
                          if endsWith h command "&" then command
                          else command +:+ ";")
                  +:+ " }; __code=$?; pgrep -g 0 >"
                  +:+ path_join h (tmpdir o)
                        ("shell_pgrep_" +:+ randomBytes_hex o +:+ ".tmp")
                  +:+ " 2>&1; exit $__code;")
               (backgroundPIDs h content r) r) r).
  split; [|split].
  - unfold execute.
    rewrite Hfg, Hentry, Hhandle, Hresult, Htimer, Hsummarize, Hfile.
    rewrite (proj2 (String.eqb_neq _ _) Hplatform). cbn [negb orb andb].
    destruct (signal_aborted_later o); cbn [negb orb andb fst snd];
      unfold report_llmContent; rewrite Haborted, Herror;
      unfold or_string; by destruct (directory params).
  - apply filter_keeps_order.
  - intros p. unfold occurrences, backgroundPIDs. fold numbers.
    destruct (bool_decide (p = pid r ∧ is_Some p)) eqn:Hp.
    + apply filter_no_occurrence. intros q Hq.
      apply bool_decide_eq_true in Hq as ->. by rewrite Hp.
    + apply filter_occurrences. intros q Hq.
      apply bool_decide_eq_true in Hq as ->. by rewrite Hp.
Qed.

End pgrep_facts.

(** ** A record that vanishes during the grace window *)

Section vanished_facts.
Import BPS Props More.
Variable RegExp : string → option (string → bool).

(** X22.  When the record is gone at the end of the grace window,
    [killProcess] still reports success, with the method "SIGTERM", and
    marks nothing: the service is left as the window left it. *)
Theorem kill_of_vanished_record s id process now u1 u2
    (during : list Event) later :
  processes s !! id = Some process →
  status process = running →
  is_Some (abortController process) →
  processes (run RegExp (store id (abort_sent process) s) during) !! id = None →
  let killed := killProcess RegExp s id now u1 u2 during later in
  success killed.1 = true ∧
  terminationMethod killed.1 = Some "SIGTERM" ∧
  killed.2 = run RegExp (store id (abort_sent process) s) during.
Proof.
  intros Hp Hst [ac Hac] Hgone. simpl.
  unfold killProcess, killProcess_begin. rewrite Hp, Hst, Hac.
  fold (abort_sent process). unfold killProcess_resume, kill_finish.
  cbn [kp_id fst snd success terminationMethod]. rewrite Hgone.
  split; [done|]. split; [done|].
  unfold markProcessTerminated. by rewrite Hgone.
Qed.

End vanished_facts.

(** ** [execute] and the registry *)

Section registry_facts.
Import Shell.
Variables (h : Host) (config : Config).

Lemma execute_service (params : ShellToolParams) (o : Oracle)
    (service : BPS.Service) :
  (execute h config params o service).2 = service ∨
  (is_true (run_in_background params) = true ∧ signal_aborted o = false ∧
   ∃ pid, engine_handle o = resolved pid).
Proof.
  unfold execute. destruct (signal_aborted o); [by left|].
  destruct (is_true (run_in_background params)).
  - destruct (engine_handle o) as [pid|reason]; [right; eauto | by left].
  - left. destruct (engine_handle o) as [pid|reason]; [|done].
    destruct (result o) as [r|reason]; [|done].
    destruct (_ && _); [done|].
    destruct (summarize config) as [budget|]; [|done].
    by destruct (summary o).
Qed.

(** X23.  [execute] touches the registry only by a successful
    background launch.  It never touches the cleanup timers; and if the
    entry of an id differs after the call, the call was a background call
    not cancelled on entry, the id is the one it generated and reports,
    and the entry is a running record with an empty buffer, the command
    of the call, the pid of the handle and a fresh abort controller. *)
Theorem execute_registers (params : ShellToolParams) (o : Oracle)
    (service : BPS.Service) (id : string) :
  let ran := execute h config params o service in
  BPS.cleanupTimers ran.2 = BPS.cleanupTimers service ∧
  (BPS.processes ran.2 !! id ≠ BPS.processes service !! id →
   id = BPS.generateId (now o) (random_base36 o) ∧
   is_true (run_in_background params) = true ∧
   signal_aborted o = false ∧
   ∃ pid record,
     engine_handle o = resolved pid ∧
     ran.1.2 = returned (background_result params id pid) ∧
     BPS.processes ran.2 !! id = Some record ∧
     BPS.status record = BPS.running ∧ BPS.outputBuffer record = [] ∧
     BPS.pid record = pid ∧ BPS.command record = command params ∧
     BPS.abortController record = Some {| BPS.aborted := false |}).
Proof.
  intros ran.
  destruct (execute_service params o service)
    as [Hsame | (Hbg & Hentry & pid & Hhandle)].
  { unfold ran. rewrite Hsame. split; [done|]. by intros Hchanged. }
  destruct (execute_background h config params o service pid Hbg Hentry Hhandle)
    as [Hout Hran].
  fold ran in Hout, Hran. split; [by rewrite Hran|]. intros Hchanged.
  destruct (decide (id = BPS.generateId (now o) (random_base36 o)))
    as [->|Hne].
  - do 3 (split; [done|]).
    eexists pid, _. split; [done|]. split; [done|].
    split; [rewrite Hran; simpl; apply lookup_insert_eq|]. done.
  - exfalso. apply Hchanged. rewrite Hran. simpl.
    by rewrite lookup_insert_ne.
Qed.

End registry_facts.

(** ** Failures as output *)

Section failure_facts.
Import BPS Props More.
Variable RegExp : string → option (string → bool).

Lemma failure_line (message : string) :
  lines_of ("Process failed: " +:+ message) ≠ [].
Proof.
  unfold lines_of. simpl.
  by destruct (Js.split Js.LF _).
Qed.

(** X24.  A rejection reaches the consumer as output: when the result
    promise of a process rejects and the failure line fits into the
    buffer, a consumer that had read everything gets, at its next poll,
    exactly the line(s) "Process failed: <message>" and the status
    "failed". *)
Theorem failure_reaches_consumer s id process consumerId message now :
  processes s !! id = Some process →
  lastReadIndex process !! consumerId = Some (Js.length (outputBuffer process)) →
  Js.length (outputBuffer process)
    + Js.length (lines_of ("Process failed: " +:+ message))
    ≤ MAX_BUFFER_LINES s →
  let failed_at := markProcessFailed s id message now in
  let poll := (getNewOutput RegExp failed_at id consumerId None).1 in
  output poll = lines_of ("Process failed: " +:+ message) ∧
  output poll ≠ [] ∧
  poll_status poll = "failed" ∧
  error poll = None.
Proof.
  intros Hp Hread Hfit failed_at poll.
  assert (processes failed_at !! id
          = Some (marked_failed (MAX_BUFFER_LINES s) message now process))
    as Hfailed.
  { unfold failed_at. rewrite (markProcessFailed_known _ _ _ _ _ Hp).
    apply lookup_insert_eq. }
  unfold poll. rewrite (getNewOutput_plain RegExp _ _ _ _ Hfailed).
  cbn [fst output poll_status error].
  assert (marked_failed (MAX_BUFFER_LINES s) message now process
          = set_outputBuffer
              (outputBuffer process ++ lines_of ("Process failed: " +:+ message))
              (set_endTime now (set_status failed process))) as ->.
  { unfold marked_failed, appended. cbn [outputBuffer set_endTime set_status].
    rewrite js_length_app.
    destruct (_ <? _) eqn:E; [apply Z.ltb_lt in E; lia | done]. }
  cbn [outputBuffer lastReadIndex status set_outputBuffer set_endTime
       set_status status_string].
  rewrite Hread, or_number_default. cbn [default].
  rewrite slice_drop by apply js_length_nonneg.
  unfold Js.length, Datatypes.id. rewrite Nat2Z.id, drop_app_length.
  split; [done|]. split; [apply failure_line | done].
Qed.

End failure_facts.

(** ** Edges of registration and termination *)

Section edge_facts.
Import BPS Props More.
Variable RegExp : string → option (string → bool).

(** X25.  A registration does not cancel a pending cleanup: when an id
    that still has a cleanup timer is registered again, the new record is
    running and the old timer stays, and when that timer fires the running
    record is removed. *)
Theorem reregistration_inherits_cleanup s id pid command handle ac now :
  is_Some (cleanupTimers s !! id) →
  let s' := registerProcess s id pid command handle ac now in
  status_of s' id = Some running ∧
  cleanupTimers s' !! id = cleanupTimers s !! id ∧
  processes (step RegExp s' (ev_cleanup id)) !! id = None.
Proof.
  intros [due Hdue] s'. unfold status_of, s'. simpl.
  rewrite lookup_insert_eq. split; [done|]. split; [done|].
  unfold cleanup. simpl. rewrite Hdue. simpl. apply lookup_delete_eq.
Qed.

(** Rounding to a double moves a numerator of [b] bits by at most half
    the distance of two doubles of that size. *)
Lemma round_double_bounds (n b : Z) :
  0 ≤ n → n < 2 ^ b → 54 ≤ b →
  0 ≤ round_double n ≤ n + 2 ^ (b - 54).
Proof.
  intros Hn Hb Hbig. unfold round_double.
  assert (0 < 2 ^ (b - 54)) as Hpos by (apply Z.pow_pos_nonneg; lia).
  destruct (Z.log2 n + 1 - 53 <=? 0) eqn:Hsh; [lia|].
  apply Z.leb_gt in Hsh.
  set (sh := Z.log2 n + 1 - 53) in *.
  assert (0 < n) as Hn'.
  { destruct (decide (n = 0)) as [->|]; [|lia].
    unfold sh in Hsh. simpl in Hsh. lia. }
  assert (Z.log2 n < b) as Hlog by (apply Z.log2_lt_pow2; lia).
  assert (2 ^ sh = 2 * 2 ^ (sh - 1)) as Hdouble.
  { rewrite <- Z.pow_succ_r by lia. f_equal. lia. }
  assert (0 < 2 ^ (sh - 1)) as Hhalf by (apply Z.pow_pos_nonneg; lia).
  assert (2 ^ (sh - 1) ≤ 2 ^ (b - 54)) as Hle
    by (apply Z.pow_le_mono_r; unfold sh; lia).
  pose proof (Z.div_mod n (2 ^ sh) ltac:(lia)) as Hdiv.
  pose proof (Z.mod_pos_bound n (2 ^ sh) ltac:(lia)) as Hmod.
  assert (0 ≤ n / 2 ^ sh) as Hq by (apply Z.div_pos; lia).
  set (q := n / 2 ^ sh) in *. set (rest := n mod 2 ^ sh) in *.
  destruct ((2 ^ (sh - 1) <? rest) || ((rest =? 2 ^ (sh - 1)) && Z.odd q))
    eqn:Hup.
  - assert (2 ^ (sh - 1) ≤ rest) as Hrest.
    { apply orb_true_iff in Hup as [Hup|Hup].
      - apply Z.ltb_lt in Hup. lia.
      - apply andb_true_iff in Hup as [Hup _]. apply Z.eqb_eq in Hup. lia. }
    split; nia.
  - split; nia.
Qed.

(** The two figures stay in range also where the product is rounded up:
    the largest draw is more than half a step of the doubles below
    [100] (and below [5]). *)
Lemma floor_random_range (u : Z) :
  valid_random u →
  0 ≤ floor_random_times u 100 < 100 ∧ 0 ≤ floor_random_times u 5 < 5.
Proof.
  unfold valid_random, floor_random_times, random_range. intros [Hlow Hhigh].
  assert (2 ^ 53 = 9007199254740992) as E53 by reflexivity.
  split.
  - destruct (round_double_bounds (u * 100) 60) as [H0 H1]; [lia | | lia |].
    { change (2 ^ 60) with 1152921504606846976. lia. }
    change (2 ^ (60 - 54)) with 64 in H1.
    split; [apply Z.div_pos; lia|]. apply Z.div_lt_upper_bound; lia.
  - destruct (round_double_bounds (u * 5) 56) as [H0 H1]; [lia | | lia |].
    { change (2 ^ 56) with 72057594037927936. lia. }
    change (2 ^ (56 - 54)) with 4 in H1.
    split; [apply Z.div_pos; lia|]. apply Z.div_lt_upper_bound; lia.
Qed.

(** X26.  The resources [killProcess] reports for a running process: the
    tracked figures where the record has them (and they are not 0), and
    otherwise an invented amount of memory between 10 and 109 MB and a
    number of file descriptors between 1 and 5.  The invented figures are
    computed as the code computes them: the product of the draw and 100
    (or 5) is rounded to the nearest double before [Math.floor] is taken,
    which may give one more than the floor of the exact product, but
    never 100 (or 5). *)
Theorem kill_resources_range s id process now u1 u2 (during : list Event) later :
  processes s !! id = Some process →
  status process = running →
  valid_random u1 → valid_random u2 →
  ∃ memory descriptors,
    resourcesFreed (killProcess RegExp s id now u1 u2 during later).1
      = Some (memory, descriptors) ∧
    (memoryUsage process = None → 10 ≤ memory ≤ 109) ∧
    (fileDescriptors process = None → 1 ≤ descriptors ≤ 5) ∧
    (∀ m, memoryUsage process = Some m → m ≠ 0 → memory = m) ∧
    (∀ f, fileDescriptors process = Some f → f ≠ 0 → descriptors = f).
Proof.
  intros Hp Hst Hu1 Hu2.
  destruct (killProcess_running RegExp s id process now u1 u2 during later Hp Hst)
    as (s1 & signal & t & -> & _).
  eexists _, _. split; [reflexivity|]. simpl.
  pose proof (proj1 (floor_random_range u1 Hu1)).
  pose proof (proj2 (floor_random_range u2 Hu2)).
  split; [intros ->; simpl; lia|]. split; [intros ->; simpl; lia|].
  split.
  - intros m -> Hm. simpl. destruct (m =? 0) eqn:E; [|done].
    apply Z.eqb_eq in E. lia.
  - intros f -> Hf. simpl. destruct (f =? 0) eqn:E; [|done].
    apply Z.eqb_eq in E. lia.
Qed.

End edge_facts.

(** ** Times in messages *)

Section format_facts.
Import BPS.

(** X27.  [formatRuntime] shows whole seconds, split into minutes and
    seconds: for a runtime that is not negative the two numbers shown make
    up the runtime in seconds rounded down, the seconds lie below 60, and
    the minutes are left out when they are 0. *)
Theorem formatRuntime_parts (ms : Z) :
  0 ≤ ms →
  ∃ minutes secs,
    0 ≤ minutes ∧ 0 ≤ secs < 60 ∧ 60 * minutes + secs = ms / 1000 ∧
    formatRuntime ms =
      if 0 <? minutes then
        Js.num minutes +:+ " minute" +:+ plural minutes +:+ " "
          +:+ Js.num secs +:+ " second" +:+ plural secs
      else Js.num secs +:+ " second" +:+ plural secs.
Proof.
  intros Hms. exists (ms / 60000), (Z.rem ms 60000 / 1000).
  rewrite Z.rem_mod_nonneg by lia.
  pose proof (Z.mod_pos_bound ms 60000 ltac:(lia)) as Hr.
  split; [apply Z.div_pos; lia|].
  split.
  { split; [apply Z.div_pos; lia|]. apply Z.div_lt_upper_bound; lia. }
  split; [|unfold formatRuntime; by rewrite Z.rem_mod_nonneg by lia].
  rewrite (Z.div_mod ms 60000) at 3 by lia.
  replace (60000 * (ms / 60000)) with (60 * (ms / 60000) * 1000) by lia.
  rewrite Z.div_add_l by lia. done.
Qed.


End format_facts.

(** ** Instances of the further properties *)

Lemma offsets_stay_within_witness :
  0 ≤ BPS.MAX_BUFFER_LINES BPS.getInstance ∧
  More.offsets_within (BPS.run Props.toyRegExp BPS.getInstance More.sample_run).
Proof.
  split; [simpl; lia|].
  apply (offsets_stay_within Props.toyRegExp BPS.getInstance More.sample_run);
    [simpl; lia|].
  no_records.
Defined.

Lemma buffers_stay_clean_witness :
  More.buffers_clean (BPS.run Props.toyRegExp BPS.getInstance More.sample_run).
Proof.
  apply (buffers_stay_clean Props.toyRegExp BPS.getInstance More.sample_run).
  no_records.
Defined.

Lemma buffer_keeps_latest_witness :
  (∃ s',
     Throwing.appendAll_host 100000 Props.scenario_start "bash_1"
       ["line1"; "line2" +:+ Shell.NL +:+ "line3"; "line4"] = Some s' ∧
     Props.buffer_of s' "bash_1" = Some ["line2"; "line3"; "line4"]) ∧
  Throwing.appendAll_host 1 Props.scenario_start "bash_1"
    ["line1"; "line2" +:+ Shell.NL +:+ "line3"; "line4"] = None.
Proof.
  assert (∃ process,
            BPS.processes Props.scenario_start !! "bash_1" = Some process ∧
            BPS.outputBuffer process = []) as (process & Hp & Hempty)
    by (eexists; split; vm_compute; reflexivity).
  split.
  - pose proof (buffer_keeps_latest 100000 Props.scenario_start "bash_1"
                  process
                  ["line1"; "line2" +:+ Shell.NL +:+ "line3"; "line4"]) as H.
    rewrite Hempty in H. apply H;
      [simpl; lia | exact Hp | vm_compute; discriminate
      | repeat constructor; vm_compute; discriminate].
  - apply (buffer_keeps_latest 1 Props.scenario_start "bash_1" process
             ["line1"; "line2" +:+ Shell.NL +:+ "line3"; "line4"]);
      [simpl; lia | exact Hp | rewrite Hempty; vm_compute; discriminate |].
    apply Exists_cons_tl, Exists_cons_hd. vm_compute. reflexivity.
Defined.

Lemma poll_returns_appended_witness :
  BPS.output
    (BPS.getNewOutput Props.toyRegExp
       (Props.appendAll
          (BPS.getNewOutput Props.toyRegExp Props.sample_service "bash_1"
             "reader" None).2 "bash_1" ["a"; "b"])
       "bash_1" "reader" None).1
    = Props.lines_of_all ["a"; "b"].
Proof.
  apply (poll_returns_appended Props.toyRegExp Props.sample_service "bash_1"
           "reader" None Props.sample_process ["a"; "b"]);
    [vm_compute; reflexivity | reflexivity | vm_compute; discriminate].
Defined.

Lemma consumers_independent_witness :
  "reader" ≠ "other" ∧
  (BPS.getNewOutput Props.toyRegExp
     (BPS.getNewOutput Props.toyRegExp Props.scenario_read.2 "bash_1"
        "reader" None).2 "bash_1" "other" None).1
    = (BPS.getNewOutput Props.toyRegExp Props.scenario_read.2 "bash_1"
         "other" None).1.
Proof.
  split; [discriminate|].
  apply (consumers_independent Props.toyRegExp Props.scenario_read.2 "bash_1"
           "reader" None "bash_1" "other" None).
  discriminate.
Defined.

Lemma addOutput_in_pieces_witness :
  ∃ s1,
    Throwing.addOutput_host 100000 Props.sample_service "bash_1" "a" = Some s1 ∧
    Throwing.addOutput_host 100000 s1 "bash_1" "b"
      = Some (BPS.addOutput Props.sample_service "bash_1"
                ("a" +:+ String Js.LF "b")).
Proof.
  apply (addOutput_in_pieces 100000 Props.sample_service "bash_1" "a" "b").
  - simpl. lia.
  - reflexivity.
Defined.

Lemma cleanup_stays_scheduled_witness :
  Throwing.cleanup_scheduled_unless_failed
    (Throwing.run_host Props.toyRegExp 100000 BPS.getInstance Throwing.sample_failure) ∧
  More.cleanup_scheduled
    (Throwing.run_host Props.toyRegExp 100000 BPS.getInstance
       (Throwing.happens <$> More.sample_run)).
Proof.
  assert (More.cleanup_scheduled BPS.getInstance) as Hstart.
  { split.
    - no_records.
    - no_records. }
  split.
  - apply (cleanup_stays_scheduled Props.toyRegExp 100000 BPS.getInstance
             Throwing.sample_failure Hstart).
  - apply (cleanup_stays_scheduled Props.toyRegExp 100000 BPS.getInstance
             (Throwing.happens <$> More.sample_run) Hstart).
    repeat constructor.
Defined.

(** The failed record a rejection without a message leaves has no cleanup
    timer: nothing will evict it. *)
Lemma failed_without_cleanup :
  let s :=
    Throwing.run_host Props.toyRegExp 100000 BPS.getInstance Throwing.sample_failure in
  Props.status_of s "bash_1" = Some BPS.failed ∧
  Props.buffer_of s "bash_1" = Some ["one"] ∧
  BPS.cleanupTimers s !! "bash_1" = None.
Proof. vm_compute. done. Qed.

Lemma running_not_evicted_witness :
  More.registrations_fresh Props.toyRegExp BPS.getInstance More.sample_launches ∧
  ∃ process,
    BPS.processes
      (BPS.run Props.toyRegExp BPS.getInstance More.sample_launches) !! "bash_1"
      = Some process ∧
    BPS.status process = BPS.running ∧
    BPS.step Props.toyRegExp
      (BPS.run Props.toyRegExp BPS.getInstance More.sample_launches)
      (BPS.ev_cleanup "bash_1")
      = BPS.run Props.toyRegExp BPS.getInstance More.sample_launches.
Proof.
  assert (More.registrations_fresh Props.toyRegExp BPS.getInstance
            More.sample_launches) as Hfresh.
  { simpl. repeat split; vm_compute; reflexivity. }
  split; [exact Hfresh|].
  eexists. split; [vm_compute; reflexivity|]. split; [reflexivity|].
  eapply (running_not_evicted Props.toyRegExp BPS.getInstance
            More.sample_launches "bash_1").
  - split.
    + no_records.
    + no_records.
  - no_records.
  - exact Hfresh.
  - vm_compute; reflexivity.
  - reflexivity.
Defined.

Lemma kill_reports_method_witness :
  BPS.terminationMethod
    (BPS.killProcess Props.toyRegExp Props.sample_service "bash_1" 2000 0 0
       [BPS.ev_addOutput "bash_1" "still here"] 2500).1
    = Some "SIGKILL (forced)" ∧
  BPS.terminationMethod
    (BPS.killProcess Props.toyRegExp Props.sample_service "bash_1" 2000 0 0
       ([] ++ BPS.ev_result_resolved "bash_1" (Some 0) 2100 :: []) 2500).1
    = Some "SIGTERM".
Proof.
  destruct (kill_reports_method Props.toyRegExp Props.sample_service "bash_1"
              Props.sample_process 2000 0 0 2500)
    as [Hwith _]; [vm_compute; reflexivity | reflexivity |].
  destruct Hwith as [Hforced Hgraceful]; [by eexists|].
  split.
  - apply Hforced. by repeat constructor.
  - apply Hgraceful; by repeat constructor.
Defined.

Lemma generateId_injective_witness :
  BPS.generateId 1700000000000 "k3x9qz" = BPS.generateId 1700000000000 "k3x9qz" ∧
  1700000000000 = 1700000000000 ∧ "k3x9qz" = "k3x9qz".
Proof.
  split; [reflexivity|].
  apply (generateId_injective 1700000000000 1700000000000 "k3x9qz" "k3x9qz").
  reflexivity.
Defined.

Lemma validated_params_witness :
  ShellTool.validateToolParamValues Props.toyHost More.toyPolicy
    Props.sample_params = None ∧
  Shell.effectiveTimeout Props.sample_params = 10.
Proof.
  split; [vm_compute; reflexivity|].
  apply (validated_params Props.toyHost More.toyPolicy Props.sample_params).
  vm_compute; reflexivity.
Defined.


Lemma codes_stay_recorded_witness :
  More.codes_recorded
    (BPS.run Props.toyRegExp BPS.getInstance More.sample_run).
Proof.
  apply (codes_stay_recorded Props.toyRegExp BPS.getInstance More.sample_run).
  no_records.
Defined.

Lemma kill_tool_verdict_witness :
  BPS.processes Props.sample_service !! "bash_1" = Some Props.sample_process ∧
  Props.status_of
    (KillBash.execute Props.toyRegExp {| KillBash.bash_id := "bash_1" |}
       Props.sample_service 2000 0 0 [BPS.ev_addOutput "bash_1" "bye"] 2500
       [BPS.ev_getNewOutput "bash_1" "reader" None]).2 "bash_1"
    = Some BPS.terminated.
Proof.
  split; [vm_compute; reflexivity|].
  pose proof (kill_tool_verdict Props.toyRegExp
                {| KillBash.bash_id := "bash_1" |} Props.sample_service
                Props.sample_process 2000 0 0
                [BPS.ev_addOutput "bash_1" "bye"] 2500
                [BPS.ev_getNewOutput "bash_1" "reader" None]) as H.
  cbv zeta in H. apply H.
  - apply (step_keeps_codes Props.toyRegExp BPS.getInstance
             (BPS.ev_registerProcess "bash_1" (Some 4242) "sleep 600"
                (Some {| BPS.handle_pid := Some 4242 |})
                (Some {| BPS.aborted := false |}) 1000)).
    no_records.
  - vm_compute; reflexivity.
  - by repeat constructor.
  - by repeat constructor.
Defined.

Lemma launch_then_poll_witness :
  Shell.is_true (Shell.run_in_background More.background_params) = true ∧
  let launched :=
    (Shell.execute Props.toyHost Props.sample_config More.background_params
       More.launch_oracle BPS.getInstance).2 in
  let fed :=
    foldl
      (λ s event,
         Throwing.background_callback_host 100000 Props.toyHost
           More.launch_id event s)
      launched
      [Shell.data ("ready" +:+ Shell.NL +:+ "listening"); Shell.binary_detected] in
  let poll :=
    {| BashOutput.bash_id := More.launch_id; BashOutput.filter := None |} in
  Shell.returnDisplay
    (BashOutput.execute Props.toyRegExp poll
       (BashOutput.execute Props.toyRegExp poll fed).2).1
    = "No new output from " +:+ More.launch_id.
Proof.
  split; [reflexivity|].
  pose proof (launch_then_poll Props.toyRegExp Props.toyHost Props.sample_config
                100000 More.background_params More.launch_oracle
                BPS.getInstance (Some 4242)
                [Shell.data ("ready" +:+ Shell.NL +:+ "listening");
                 Shell.binary_detected]) as H.
  cbv zeta in H. apply H;
    [reflexivity | reflexivity | reflexivity | vm_compute; discriminate
    | vm_compute; discriminate].
Defined.

Lemma launch_then_kill_witness :
  Shell.engine_handle More.launch_oracle = Shell.resolved (Some 4242) ∧
  let launched :=
    (Shell.execute Props.toyHost Props.sample_config More.background_params
       More.launch_oracle BPS.getInstance).2 in
  let kill := {| KillBash.bash_id := More.launch_id |} in
  Shell.returnDisplay
    (KillBash.execute Props.toyRegExp kill launched 1700000005000 0 0
       [BPS.ev_addOutput More.launch_id "bye"] 1700000005500 []).1
    = "Process " +:+ More.launch_id +:+ " terminated successfully".
Proof.
  split; [reflexivity|].
  pose proof (launch_then_kill Props.toyRegExp Props.toyHost Props.sample_config
                More.background_params More.launch_oracle BPS.getInstance
                (Some 4242) 1700000005000 0 0
                [BPS.ev_addOutput More.launch_id "bye"] 1700000005500 []
                1700000009000 0 0 [] 1700000009500 []) as H.
  cbv zeta in H. apply H;
    [reflexivity | reflexivity | reflexivity | by repeat constructor
     | by repeat constructor | by repeat constructor].
Defined.

Lemma validated_poll_witness :
  BashOutput.validateToolParamValues Props.toyRegExp Props.toyHost
    {| BashOutput.bash_id := "bash_1"; BashOutput.filter := Some "line" |}
    = None ∧
  Props.offset_of
    (BashOutput.execute Props.toyRegExp
       {| BashOutput.bash_id := "bash_1"; BashOutput.filter := Some "line" |}
       Props.scenario_read.2).2 "bash_1" "bash_output_tool"
    = Some 2.
Proof.
  assert (BashOutput.validateToolParamValues Props.toyRegExp Props.toyHost
            {| BashOutput.bash_id := "bash_1"; BashOutput.filter := Some "line" |}
          = None) as Hvalid by (vm_compute; reflexivity).
  split; [exact Hvalid|].
  assert (∃ process,
            BPS.processes Props.scenario_read.2 !! "bash_1" = Some process ∧
            BPS.outputBuffer process = ["line1"; "line2"])
    as (process & Hp & Hbuffer) by (eexists; split; vm_compute; reflexivity).
  pose proof (validated_poll Props.toyRegExp Props.toyHost
                {| BashOutput.bash_id := "bash_1";
                   BashOutput.filter := Some "line" |}
                Props.scenario_read.2 Hvalid) as H.
  cbv zeta in H. cbn [BashOutput.bash_id] in H. rewrite Hp in H.
  destruct H as (result & _ & _ & _ & _ & _ & Hoffset).
  by rewrite Hbuffer in Hoffset.
Defined.

Lemma repeated_poll_is_empty_witness :
  is_Some (BPS.processes Props.scenario_read.2 !! "bash_1") ∧
  Shell.returnDisplay
    (BashOutput.execute Props.toyRegExp
       {| BashOutput.bash_id := "bash_1"; BashOutput.filter := None |}
       (BashOutput.execute Props.toyRegExp
          {| BashOutput.bash_id := "bash_1"; BashOutput.filter := Some "line" |}
          Props.scenario_read.2).2).1
    = "No new output from " +:+ "bash_1".
Proof.
  assert (is_Some (BPS.processes Props.scenario_read.2 !! "bash_1")) as Hp
    by (eexists; vm_compute; reflexivity).
  split; [exact Hp|].
  pose proof (repeated_poll_is_empty Props.toyRegExp Props.toyHost
                {| BashOutput.bash_id := "bash_1";
                   BashOutput.filter := Some "line" |}
                {| BashOutput.bash_id := "bash_1"; BashOutput.filter := None |}
                Props.scenario_read.2) as H.
  cbv zeta in H. apply H;
    [vm_compute; reflexivity | vm_compute; reflexivity | reflexivity | exact Hp].
Defined.

Lemma backgroundPIDs_listed_witness :
  (Shell.execute More.pgrep_host Props.sample_config More.pgrep_params
     More.pgrep_oracle BPS.getInstance).1.2
    = Shell.returned
        {| Shell.llmContent :=
             Js.join Shell.NL
               [ "Command: make"; "Directory: (root)"; "Output: done";
                 "Error: (none)"; "Exit Code: 0"; "Signal: (none)";
                 "Background PIDs: 4300, 4250, NaN, 4300";
                 "Process Group PGID: 4242" ];
           Shell.returnDisplay := "done" |} ∧
  ∃ pids display,
    (Shell.execute More.pgrep_host Props.sample_config More.pgrep_params
       More.pgrep_oracle BPS.getInstance).1.2
      = Shell.returned
          {| Shell.llmContent :=
               Js.join Shell.NL
                 [ "Command: make"; "Directory: (root)"; "Output: done";
                   "Error: (none)"; "Exit Code: 0"; "Signal: (none)";
                   "Background PIDs: " +:+
                     match pids with
                     | [] => "(none)"
                     | _ =>
                         Js.join ", "
                           ((λ p, match p with
                                  | Some n => Js.num n
                                  | None => "NaN"
                                  end) <$> pids)
                     end;
                   "Process Group PGID: 4242" ];
             Shell.returnDisplay := display |} ∧
    sublist pids [Some 4300; Some 4242; Some 4250; None; Some 4300] ∧
    length (List.filter (λ q, bool_decide (q = Some 4300)) pids) = 2%nat ∧
    length (List.filter (λ q, bool_decide (q = Some 4242)) pids) = 0%nat.
Proof.
  split; [vm_compute; reflexivity|].
  destruct (backgroundPIDs_listed More.pgrep_host Props.sample_config
              More.pgrep_params More.pgrep_oracle BPS.getInstance (Some 4242)
              More.pgrep_result
              ("4300" +:+ Shell.NL +:+ "4242" +:+ Shell.NL +:+ "4250"
                 +:+ Shell.NL +:+ "oops" +:+ Shell.NL +:+ "4300" +:+ Shell.NL))
    as (pids & display & Hreport & Hsublist & Hoccurrences);
    [reflexivity | discriminate | reflexivity | reflexivity | reflexivity
    | reflexivity | reflexivity | reflexivity | reflexivity | reflexivity |].
  exists pids, display. split; [exact Hreport|]. split; [exact Hsublist|].
  split.
  - exact (Hoccurrences (Some 4300)).
  - exact (Hoccurrences (Some 4242)).
Defined.

Lemma kill_of_vanished_record_witness :
  BPS.processes
    (BPS.run Props.toyRegExp
       (BPS.store "bash_1" (Props.abort_sent Props.sample_process)
          Props.sample_service) [BPS.ev_clearAll]) !! "bash_1" = None ∧
  BPS.success
    (BPS.killProcess Props.toyRegExp Props.sample_service "bash_1" 2000 0 0
       [BPS.ev_clearAll] 2500).1 = true.
Proof.
  split; [vm_compute; reflexivity|].
  pose proof (kill_of_vanished_record Props.toyRegExp Props.sample_service
                "bash_1" Props.sample_process 2000 0 0 [BPS.ev_clearAll] 2500)
    as H.
  cbv zeta in H. apply H;
    [vm_compute; reflexivity | reflexivity | by eexists | vm_compute; reflexivity].
Defined.

Lemma execute_registers_witness :
  BPS.cleanupTimers
    (Shell.execute Props.toyHost Props.sample_config More.background_params
       More.launch_oracle BPS.getInstance).2
    = BPS.cleanupTimers BPS.getInstance ∧
  Shell.is_true (Shell.run_in_background More.background_params) = true ∧
  Shell.signal_aborted More.launch_oracle = false.
Proof.
  pose proof (execute_registers Props.toyHost Props.sample_config
                More.background_params More.launch_oracle BPS.getInstance
                More.launch_id) as H.
  cbv zeta in H. destruct H as [Htimers Hregistry].
  destruct Hregistry as (_ & Hbackground & Hentry & _);
    [vm_compute; discriminate|].
  exact (conj Htimers (conj Hbackground Hentry)).
Defined.

Lemma failure_reaches_consumer_witness :
  BPS.output
    (BPS.getNewOutput Props.toyRegExp
       (BPS.markProcessFailed Props.scenario_read.2 "bash_1" "boom" 9)
       "bash_1" "reader" None).1
    = BPS.lines_of ("Process failed: " +:+ "boom").
Proof.
  assert (∃ process,
            BPS.processes Props.scenario_read.2 !! "bash_1" = Some process ∧
            BPS.lastReadIndex process !! "reader"
              = Some (Js.length (BPS.outputBuffer process)) ∧
            Js.length (BPS.outputBuffer process) = 2)
    as (process & Hp & Hread & Hlength)
    by (eexists; repeat split; vm_compute; reflexivity).
  pose proof (failure_reaches_consumer Props.toyRegExp Props.scenario_read.2
                "bash_1" process "reader" "boom" 9) as H.
  cbv zeta in H. apply H; [exact Hp | exact Hread |].
  rewrite Hlength. vm_compute. discriminate.
Defined.

Lemma reregistration_inherits_cleanup_witness :
  is_Some
    (BPS.cleanupTimers (BPS.run Props.toyRegExp BPS.getInstance More.sample_run)
       !! "bash_1") ∧
  BPS.processes
    (BPS.step Props.toyRegExp
       (BPS.registerProcess
          (BPS.run Props.toyRegExp BPS.getInstance More.sample_run)
          "bash_1" (Some 4343) "make again" None None 70000)
       (BPS.ev_cleanup "bash_1")) !! "bash_1" = None.
Proof.
  assert (is_Some
            (BPS.cleanupTimers
               (BPS.run Props.toyRegExp BPS.getInstance More.sample_run)
               !! "bash_1")) as Hpending
    by (eexists; vm_compute; reflexivity).
  split; [exact Hpending|].
  pose proof (reregistration_inherits_cleanup Props.toyRegExp
                (BPS.run Props.toyRegExp BPS.getInstance More.sample_run)
                "bash_1" (Some 4343) "make again" None None 70000 Hpending)
    as H.
  cbv zeta in H. apply H.
Defined.

Lemma kill_resources_range_witness :
  BPS.valid_random 1080863910568919 ∧ BPS.valid_random (2 ^ 53 - 1) ∧
  1080863910568919 * 100 / 2 ^ 53 = 11 ∧
  BPS.resourcesFreed
    (BPS.killProcess Props.toyRegExp Props.sample_service "bash_1" 2000
       1080863910568919 (2 ^ 53 - 1) [] 2500).1 = Some (22, 5) ∧
  ∃ memory descriptors,
    BPS.resourcesFreed
      (BPS.killProcess Props.toyRegExp Props.sample_service "bash_1" 2000
         1080863910568919 (2 ^ 53 - 1) [] 2500).1 = Some (memory, descriptors) ∧
    (10 ≤ memory ≤ 109) ∧ (1 ≤ descriptors ≤ 5).
Proof.
  assert (BPS.valid_random 1080863910568919) as Hu1
    by (vm_compute; split; [discriminate | reflexivity]).
  assert (BPS.valid_random (2 ^ 53 - 1)) as Hu2
    by (vm_compute; split; [discriminate | reflexivity]).
  split; [exact Hu1|]. split; [exact Hu2|].
  split; [vm_compute; reflexivity|]. split; [vm_compute; reflexivity|].
  destruct (kill_resources_range Props.toyRegExp Props.sample_service "bash_1"
              Props.sample_process 2000 1080863910568919 (2 ^ 53 - 1) [] 2500)
    as (memory & descriptors & Hfreed & Hmemory & Hdescriptors & _);
    [vm_compute; reflexivity | reflexivity | exact Hu1 | exact Hu2 |].
  exists memory, descriptors. split; [exact Hfreed|].
  split; [by apply Hmemory | by apply Hdescriptors].
Defined.

Lemma formatRuntime_parts_witness :
  0 ≤ 125000 ∧
  ∃ minutes secs,
    0 ≤ minutes ∧ 0 ≤ secs < 60 ∧ 60 * minutes + secs = 125000 / 1000 ∧
    BPS.formatRuntime 125000 =
      if 0 <? minutes then
        Js.num minutes +:+ " minute" +:+ BPS.plural minutes +:+ " "
          +:+ Js.num secs +:+ " second" +:+ BPS.plural secs
      else Js.num secs +:+ " second" +:+ BPS.plural secs.
Proof.
  split; [lia|]. apply (formatRuntime_parts 125000). lia.
Defined.
